(** * MQTT benchmark: the analyzer's metrics and the publisher agent

    A shallow embedding of [analyzer_forWireshark.py] (class [Analyzer]:
    [on_message], [calculate_results], [subscribe_to_counter_topics],
    [run_test], [save_results] and the sweeps) and of [publisher.py] (class
    [Publisher]: [on_message], [start_publishing], [publish_messages], and
    the ten objects of the main program), the properties of the
    specification that concern them, and further properties of the two
    programs and of their interplay.

    Conventions of the embedding.
    - A Python [int] is a [Z].
    - A Python [str] is the Rocq [string] that holds its UTF-8 encoding; a
      [bytes] value is a [string] too, and [bytes.decode()] is the strict
      UTF-8 check of [Py.decode].
    - A Python exception is the [Raise] result of the error monad [Py.res].
    - The one place where the code converts a float back to an [int]
      ([int(30 * (1000 / delay))]) is computed in IEEE 754 binary64, with
      the operations of the standard library's [SpecFloat].
    - The percentages, rates and means, which the code only stores and
      prints, are exact rationals ([Q]); [statistics.stdev] is the real
      square root of the exact sample variance.
    - A [dict] is a [gmap]; the order in which [calculate_results] visits
      the publishers only determines the order of the per-publisher lists,
      which are consumed by [statistics.mean] alone.
    - The calls on the paho client are values of [Mqtt.call]; a number
      passed as a payload goes out as the text of [str(payload)].
    - The callbacks run in paho's network thread while [run_test] runs in
      the main thread: [run_test] takes the messages that arrive between
      its statements, and the clock it reads, from a [run_env]. *)

From Stdlib Require Import ZArith QArith Qreals Reals Lia Lra Ascii String.
From Stdlib Require Import Floats.SpecFloat.
From Stdlib Require Lqa.
From stdpp Require Import gmap strings list sorting pretty.
Close Scope Q_scope.
Close Scope R_scope.
Open Scope Z_scope.

(** ** The Python runtime that the two programs use *)

Module Py.

Inductive exn :=
  | ZeroDivisionError
  | StatisticsError
  | KeyError
  | ValueError
  | IndexError
  | UnicodeDecodeError
  | OverflowError.

Inductive res (A : Type) : Type :=
  | Ok (a : A)
  | Raise (e : exn).
Arguments Ok {A} a.
Arguments Raise {A} e.

#[global] Instance res_ret : MRet res := λ A a, Ok a.
#[global] Instance res_bind : MBind res := λ A B f m,
  match m with
  | Ok a => f a
  | Raise e => Raise e
  end.

(** [for x in l: s = body(x, s)] *)
Fixpoint for_each {A S : Type} (body : A → S → res S) (l : list A) (s : S)
    : res S :=
  match l with
  | [] => Ok s
  | x :: l' => s' ← body x s; for_each body l' s'
  end.

(** [l[i]] for [0 <= i] *)
Definition getitem {A : Type} (l : list A) (i : nat) : res A :=
  match l !! i with
  | Some x => Ok x
  | None => Raise IndexError
  end.

(** [d[k]] *)
Definition dict_getitem (d : gmap Z Z) (k : Z) : res Z :=
  match d !! k with
  | Some v => Ok v
  | None => Raise KeyError
  end.

(** [max(l)] *)
Definition max (l : list Z) : res Z :=
  match l with
  | [] => Raise ValueError
  | x :: l' => Ok (foldl Z.max x l')
  end.

(** [sorted(l)] on integers *)
Definition sorted (l : list Z) : list Z := merge_sort Z.le l.

(** [a < b] on numbers seen as exact rationals *)
Definition Qltb (a b : Q) : bool := negb (Qle_bool b a).

(** [a / b] on numbers seen as exact rationals *)
Definition truediv (a b : Q) : res Q :=
  if Qeq_bool b 0 then Raise ZeroDivisionError else Ok (a / b)%Q.

Definition Qsum (l : list Q) : Q := foldr Qplus 0%Q l.
Definition Rsum (l : list R) : R := foldr Rplus 0%R l.
Definition Qlen {A : Type} (l : list A) : Q := inject_Z (Z.of_nat (length l)).

(** [statistics.mean]: the exact arithmetic mean; [StatisticsError] on no
    data. *)
Definition mean (data : list Q) : res Q :=
  match data with
  | [] => Raise StatisticsError
  | _ => Ok (Qsum data / Qlen data)%Q
  end.

Definition meanR (data : list R) : res R :=
  match data with
  | [] => Raise StatisticsError
  | _ => Ok (Rsum data / INR (length data))%R
  end.

(** [statistics.variance]: the sample variance, with [n - 1] in the
    denominator; [StatisticsError] on fewer than two data points. *)
Definition variance (data : list Q) : res Q :=
  if (length data <? 2)%nat then Raise StatisticsError
  else
    let c := (Qsum data / Qlen data)%Q in
    Ok (Qsum (map (λ x, (x - c) * (x - c))%Q data) / (Qlen data - 1))%Q.

(** [statistics.stdev]: the square root of the sample variance. *)
Definition stdev (data : list Q) : res R :=
  v ← variance data; mret (sqrt (Q2R v)).

(** *** Strings *)

(** [s.split(sep)] and [s.split(sep, maxsplit)] for a one-character
    separator: [limit = None] splits everywhere. *)
Fixpoint split (sep : ascii) (limit : option nat) (s : string) : list string :=
  match s with
  | EmptyString => [EmptyString]
  | String c s' =>
      let may_split :=
        match limit with
        | Some O => false
        | _ => true
        end in
      if may_split && bool_decide (c = sep) then
        EmptyString :: split sep (Nat.pred <$> limit) s'
      else
        match split sep limit s' with
        | h :: t => String c h :: t
        | [] => [String c EmptyString]
        end
  end.

(** [s * n]: no repetition at all for [n <= 0]. *)
Fixpoint repeat_str (s : string) (n : nat) : string :=
  match n with
  | O => EmptyString
  | S n' => s +:+ repeat_str s n'
  end.

Definition str_mul (s : string) (n : Z) : string := repeat_str s (Z.to_nat n).

(** [int(s)] on the ASCII fragment of [str]: blanks around, an optional
    sign, decimal digits with single underscores between them. The
    theorems below hold for any parser; this one serves the examples. *)
Definition is_space (c : ascii) : bool :=
  let n := N_of_ascii c in
  (((9 <=? n) && (n <=? 13)) || ((28 <=? n) && (n <=? 32)))%N.

Definition digit_value (c : ascii) : option Z :=
  let n := Z.of_N (N_of_ascii c) in
  if (48 <=? n) && (n <=? 57) then Some (n - 48) else None.

Fixpoint parse_digits (acc : Z) (after_digit : bool) (s : list ascii)
    : option Z :=
  match s with
  | [] => if after_digit then Some acc else None
  | c :: s' =>
      match digit_value c with
      | Some d => parse_digits (10 * acc + d) true s'
      | None =>
          if bool_decide (c = "_"%char) && after_digit
          then parse_digits acc false s'
          else None
      end
  end.

Fixpoint lstrip (s : list ascii) : list ascii :=
  match s with
  | c :: s' => if is_space c then lstrip s' else s
  | [] => []
  end.

Definition int_ascii (s : string) : res Z :=
  let body := reverse (lstrip (reverse (lstrip (list_ascii_of_string s)))) in
  let signed :=
    match body with
    | c :: rest =>
        if bool_decide (c = "-"%char) then (true, rest)
        else if bool_decide (c = "+"%char) then (false, rest)
        else (false, body)
    | [] => (false, [])
    end in
  match parse_digits 0 false signed.2 with
  | Some n => Ok (if signed.1 then - n else n)
  | None => Raise ValueError
  end.

(** [s.startswith(p)] *)
Definition startswith (s p : string) : bool := String.prefix p s.

(** The bytes of well-formed UTF-8, as CPython's strict decoder accepts
    them: no overlong form, no surrogate, nothing above U+10FFFF. *)
Definition is_cont (b : N) : bool := ((128 <=? b) && (b <=? 191))%N.
Definition in_range (lo hi b : N) : bool := ((lo <=? b) && (b <=? hi))%N.

Fixpoint utf8_valid (l : list N) : bool :=
  match l with
  | [] => true
  | b0 :: l1 =>
      if (b0 <=? 127)%N then utf8_valid l1
      else
        match l1 with
        | [] => false
        | b1 :: l2 =>
            if in_range 194 223 b0 then is_cont b1 && utf8_valid l2
            else
              match l2 with
              | [] => false
              | b2 :: l3 =>
                  if in_range 224 239 b0 then
                    (if (b0 =? 224)%N then in_range 160 191 b1
                     else if (b0 =? 237)%N then in_range 128 159 b1
                     else is_cont b1)
                    && is_cont b2 && utf8_valid l3
                  else
                    match l3 with
                    | [] => false
                    | b3 :: l4 =>
                        in_range 240 244 b0
                        && (if (b0 =? 240)%N then in_range 144 191 b1
                            else if (b0 =? 244)%N then in_range 128 143 b1
                            else is_cont b1)
                        && is_cont b2 && is_cont b3 && utf8_valid l4
                    end
              end
        end
  end.

Definition byte_values (s : string) : list N :=
  N_of_ascii <$> list_ascii_of_string s.

(** [payload.decode()] *)
Definition decode (payload : string) : res string :=
  if utf8_valid (byte_values payload) then Ok payload
  else Raise UnicodeDecodeError.

(** *** IEEE 754 binary64, for [int(30 * (1000 / delay))] *)

Module B64.

Definition prec : Z := 53.
Definition emax : Z := 1024.

(** An integer as a (not normalised) binary64 datum of the same value. *)
Definition raw (z : Z) : spec_float :=
  match z with
  | Z0 => S754_zero false
  | Zpos p => S754_finite false p 0
  | Zneg p => S754_finite true p 0
  end.

(** [float(n)], used on the literal [30] only. *)
Definition of_int (n : Z) : spec_float := binary_normalize prec emax n 0 false.

(** [a / b] on two [int]s: the correctly rounded quotient. *)
Definition int_truediv (a b : Z) : res spec_float :=
  if b =? 0 then Raise ZeroDivisionError
  else
    match SFdiv prec emax (raw a) (raw b) with
    | S754_infinity _ => Raise OverflowError
    | f => Ok f
    end.

Definition mul (x y : spec_float) : spec_float := SFmul prec emax x y.

(** [int(f)]: truncation toward zero. *)
Definition to_int (f : spec_float) : res Z :=
  match f with
  | S754_zero _ => Ok 0
  | S754_finite s m e =>
      let a := if 0 <=? e then Zpos m * 2 ^ e else Zpos m / 2 ^ (- e) in
      Ok (if s then - a else a)
  | S754_infinity _ => Raise OverflowError
  | S754_nan => Raise ValueError
  end.

End B64.

End Py.

Import Py.

(** ** What the programs exchange with the paho client *)

Module Mqtt.

(** An inbound message: [msg.topic] (a [str]) and [msg.payload] ([bytes]). *)
Record message := {
  topic : string;
  payload : string
}.

(** One call [client.publish(topic, payload, qos=qos)]. *)
Record publication := {
  pub_topic : string;
  pub_payload : string;
  pub_qos : Z
}.

(** The payload argument of [client.publish]: the two programs pass an
    [int] or a [str]. *)
Inductive payload_arg :=
  | PayloadInt (n : Z)
  | PayloadStr (s : string).

(** A call on [self.client]. [subscribe] and [publish] without a [qos=]
    argument use qos 0. *)
Inductive call :=
  | Subscribe (filter : string) (qos : Z)
  | Unsubscribe (filter : string)
  | Publish (topic : string) (payload : payload_arg) (qos : Z).

(** The bytes that paho sends for a payload: [str(payload)] for a number,
    the encoding of a [str]. *)
Definition wire (p : payload_arg) : string :=
  match p with
  | PayloadInt n => pretty n
  | PayloadStr s => s
  end.

(** The messages that the calls of a client put on the broker, in order. *)
Definition inbound (calls : list call) : list message :=
  omap (λ c, match c with
             | Publish t p _ => Some {| topic := t; payload := wire p |}
             | _ => None
             end) calls.

(** A publication as a subscriber's callback receives it: the broker
    hands on the topic and the payload as they were sent. *)
Definition received (p : publication) : message :=
  {| topic := pub_topic p; payload := pub_payload p |}.

End Mqtt.

Import Mqtt.

(** ** analyzer_forWireshark.py *)

Module Analyzer.

(** [self.current_test] *)
Record test_params := {
  qos : Z;
  delay : Z;
  messagesize : Z;
  instancecount : Z;
  sub_qos : Z
}.

(** A value of [self.sys_metrics]: the payload as a number when [float]
    accepts it, the payload itself otherwise. *)
Inductive sys_value :=
  | SysNumber (f : spec_float)
  | SysText (s : string).

(** One element of [self.results]. *)
Record result := {
  r_qos : Z;
  r_delay : Z;
  r_messagesize : Z;
  r_instancecount : Z;
  r_sub_qos : Z;
  message_rate : Q;
  avg_message_loss : Q;
  avg_out_of_order : Q;
  avg_duplicates : Q;
  avg_mean_gap : Q;
  avg_std_dev_gap : R;
  r_sys_metrics : gmap string sys_value
}.

(** The fields of an [Analyzer] object that the two methods read or
    write. [messages_received] is [{instance_id: {counter: timestamp}}]. *)
Record t := {
  current_test : test_params;
  messages_received : gmap Z (gmap Z Z);
  messages_expected : gmap Z Z;
  test_start_time : Q;
  test_end_time : Q;
  sys_metrics : gmap string sys_value;
  results : list result
}.

Definition set_messages_received (mr : gmap Z (gmap Z Z)) (self : t) : t :=
  {| current_test := current_test self;
     messages_received := mr;
     messages_expected := messages_expected self;
     test_start_time := test_start_time self;
     test_end_time := test_end_time self;
     sys_metrics := sys_metrics self;
     results := results self |}.

Definition set_sys_metrics (sm : gmap string sys_value) (self : t) : t :=
  {| current_test := current_test self;
     messages_received := messages_received self;
     messages_expected := messages_expected self;
     test_start_time := test_start_time self;
     test_end_time := test_end_time self;
     sys_metrics := sm;
     results := results self |}.

Definition set_results (rs : list result) (self : t) : t :=
  {| current_test := current_test self;
     messages_received := messages_received self;
     messages_expected := messages_expected self;
     test_start_time := test_start_time self;
     test_end_time := test_end_time self;
     sys_metrics := sys_metrics self;
     results := rs |}.

(** *** [on_message] *)

(** The two statements under "Store message data". *)
Definition store (instance_id counter timestamp : Z)
    (mr : gmap Z (gmap Z Z)) : gmap Z (gmap Z Z) :=
  let mr1 :=
    if bool_decide (instance_id ∈ dom mr) then mr
    else <[instance_id := ∅]> mr in
  <[instance_id := <[counter := timestamp]> (mr1 !!! instance_id)]> mr1.

Section WithParsers.

(** [int(s)] and [float(s)] on a [str]. *)
Variable int_of_str : string → res Z.
Variable float_of_str : string → res spec_float.

(** The body of the [try] block; the dictionary is threaded through so
    that an exception leaves it as the statements before it made it. *)
Definition counter_body (topic payload : string) (mr : gmap Z (gmap Z Z))
    : gmap Z (gmap Z Z) * res unit :=
  let parts := split "/" None topic in
  match (s ← getitem parts 1; int_of_str s) with
  | Raise e => (mr, Raise e)
  | Ok instance_id =>
      let message_parts := split ":" (Some 2%nat) payload in
      match (s ← getitem message_parts 0; int_of_str s) with
      | Raise e => (mr, Raise e)
      | Ok counter =>
          match (s ← getitem message_parts 1; int_of_str s) with
          | Raise e => (mr, Raise e)
          | Ok timestamp => (store instance_id counter timestamp mr, Ok ())
          end
      end
  end.

Definition on_message (self : t) (msg : message) : res t :=
  payload ← decode (payload msg);
  if startswith (topic msg) "$SYS/" then
    match float_of_str payload with
    | Ok payload_num =>
        mret (set_sys_metrics
                (<[topic msg := SysNumber payload_num]> (sys_metrics self)) self)
    | Raise ValueError =>
        mret (set_sys_metrics
                (<[topic msg := SysText payload]> (sys_metrics self)) self)
    | Raise e => Raise e
    end
  else if startswith (topic msg) "counter/" then
    (* try: ... except Exception: print(...) *)
    let '(mr, _) := counter_body (topic msg) payload (messages_received self) in
    mret (set_messages_received mr self)
  else mret self.

End WithParsers.

(** *** [calculate_results] *)

(** The five lists of [per_publisher_metrics]. *)
Record per_publisher_metrics := {
  message_loss : list Q;
  out_of_order : list Q;
  duplicates : list Q;
  mean_gap : list Q;
  std_dev_gap : list R
}.

Definition no_metrics : per_publisher_metrics :=
  {| message_loss := []; out_of_order := []; duplicates := [];
     mean_gap := []; std_dev_gap := [] |}.

(** [messages.keys()] *)
Definition keys (messages : gmap Z Z) : list Z := (map_to_list messages).*1.

(** [len(messages)] *)
Definition len (messages : gmap Z Z) : Z := Z.of_nat (size messages).

(** [int(30 * (1000 / delay))] *)
Definition theoretical_count (delay : Z) : res Z :=
  q ← B64.int_truediv 1000 delay;
  B64.to_int (B64.mul (B64.of_int 30) q).

Definition expected_messages (delay : Z) (sorted_counters : list Z) : res Z :=
  if delay =? 0 then
    max_counter ← Py.max sorted_counters;
    mret (max_counter + 1)
  else theoretical_count delay.

(** [100 * (1 - actual / expected) if expected > 0 else 0] *)
Definition message_loss_of (actual_messages expected_messages : Z) : res Q :=
  if 0 <? expected_messages then
    q ← truediv (inject_Z actual_messages) (inject_Z expected_messages);
    mret (100 * (1 - q))%Q
  else mret 0%Q.

(** The loop over [sorted(messages.keys())] that counts the counters
    smaller than the one before them. *)
Definition out_of_order_count (counters : list Z) : Z :=
  fst (foldl (λ '(count, prev_counter) counter,
                ((match prev_counter with
                  | Some p => if counter <? p then count + 1 else count
                  | None => count
                  end), Some counter))
             (0, None) counters).

(** [100 * count / actual if actual > 0 else 0] *)
Definition percentage (count actual_messages : Z) : res Q :=
  if 0 <? actual_messages then
    truediv (inject_Z (100 * count)) (inject_Z actual_messages)
  else mret 0%Q.

(** [len(sorted_counters) - len(set(sorted_counters))] *)
Definition duplicate_count (sorted_counters : list Z) : Z :=
  Z.of_nat (length sorted_counters)
  - Z.of_nat (size (list_to_set sorted_counters : gset Z)).

(** One turn of [for i in range(1, len(sorted_counters))]. *)
Definition gap_step (messages : gmap Z Z) (sorted_counters : list Z)
    (i : nat) (gaps : list Z) : res (list Z) :=
  cur ← getitem sorted_counters i;
  prev ← getitem sorted_counters (i - 1);
  if cur =? prev + 1 then
    current_timestamp ← dict_getitem messages cur;
    prev_timestamp ← dict_getitem messages prev;
    mret (gaps ++ [current_timestamp - prev_timestamp])
  else mret gaps.

Definition gaps_of (messages : gmap Z Z) (sorted_counters : list Z)
    : res (list Z) :=
  for_each (gap_step messages sorted_counters)
           (seq 1 (length sorted_counters - 1)) [].

(** [mean_gap] and [std_dev_gap] of one publisher. *)
Definition gap_statistics (gaps : list Z) : res (Q * R) :=
  match gaps with
  | [] => mret (0%Q, 0%R)
  | _ =>
      mean_gap ← mean (inject_Z <$> gaps);
      std_dev_gap ←
        (if (1 <? length gaps)%nat then stdev (inject_Z <$> gaps)
         else mret 0%R);
      mret (mean_gap, std_dev_gap)
  end.

(** What one publisher with at least one recorded message contributes. *)
Record publisher_values := {
  v_message_loss : Q;
  v_out_of_order : Q;
  v_duplicates : Q;
  v_mean_gap : Q;
  v_std_dev_gap : R
}.

Definition publisher_metrics (delay : Z) (messages : gmap Z Z)
    : res publisher_values :=
  let sorted_counters := sorted (keys messages) in
  expected ← expected_messages delay sorted_counters;
  let actual_messages := len messages in
  loss ← message_loss_of actual_messages expected;
  ooo ← percentage (out_of_order_count (sorted (keys messages))) actual_messages;
  dup ← percentage (duplicate_count sorted_counters) actual_messages;
  gaps ← gaps_of messages sorted_counters;
  '(mean_gap, std_dev_gap) ← gap_statistics gaps;
  mret {| v_message_loss := loss; v_out_of_order := ooo; v_duplicates := dup;
          v_mean_gap := mean_gap; v_std_dev_gap := std_dev_gap |}.

Definition append_values (v : publisher_values) (ppm : per_publisher_metrics)
    : per_publisher_metrics :=
  {| message_loss := message_loss ppm ++ [v_message_loss v];
     out_of_order := out_of_order ppm ++ [v_out_of_order v];
     duplicates := duplicates ppm ++ [v_duplicates v];
     mean_gap := mean_gap ppm ++ [v_mean_gap v];
     std_dev_gap := std_dev_gap ppm ++ [v_std_dev_gap v] |}.

(** The body of [for instance_id, messages in ...items()]. *)
Definition publisher_step (delay : Z) (item : Z * gmap Z Z)
    (ppm : per_publisher_metrics) : res per_publisher_metrics :=
  let messages := item.2 in
  match sorted (keys messages) with
  | [] => mret ppm (* continue *)
  | _ => v ← publisher_metrics delay messages; mret (append_values v ppm)
  end.

(** [statistics.mean(l) if l else 0] *)
Definition mean_or_zero (l : list Q) : res Q :=
  match l with
  | [] => mret 0%Q
  | _ => mean l
  end.

Definition meanR_or_zero (l : list R) : res R :=
  match l with
  | [] => mret 0%R
  | _ => meanR l
  end.

(** [sum(len(messages) for messages in self.messages_received.values())] *)
Definition total_messages (mr : gmap Z (gmap Z Z)) : Z :=
  foldr Z.add 0 (len <$> (map_to_list mr).*2).

(** The record that [calculate_results] builds. *)
Definition compute_result (self : t) : res result :=
  let test_duration := (test_end_time self - test_start_time self)%Q in
  message_rate ←
    (if Qltb 0 test_duration then
       truediv (inject_Z (total_messages (messages_received self))) test_duration
     else mret 0%Q);
  ppm ← for_each (publisher_step (delay (current_test self)))
                 (map_to_list (messages_received self)) no_metrics;
  avg_message_loss ← mean_or_zero (message_loss ppm);
  avg_out_of_order ← mean_or_zero (out_of_order ppm);
  avg_duplicates ← mean_or_zero (duplicates ppm);
  avg_mean_gap ← mean_or_zero (mean_gap ppm);
  avg_std_dev_gap ← meanR_or_zero (std_dev_gap ppm);
  mret {| r_qos := qos (current_test self);
          r_delay := delay (current_test self);
          r_messagesize := messagesize (current_test self);
          r_instancecount := instancecount (current_test self);
          r_sub_qos := sub_qos (current_test self);
          message_rate := message_rate;
          avg_message_loss := avg_message_loss;
          avg_out_of_order := avg_out_of_order;
          avg_duplicates := avg_duplicates;
          avg_mean_gap := avg_mean_gap;
          avg_std_dev_gap := avg_std_dev_gap;
          r_sys_metrics := sys_metrics self |}.

(** [calculate_results]: [self.results.append(result)]. *)
Definition calculate_results (self : t) : res t :=
  r ← compute_result self;
  mret (set_results (results self ++ [r]) self).

(** *** [__init__] and [on_connect] *)

Definition init : t :=
  {| current_test :=
       {| qos := 0; delay := 0; messagesize := 0; instancecount := 1;
          sub_qos := 0 |};
     messages_received := ∅;
     messages_expected := ∅;
     test_start_time := 0%Q;
     test_end_time := 0%Q;
     sys_metrics := ∅;
     results := [] |}.

Definition on_connect : list call := [Subscribe "$SYS/#" 0].

(** *** [subscribe_to_counter_topics] and [run_test] *)

Definition set_current_test (p : test_params) (self : t) : t :=
  {| current_test := p;
     messages_received := messages_received self;
     messages_expected := messages_expected self;
     test_start_time := test_start_time self;
     test_end_time := test_end_time self;
     sys_metrics := sys_metrics self;
     results := results self |}.

Definition set_messages_expected (me : gmap Z Z) (self : t) : t :=
  {| current_test := current_test self;
     messages_received := messages_received self;
     messages_expected := me;
     test_start_time := test_start_time self;
     test_end_time := test_end_time self;
     sys_metrics := sys_metrics self;
     results := results self |}.

Definition set_test_start_time (now : Q) (self : t) : t :=
  {| current_test := current_test self;
     messages_received := messages_received self;
     messages_expected := messages_expected self;
     test_start_time := now;
     test_end_time := test_end_time self;
     sys_metrics := sys_metrics self;
     results := results self |}.

Definition set_test_end_time (now : Q) (self : t) : t :=
  {| current_test := current_test self;
     messages_received := messages_received self;
     messages_expected := messages_expected self;
     test_start_time := test_start_time self;
     test_end_time := now;
     sys_metrics := sys_metrics self;
     results := results self |}.

(** [f"counter/+/{qos}/{delay}/{messagesize}"] *)
Definition counter_filter (p : test_params) : string :=
  "counter/+/" +:+ pretty (qos p) +:+ "/" +:+ pretty (delay p) +:+ "/"
  +:+ pretty (messagesize p).

Definition subscribe_to_counter_topics (self : t) : list call :=
  [ Unsubscribe "counter/#";
    Subscribe (counter_filter (current_test self)) (sub_qos (current_test self)) ].

(** What happens around one call of [run_test], which runs in the main
    thread while paho's network thread calls [on_message]: the messages
    that arrive between two of its statements, in order of arrival, and
    the two readings of the clock. The callback reads and writes
    [messages_received] and [sys_metrics] only, so the arrivals are told
    apart by the assignments to these two fields that they fall between;
    [calculate_results] is taken to run without a callback in between. *)
Record run_env := {
  (** before [self.messages_received = {}] *)
  before_reset : list message;
  (** from there to [self.sys_metrics = {}] *)
  during_reset : list message;
  (** the subscription, the four broadcasts and [time.sleep(1)] *)
  during_setup : list message;
  (** [self.test_start_time = time.time()] *)
  start_clock : Q;
  (** the start signal and [time.sleep(test_duration)] *)
  during_test : list message;
  (** [self.test_end_time = time.time()] *)
  end_clock : Q;
  (** [time.sleep(2)] *)
  during_pause : list message
}.

Section Driver.

Variable int_of_str : string → res Z.
Variable float_of_str : string → res spec_float.

(** The callback on the messages that arrive, one after the other. An
    exception of the callback ends the network thread; the run is not
    followed beyond it. *)
Definition deliver (self : t) (msgs : list message) : res t :=
  for_each (λ msg self, on_message int_of_str float_of_str self msg) msgs self.

Definition run_test (self : t) (qos delay messagesize instancecount sub_qos : Z)
    (env : run_env) : res (t * list call) :=
  let self :=
    set_current_test
      {| qos := qos; delay := delay; messagesize := messagesize;
         instancecount := instancecount; sub_qos := sub_qos |} self in
  self ← deliver self (before_reset env);
  let self := set_messages_received ∅ self in
  let self := set_messages_expected ∅ self in
  self ← deliver self (during_reset env);
  let self := set_sys_metrics ∅ self in
  let calls :=
    subscribe_to_counter_topics self
    ++ [ Publish "request/qos" (PayloadInt qos) 0;
         Publish "request/delay" (PayloadInt delay) 0;
         Publish "request/messagesize" (PayloadInt messagesize) 0;
         Publish "request/instancecount" (PayloadInt instancecount) 0 ] in
  self ← deliver self (during_setup env);
  let self := set_test_start_time (start_clock env) self in
  let calls := calls ++ [Publish "request/go" (PayloadStr "1") 0] in
  self ← deliver self (during_test env);
  let self := set_test_end_time (end_clock env) self in
  self ← calculate_results self;
  self ← deliver self (during_pause env);
  mret (self, calls).

(** *** [save_results] *)

(** A row of the CSV file: the record without [sys_metrics]. *)
Record csv_row := {
  c_qos : Z;
  c_delay : Z;
  c_messagesize : Z;
  c_instancecount : Z;
  c_sub_qos : Z;
  c_message_rate : Q;
  c_avg_message_loss : Q;
  c_avg_out_of_order : Q;
  c_avg_duplicates : Q;
  c_avg_mean_gap : Q;
  c_avg_std_dev_gap : R
}.

(** [{k: v for k, v in result.items() if k != "sys_metrics"}] *)
Definition csv_row_of (r : result) : csv_row :=
  {| c_qos := r_qos r; c_delay := r_delay r; c_messagesize := r_messagesize r;
     c_instancecount := r_instancecount r; c_sub_qos := r_sub_qos r;
     c_message_rate := message_rate r;
     c_avg_message_loss := avg_message_loss r;
     c_avg_out_of_order := avg_out_of_order r;
     c_avg_duplicates := avg_duplicates r;
     c_avg_mean_gap := avg_mean_gap r;
     c_avg_std_dev_gap := avg_std_dev_gap r |}.

(** The two files that one call writes, both opened with mode ['w']: the
    rows under the header, and [{i: result["sys_metrics"]}]. *)
Record saved := {
  csv_name : string;
  csv_rows : list csv_row;
  json_name : string;
  json_data : list (nat * gmap string sys_value)
}.

Definition save_results (self : t) (timestamp : string) : saved :=
  {| csv_name := "results/mqtt_test_results_" +:+ timestamp +:+ ".csv";
     csv_rows := csv_row_of <$> results self;
     json_name := "results/mqtt_sys_metrics_" +:+ timestamp +:+ ".json";
     json_data := imap (λ i r, (i, r_sys_metrics r)) (results self) |}.

(** *** The sweeps *)

(** The state of the five nested loops: the object, the local
    [current_test], and what was called and written so far. *)
Record sweep_state := {
  analyzer : t;
  test_number : Z;
  calls : list call;
  saves : list saved
}.

(** The body of the innermost loop. [env n] is what happens around run
    number [n], counted from 0; [checkpoint] tells whether the body ends
    with [if current_test % 10 == 0: self.save_results(timestamp)]. *)
Definition sweep_body (checkpoint : bool) (timestamp : string)
    (env : nat → run_env) (qos delay messagesize instancecount sub_qos : Z)
    (st : sweep_state) : res sweep_state :=
  '(self, made) ← run_test (analyzer st) qos delay messagesize instancecount
                    sub_qos (env (Z.to_nat (test_number st - 1)));
  let current_test := test_number st + 1 in
  mret {| analyzer := self;
          test_number := current_test;
          calls := calls st ++ made;
          saves :=
            if checkpoint && (current_test mod 10 =? 0)
            then saves st ++ [save_results self timestamp]
            else saves st |}.

(** [for sub_qos in ...: for qos in ...: for delay in ...:
     for messagesize in ...: for instancecount in ...] *)
Definition sweep (checkpoint : bool) (timestamp : string) (env : nat → run_env)
    (delays qos_levels message_sizes instance_counts sub_qos_levels : list Z)
    (st : sweep_state) : res sweep_state :=
  for_each (λ sub_qos,
    for_each (λ qos,
      for_each (λ delay,
        for_each (λ messagesize,
          for_each (λ instancecount,
            sweep_body checkpoint timestamp env
              qos delay messagesize instancecount sub_qos)
            instance_counts)
          message_sizes)
        delays)
      qos_levels)
    sub_qos_levels st.

(** A sweep from [current_test = 1], and the closing
    [self.save_results(timestamp)]. *)
Definition run_sweep (checkpoint : bool) (timestamp : string)
    (env : nat → run_env)
    (delays qos_levels message_sizes instance_counts sub_qos_levels : list Z)
    (self : t) : res (t * list call * list saved) :=
  st ← sweep checkpoint timestamp env
         delays qos_levels message_sizes instance_counts sub_qos_levels
         {| analyzer := self; test_number := 1; calls := []; saves := [] |};
  mret (analyzer st, calls st,
        saves st ++ [save_results (analyzer st) timestamp]).

Definition run_all_tests (self : t) (timestamp : string) (env : nat → run_env)
    : res (t * list call * list saved) :=
  run_sweep true timestamp env
    [0; 100] [0; 1; 2] [0; 1000; 4000] [1; 5; 10] [0; 1; 2] self.

Definition run_reduced_tests (self : t) (timestamp : string)
    (env : nat → run_env) : res (t * list call * list saved) :=
  run_sweep false timestamp env [0] [0; 1] [0] [1; 5] [0] self.

End Driver.

End Analyzer.

(** ** publisher.py *)

Module Publisher.

(** The fields of a [Publisher] object. *)
Record t := {
  instance_id : Z;
  qos : Z;
  delay : Z;
  messagesize : Z;
  instancecount : Z;
  running : bool
}.

(** [__init__]: the default settings. *)
Definition init (instance_id : Z) : t :=
  {| instance_id := instance_id; qos := 0; delay := 100; messagesize := 0;
     instancecount := 1; running := false |}.

Definition set_qos (v : Z) (self : t) : t :=
  {| instance_id := instance_id self; qos := v; delay := delay self;
     messagesize := messagesize self; instancecount := instancecount self;
     running := running self |}.

Definition set_delay (v : Z) (self : t) : t :=
  {| instance_id := instance_id self; qos := qos self; delay := v;
     messagesize := messagesize self; instancecount := instancecount self;
     running := running self |}.

Definition set_messagesize (v : Z) (self : t) : t :=
  {| instance_id := instance_id self; qos := qos self; delay := delay self;
     messagesize := v; instancecount := instancecount self;
     running := running self |}.

Definition set_instancecount (v : Z) (self : t) : t :=
  {| instance_id := instance_id self; qos := qos self; delay := delay self;
     messagesize := messagesize self; instancecount := v;
     running := running self |}.

Definition set_running (b : bool) (self : t) : t :=
  {| instance_id := instance_id self; qos := qos self; delay := delay self;
     messagesize := messagesize self; instancecount := instancecount self;
     running := b |}.

(** [threading.Thread(target=self.publish_messages).start()] *)
Inductive effect := StartThread.

Definition start_publishing (self : t) : t * list effect :=
  (set_running true self, [StartThread]).

Section WithParser.

Variable int_of_str : string → res Z.

Definition on_message (self : t) (msg : message) : res (t * list effect) :=
  payload ← decode (payload msg);
  if bool_decide (topic msg = "request/qos") then
    v ← int_of_str payload; mret (set_qos v self, [])
  else if bool_decide (topic msg = "request/delay") then
    v ← int_of_str payload; mret (set_delay v self, [])
  else if bool_decide (topic msg = "request/messagesize") then
    v ← int_of_str payload; mret (set_messagesize v self, [])
  else if bool_decide (topic msg = "request/instancecount") then
    v ← int_of_str payload; mret (set_instancecount v self, [])
  else if bool_decide (topic msg = "request/go") then
    if instance_id self <=? instancecount self then
      mret (start_publishing self)
    else mret (set_running false self, [])
  else mret (self, []).

(** The callback on a sequence of inbound messages; the threads started
    are collected in order. *)
Fixpoint handle (self : t) (msgs : list message) : res (t * list effect) :=
  match msgs with
  | [] => mret (self, [])
  | msg :: msgs' =>
      '(self1, started1) ← on_message self msg;
      '(self2, started2) ← handle self1 msgs';
      mret (self2, started1 ++ started2)
  end.

End WithParser.

(** What one turn of the loop in [publish_messages] reads from outside the
    thread: the clock at the loop test, the shared object (the callback may
    have written to it since the last turn), and the clock again for the
    time stamp, as [int(time.time() * 1000)]. *)
Record observation := {
  now : Q;
  agent : t;
  stamp_ms : Z
}.

(** [f"{counter}:{timestamp}:{x_string}"] *)
Definition data_message (counter timestamp : Z) (x_string : string) : string :=
  pretty counter +:+ ":" +:+ pretty timestamp +:+ ":" +:+ x_string.

(** [f"counter/{instance_id}/{qos}/{delay}/{messagesize}"] *)
Definition data_topic (instance_id qos delay messagesize : Z) : string :=
  "counter/" +:+ pretty instance_id +:+ "/" +:+ pretty qos +:+ "/"
  +:+ pretty delay +:+ "/" +:+ pretty messagesize.

(** The [while] loop: the messages published over the turns observed, and
    the value of [counter] after them. *)
Fixpoint publish_loop (topic : string) (end_time : Q) (counter : Z)
    (env : list observation) : list publication * Z :=
  match env with
  | [] => ([], counter)
  | o :: env' =>
      if Qltb (now o) end_time && running (agent o) then
        let x_string := str_mul "x" (messagesize (agent o)) in
        let message := data_message counter (stamp_ms o) x_string in
        let '(rest, final) := publish_loop topic end_time (counter + 1) env' in
        ({| pub_topic := topic; pub_payload := message;
            pub_qos := qos (agent o) |} :: rest, final)
      else ([], counter)
  end.

(** [publish_messages], started at time [start] on the object [self]; the
    [time.sleep] between two turns shows in the clock of the next
    observation only, and the closing [self.running = False] is the state
    that later observations of the object carry. *)
Definition publish_messages (self : t) (start : Q) (env : list observation)
    : list publication * Z :=
  let end_time := (start + 30)%Q in
  let topic :=
    data_topic (instance_id self) (qos self) (delay self) (messagesize self) in
  publish_loop topic end_time 0 env.

(** [on_connect]: the five control topics. *)
Definition on_connect : list call :=
  [ Subscribe "request/qos" 0; Subscribe "request/delay" 0;
    Subscribe "request/messagesize" 0; Subscribe "request/instancecount" 0;
    Subscribe "request/go" 0 ].

(** The objects of the main program: [Publisher(i)] for [i] in
    [range(1, 11)]. *)
Definition publishers : list t := init <$> seqZ 1 10.

End Publisher.

(** ** The specification's own words, for comparison with the code *)

Module Spec.

(** The gap after sequence number [k]: defined when [k] and [k + 1] are
    both recorded, as the difference of their time stamps. *)
Definition gap_after (messages : gmap Z Z) (k : Z) : option Z :=
  t0 ← messages !! k; t1 ← messages !! (k + 1); Some (t1 - t0).

(** "computed only over pairs of consecutive sequence numbers (k, k+1)
    both present in the observed map": one sample per such [k], in
    ascending order of [k]. *)
Definition gap_samples (messages : gmap Z Z) : list Z :=
  omap (gap_after messages) (sorted (Analyzer.keys messages)).

(** "100 * (totalReceivedCount - distinctSequenceCount) / totalReceivedCount" *)
Definition duplicates_percent (total_received distinct : Z) : Q :=
  (inject_Z (100 * (total_received - distinct)) / inject_Z total_received)%Q.

(** "unweighted arithmetic mean" *)
Definition arithmetic_mean (l : list Q) : Q := (Qsum l / Qlen l)%Q.
Definition arithmetic_meanR (l : list R) : R := (Rsum l / INR (length l))%R.

(** "the most recently received instancecount value": the number carried
    by the last [request/instancecount] message, the initial value when
    there was none. *)
Definition latest_instancecount (int_of_str : string → res Z) (initial : Z)
    (msgs : list message) : Z :=
  foldl (λ current msg,
           if bool_decide (topic msg = "request/instancecount") then
             match (p ← decode (payload msg); int_of_str p) with
             | Ok v => v
             | Raise _ => current
             end
           else current)
        initial msgs.

(** "a publisher with zero observed messages contributes no metric value":
    the recorded streams that do contribute, in the order of the visit. *)
Definition contributing (mr : gmap Z (gmap Z Z)) : list (gmap Z Z) :=
  filter (λ m, m ≠ ∅) (map_to_list mr).*2.

(** "sum of all publishers' actualCount" *)
Definition total_actual (mr : gmap Z (gmap Z Z)) : Z :=
  foldr Z.add 0 ((λ m, Z.of_nat (size m)) <$> (map_to_list mr).*2).

(** A data message that "parses as the colon-delimited
    sequence:timestamp:payload format" on a topic whose "publisherId
    segment is an integer": the three numbers it carries. *)
Definition parse_data_message (int_of_str : string → res Z)
    (topic text : string) : res (Z * Z * Z) :=
  instance_id ← (s ← getitem (split "/" None topic) 1; int_of_str s);
  counter ← (s ← getitem (split ":" (Some 2%nat) text) 0; int_of_str s);
  timestamp ← (s ← getitem (split ":" (Some 2%nat) text) 1; int_of_str s);
  mret (instance_id, counter, timestamp).

(** "ASCII text": every character is below 128. *)
Definition ascii_text (s : string) : Prop :=
  Forall (λ c, (N_of_ascii c < 128)%N) (list_ascii_of_string s).

End Spec.

(** ** Definitions that only the proofs use *)

Module Aux.

(** The gaps of the pairs of neighbours of a list that differ by one. *)
Fixpoint adjacent_gaps (messages : gmap Z Z) (l : list Z) : list Z :=
  match l with
  | [] => []
  | a :: tl =>
      match tl with
      | [] => []
      | b :: _ =>
          (if b =? a + 1 then [messages !!! b - messages !!! a] else [])
          ++ adjacent_gaps messages tl
      end
  end.

(** binary64: the smallest exponent of a mantissa of [e] digits in all. *)
Definition fexp (e : Z) : Z := Z.max (e - 53) (-1074).

(** The exponent that rounding a mantissa [m] at exponent [e] moves to. *)
Definition target (m e : Z) : Z := Z.max e (fexp (Zdigits2 m + e)).

(** The datum that rounding builds from a mantissa and an exponent. *)
Definition pack (s : bool) (m e : Z) : spec_float :=
  match m with
  | Z0 => S754_zero s
  | Zpos p => if e <=? B64.emax - B64.prec then S754_finite s p e else S754_infinity s
  | Zneg _ => S754_nan
  end.

(** The exponent at which [1000 / d] is first computed. *)
Definition quotient_exp (p : positive) : Z :=
  Z.max (-43 - Zdigits2 (Zpos p)) (-1074).

(** [int(30 * (1000 / d))] is the integer quotient of 30000 by [d]. *)
Definition agrees (d : Z) : bool :=
  match Analyzer.theoretical_count d with
  | Ok n => n =? 30000 / d
  | Raise _ => false
  end.

(** The same, for a divisor [c] of 30000 and for its cofactor. *)
Definition divisor_agrees (c : Z) : bool :=
  if 30000 mod c =? 0 then agrees c && agrees (30000 / c) else true.

(** The per-publisher lists after the values of [vals] were appended. *)
Definition collect (ppm : Analyzer.per_publisher_metrics)
    (vals : list Analyzer.publisher_values) : Analyzer.per_publisher_metrics :=
  foldl (λ acc v, Analyzer.append_values v acc) ppm vals.

(** Messages whose payload is text, which [decode] accepts. *)
Definition text_only (msgs : list message) : Prop :=
  Forall (λ msg, utf8_valid (byte_values (payload msg)) = true) msgs.

(** A run around which every message that arrives is text. *)
Definition all_text (env : Analyzer.run_env) : Prop :=
  text_only (Analyzer.before_reset env)
  ∧ text_only (Analyzer.during_reset env)
  ∧ text_only (Analyzer.during_setup env)
  ∧ text_only (Analyzer.during_test env)
  ∧ text_only (Analyzer.during_pause env).

(** [float(s)] on a [str] raises nothing but [ValueError]. *)
Definition raises_value_error_only (float_of_str : string → res spec_float)
    : Prop :=
  ∀ s e, float_of_str s = Raise e → e = ValueError.

(** The parameters of the runs of a sweep, in the order of its five
    loops: [sub_qos] outermost, [instancecount] innermost. *)
Definition combinations
    (delays qos_levels message_sizes instance_counts sub_qos_levels : list Z)
    : list Analyzer.test_params :=
  sub_qos ← sub_qos_levels;
  qos ← qos_levels;
  delay ← delays;
  messagesize ← message_sizes;
  instancecount ← instance_counts;
  [ {| Analyzer.qos := qos; Analyzer.delay := delay;
       Analyzer.messagesize := messagesize;
       Analyzer.instancecount := instancecount;
       Analyzer.sub_qos := sub_qos |} ].

(** The parameter columns of a record. *)
Definition params_of (r : Analyzer.result) : Analyzer.test_params :=
  {| Analyzer.qos := Analyzer.r_qos r; Analyzer.delay := Analyzer.r_delay r;
     Analyzer.messagesize := Analyzer.r_messagesize r;
     Analyzer.instancecount := Analyzer.r_instancecount r;
     Analyzer.sub_qos := Analyzer.r_sub_qos r |}.

(** The two files that [save_results] writes when [self.results] holds
    [rs]. *)
Definition files_of (rs : list Analyzer.result) (timestamp : string)
    : Analyzer.saved :=
  Analyzer.save_results (Analyzer.set_results rs Analyzer.init) timestamp.

End Aux.

(** ** Concrete runs, for the examples of the specification *)

Module Examples.

(** The analyzer as [run_test] leaves it before the first message of a
    run with the parameters of [run_for_wireshark_capture]; the window is
    32 seconds long. *)
Definition fresh : Analyzer.t :=
  {| Analyzer.current_test :=
       {| Analyzer.qos := 0; Analyzer.delay := 0; Analyzer.messagesize := 0;
          Analyzer.instancecount := 1; Analyzer.sub_qos := 0 |};
     Analyzer.messages_received := ∅;
     Analyzer.messages_expected := ∅;
     Analyzer.test_start_time := 0%Q;
     Analyzer.test_end_time := 32%Q;
     Analyzer.sys_metrics := ∅;
     Analyzer.results := [] |}.

Definition with_messages (mr : gmap Z (gmap Z Z)) : Analyzer.t :=
  Analyzer.set_messages_received mr fresh.

(** The callback on the messages of a run, in order of arrival. *)
Definition feed (int_of_str : string → res Z)
    (float_of_str : string → res spec_float)
    (self : Analyzer.t) (msgs : list message) : res Analyzer.t :=
  for_each (λ msg self, Analyzer.on_message int_of_str float_of_str self msg)
           msgs self.

Definition data (text : string) : message :=
  {| topic := "counter/1/0/0/0"; payload := text |}.

(** Publisher 1 received as [0, 1, 1, 2]. *)
Definition receipts_0112 : list message :=
  [data "0:1000:"; data "1:1100:"; data "1:1150:"; data "2:1250:"].

(** What is left of them: three entries. *)
Definition stream_012 : gmap Z Z := list_to_map [(0, 1000); (1, 1150); (2, 1250)].

(** [{0:1000, 1:1100, 2:1250}] and [{0:1000, 2:1300}] *)
Definition stream_gaps : gmap Z Z := list_to_map [(0, 1000); (1, 1100); (2, 1250)].
Definition stream_missing : gmap Z Z := list_to_map [(0, 1000); (2, 1300)].

(** Sequence numbers 0 to 9, and the same without the last. *)
Definition stream_0_to_9 : gmap Z Z :=
  list_to_map ((λ k, (k, 1000 + 10 * k)) <$> seqZ 0 10).
Definition stream_0_to_8 : gmap Z Z :=
  list_to_map ((λ k, (k, 1000 + 10 * k)) <$> seqZ 0 9).

(** Two publishers with messages and one without. *)
Definition three_publishers : Analyzer.t :=
  with_messages (list_to_map [(1, stream_gaps); (2, stream_missing); (3, ∅)]).

(** A payload that is no text: the single byte 255. *)
Definition not_text : message :=
  {| topic := "counter/1/0/0/0"; payload := String (ascii_of_nat 255) EmptyString |}.

(** A payload that is text and carries no number. *)
Definition no_number : message := data "hello".

(** The control messages of a run with five publishers, and its start. *)
Definition five_publishers : list message :=
  [ {| topic := "request/qos"; payload := "1" |};
    {| topic := "request/delay"; payload := "0" |};
    {| topic := "request/messagesize"; payload := "4" |};
    {| topic := "request/instancecount"; payload := "5" |} ].
Definition go : message := {| topic := "request/go"; payload := "1" |}.

(** Agent 3 after these messages and the start, and two turns of its loop. *)
Definition agent3 : Publisher.t :=
  {| Publisher.instance_id := 3; Publisher.qos := 1; Publisher.delay := 0;
     Publisher.messagesize := 4; Publisher.instancecount := 5;
     Publisher.running := true |}.
Definition two_turns : list Publisher.observation :=
  [ {| Publisher.now := 1%Q; Publisher.agent := agent3; Publisher.stamp_ms := 1000 |};
    {| Publisher.now := 2%Q; Publisher.agent := agent3; Publisher.stamp_ms := 1007 |} ].

(** A [float] for the examples, none of which is on a [$SYS] topic: it
    accepts the text of zero and nothing else. *)
Definition float_zero_only (s : string) : res spec_float :=
  if bool_decide (s = "0") then Ok (S754_zero false) else Raise ValueError.

(** A run of 32 seconds in which the four receipts of publisher 1 arrive
    after the start signal. *)
Definition receipts_run : Analyzer.run_env :=
  {| Analyzer.before_reset := [];
     Analyzer.during_reset := [];
     Analyzer.during_setup := [];
     Analyzer.start_clock := 0%Q;
     Analyzer.during_test := receipts_0112;
     Analyzer.end_clock := 32%Q;
     Analyzer.during_pause := [] |}.

End Examples.

(** * Proofs *)

(** ** binary64: [int(30 * (1000 / delay))] *)

Module B64Facts.
Import B64 Aux.

Lemma digits2_pos_size p : digits2_pos p = Pos.size p.
Proof. induction p; simpl; congruence. Qed.

Lemma Zdigits2_pos p :
  2 ^ (Zdigits2 (Zpos p) - 1) ≤ Zpos p < 2 ^ Zdigits2 (Zpos p).
Proof.
  simpl. rewrite digits2_pos_size.
  pose proof (Pos.size_gt p) as Hgt. pose proof (Pos.size_le p) as Hle.
  apply Pos2Z.pos_lt_pos in Hgt. apply Pos2Z.pos_le_pos in Hle.
  rewrite Pos2Z.inj_pow in Hgt, Hle.
  change (Z.pos p~0) with (2 * Z.pos p) in Hle.
  split; [|exact Hgt].
  assert (H2 : 2 ^ Z.pos (Pos.size p) = 2 * 2 ^ (Z.pos (Pos.size p) - 1)).
  { rewrite <- Z.pow_succ_r by lia. f_equal. lia. }
  lia.
Qed.

Lemma Zdigits2_nonneg m : 0 ≤ m → 0 ≤ Zdigits2 m.
Proof. destruct m; simpl; lia. Qed.

Lemma Zdigits2_lt m k : 0 ≤ m → 0 ≤ k → m < 2 ^ k → Zdigits2 m ≤ k.
Proof.
  intros Hm Hk Hlt. destruct m as [|p|p]; [simpl; lia| |lia].
  pose proof (Zdigits2_pos p) as [Hlo _].
  destruct (Z_le_gt_dec (Zdigits2 (Z.pos p)) k) as [|Hgt]; [done|].
  assert (2 ^ k ≤ 2 ^ (Zdigits2 (Z.pos p) - 1)) by (apply Z.pow_le_mono_r; lia).
  lia.
Qed.

Lemma shr_1_m mrs : 0 ≤ shr_m mrs → shr_m (shr_1 mrs) = shr_m mrs / 2.
Proof.
  destruct mrs as [m r s]. cbn [shr_m]. intros Hm.
  destruct m as [|[p|p|]|p]; cbn [shr_1 shr_m]; try lia.
  - reflexivity.
  - apply Z.div_unique with 1; lia.
  - apply Z.div_unique with 0; lia.
  - reflexivity.
Qed.

Lemma iter_pos_shr_1_m p : ∀ mrs,
  0 ≤ shr_m mrs → shr_m (SpecFloat.iter_pos shr_1 p mrs) = shr_m mrs / 2 ^ Zpos p.
Proof.
  assert (Hdiv : ∀ a b c, 0 ≤ b → 0 ≤ c → a / 2 ^ b / 2 ^ c = a / 2 ^ (b + c)).
  { intros. rewrite Z.pow_add_r by lia. rewrite Z.div_div; lia. }
  induction p as [p IH|p IH|]; intros mrs Hm; simpl.
  - assert (H1 : 0 ≤ shr_m (shr_1 mrs)).
    { rewrite shr_1_m by done. apply Z.div_pos; lia. }
    assert (H2 : 0 ≤ shr_m (SpecFloat.iter_pos shr_1 p (shr_1 mrs))).
    { rewrite IH by done. apply Z.div_pos; lia. }
    rewrite IH, IH, shr_1_m by done.
    change 2 with (2 ^ 1) at 1. rewrite !Hdiv by lia. f_equal. f_equal. lia.
  - assert (H2 : 0 ≤ shr_m (SpecFloat.iter_pos shr_1 p mrs)).
    { rewrite IH by done. apply Z.div_pos; lia. }
    rewrite IH, IH by done. rewrite Hdiv by lia. f_equal. f_equal. lia.
  - rewrite shr_1_m by done. done.
Qed.

Lemma fexp_eq e : SpecFloat.fexp prec emax e = fexp e.
Proof. reflexivity. Qed.

Lemma shr_fexp_spec m e l :
  0 ≤ m →
  ∃ mrs, shr_fexp prec emax m e l = (mrs, target m e)
         ∧ shr_m mrs = m / 2 ^ (target m e - e).
Proof.
  intros Hm. unfold shr_fexp, shr, target. rewrite fexp_eq.
  assert (Hrec : shr_m (shr_record_of_loc m l) = m) by (by destruct l as [|[]]).
  destruct (fexp (Zdigits2 m + e) - e) as [|p|p] eqn:Hn.
  - eexists. split; [f_equal; lia|]. rewrite Hrec.
    replace (Z.max e (fexp (Zdigits2 m + e)) - e) with 0 by lia.
    by rewrite Z.div_1_r.
  - eexists. split; [f_equal; lia|].
    rewrite iter_pos_shr_1_m by (rewrite Hrec; done). rewrite Hrec.
    f_equal. f_equal. lia.
  - eexists. split; [f_equal; lia|]. rewrite Hrec.
    replace (Z.max e (fexp (Zdigits2 m + e)) - e) with 0 by lia.
    by rewrite Z.div_1_r.
Qed.

Lemma round_nearest_even_bounds m l :
  m ≤ round_nearest_even m l ≤ m + 1.
Proof. destruct l as [|[]]; simpl; try lia. destruct (Z.even m); lia. Qed.

Lemma div_pow2_lt m a b :
  0 ≤ m → 0 ≤ a → 0 ≤ b → m < 2 ^ (a + b) → m / 2 ^ a < 2 ^ b.
Proof.
  intros Hm Ha Hb Hlt. apply Z.div_lt_upper_bound.
  - apply Z.pow_pos_nonneg; lia.
  - by rewrite <- Z.pow_add_r.
Qed.

(** After the first shift the mantissa fits in 53 bits. *)
Lemma shifted_mantissa_lt m e :
  0 ≤ m → m / 2 ^ (target m e - e) < 2 ^ 53.
Proof.
  intros Hm. destruct m as [|p|p]; [|clear Hm|lia].
  { rewrite Z.div_0_l; [lia|]. apply Z.pow_nonzero; unfold target; lia. }
  pose proof (Zdigits2_pos p) as [_ Hhi].
  set (d := Zdigits2 (Z.pos p)) in *.
  assert (0 < d) by (unfold d; simpl; lia).
  destruct (Z_le_gt_dec d 53) as [Hd|Hd].
  - eapply Z.le_lt_trans; [apply Z.div_le_upper_bound|].
    + apply Z.pow_pos_nonneg; unfold target; lia.
    + instantiate (1 := Z.pos p).
      assert (0 < 2 ^ (target (Z.pos p) e - e))
        by (apply Z.pow_pos_nonneg; unfold target; lia).
      nia.
    + eapply Z.lt_le_trans; [exact Hhi|]. apply Z.pow_le_mono_r; lia.
  - assert (Hn : d - 53 ≤ target (Z.pos p) e - e).
    { unfold target, fexp. fold d. lia. }
    assert (Hsplit : 2 ^ (target (Z.pos p) e - e)
                     = 2 ^ (d - 53) * 2 ^ (target (Z.pos p) e - e - (d - 53))).
    { rewrite <- Z.pow_add_r by lia. f_equal. lia. }
    rewrite Hsplit, <- Z.div_div
      by (try apply Z.pow_nonzero; try apply Z.pow_pos_nonneg; lia).
    eapply Z.le_lt_trans.
    + apply Z.div_le_upper_bound; [apply Z.pow_pos_nonneg; lia|].
      instantiate (1 := Z.pos p / 2 ^ (d - 53)).
      assert (0 < 2 ^ (target (Z.pos p) e - e - (d - 53)))
        by (apply Z.pow_pos_nonneg; lia).
      assert (0 ≤ Z.pos p / 2 ^ (d - 53))
        by (apply Z.div_pos; [lia|apply Z.pow_pos_nonneg; lia]).
      nia.
    + apply div_pow2_lt; [lia|lia|lia|].
      replace (d - 53 + 53) with d by lia. done.
Qed.

Lemma binary_round_aux_bound s mx ex lx :
  0 ≤ mx →
  ∃ m e,
    binary_round_aux prec emax s mx ex lx = pack s m e
    ∧ 0 ≤ m ∧ ex ≤ e
    ∧ m * 2 ^ (e - ex) ≤ mx + 2 ^ (target mx ex - ex)
    ∧ mx - 2 * 2 ^ (target mx ex - ex) ≤ m * 2 ^ (e - ex).
Proof.
  intros Hmx. unfold binary_round_aux.
  destruct (shr_fexp_spec mx ex lx Hmx) as (mrs1 & -> & Hm1).
  set (m2 := round_nearest_even (shr_m mrs1) (loc_of_shr_record mrs1)).
  pose proof (round_nearest_even_bounds (shr_m mrs1) (loc_of_shr_record mrs1)) as Hr.
  fold m2 in Hr.
  pose proof (shifted_mantissa_lt mx ex Hmx) as Hlt53. rewrite <- Hm1 in Hlt53.
  assert (Hm1pos : 0 ≤ shr_m mrs1).
  { rewrite Hm1. apply Z.div_pos; [lia|]. apply Z.pow_pos_nonneg; unfold target; lia. }
  assert (Hm2 : 0 ≤ m2) by lia.
  destruct (shr_fexp_spec m2 (target mx ex) loc_Exact Hm2) as (mrs2 & -> & Hm3).
  exists (shr_m mrs2), (target m2 (target mx ex)).
  split; [reflexivity|].
  set (e1 := target mx ex) in *. set (e3 := target m2 e1) in *.
  assert (He1 : ex ≤ e1) by (unfold e1, target; lia).
  assert (He3 : e1 ≤ e3) by (unfold e3, target; lia).
  assert (He3' : e3 ≤ e1 + 1).
  { assert (Zdigits2 m2 ≤ 54) by (apply Zdigits2_lt; lia).
    unfold e3, target, fexp. unfold e1, target, fexp. lia. }
  assert (Hp1 : 0 < 2 ^ (e1 - ex)) by (apply Z.pow_pos_nonneg; lia).
  assert (Hp3 : 0 < 2 ^ (e3 - e1)) by (apply Z.pow_pos_nonneg; lia).
  assert (Hp3' : 2 ^ (e3 - e1) ≤ 2).
  { change 2 with (2 ^ 1) at 2. apply Z.pow_le_mono_r; lia. }
  split; [rewrite Hm3; apply Z.div_pos; lia|].
  split; [lia|].
  replace (e3 - ex) with ((e3 - e1) + (e1 - ex)) by lia.
  rewrite Z.pow_add_r by lia.
  pose proof (Z.div_mod m2 (2 ^ (e3 - e1))) as Hdm3.
  pose proof (Z.mod_pos_bound m2 (2 ^ (e3 - e1)) Hp3) as Hmod3.
  pose proof (Z.div_mod mx (2 ^ (e1 - ex))) as Hdm1.
  pose proof (Z.mod_pos_bound mx (2 ^ (e1 - ex)) Hp1) as Hmod1.
  rewrite <- Hm3 in Hdm3. rewrite <- Hm1 in Hdm1.
  split; nia.
Qed.

Lemma quotient_exp_bounds p :
  -1074 ≤ quotient_exp p ≤ -44 ∧ - quotient_exp p ≤ 43 + Zdigits2 (Zpos p).
Proof.
  unfold quotient_exp. pose proof (Zdigits2_pos p) as [_ H].
  assert (0 < Zdigits2 (Zpos p)) by (simpl; lia). lia.
Qed.

Lemma div_core_1000 p :
  ∃ q l,
    SFdiv_core_binary prec emax 1000 0 (Zpos p) 0 = (q, quotient_exp p, l)
    ∧ 0 ≤ q
    ∧ q * Zpos p ≤ 1000 * 2 ^ (- quotient_exp p) < (q + 1) * Zpos p
    ∧ q ≤ 1000 * 2 ^ 44.
Proof.
  pose proof (quotient_exp_bounds p) as [He Hd].
  pose proof (Zdigits2_pos p) as [Hlo Hhi].
  unfold SFdiv_core_binary.
  change (Zdigits2 1000) with 10.
  replace (Z.min (SpecFloat.fexp prec emax (10 + 0 - (Zdigits2 (Z.pos p) + 0))) (0 - 0))
    with (quotient_exp p).
  2:{ rewrite fexp_eq. unfold fexp, quotient_exp. lia. }
  replace (0 - 0 - quotient_exp p) with (- quotient_exp p) by lia.
  destruct (- quotient_exp p) as [|a|a] eqn:Ha; [lia| |lia].
  rewrite Z.shiftl_mul_pow2 by lia.
  pose proof (Z_div_mod (1000 * 2 ^ Z.pos a) (Z.pos p) eq_refl) as Hdm.
  destruct (Z.div_eucl (1000 * 2 ^ Z.pos a) (Z.pos p)) as [q r].
  destruct Hdm as [Heq Hr].
  assert (Hpow : 0 < 2 ^ Z.pos a) by (apply Z.pow_pos_nonneg; lia).
  assert (Hq : 0 ≤ q) by nia.
  exists q, (new_location (Z.pos p) r). split; [reflexivity|].
  split; [done|]. split; [nia|].
  (* q * 2^(d2-1) <= q * p <= 1000 * 2^a <= 1000 * 2^44 * 2^(d2-1) *)
  set (d2 := Zdigits2 (Z.pos p)) in *.
  assert (0 < d2) by (unfold d2; simpl; lia).
  assert (Hle : 2 ^ Z.pos a ≤ 2 ^ (44 + (d2 - 1))).
  { apply Z.pow_le_mono_r; lia. }
  rewrite Z.pow_add_r in Hle by lia.
  assert (0 < 2 ^ (d2 - 1)) by (apply Z.pow_pos_nonneg; lia).
  assert (q * 2 ^ (d2 - 1) ≤ 1000 * 2 ^ 44 * 2 ^ (d2 - 1)) by nia.
  nia.
Qed.

Lemma target_shift_small q e :
  0 ≤ q → q ≤ 1000 * 2 ^ 44 → -1074 ≤ e → 2 ^ (target q e - e) ≤ 2.
Proof.
  intros Hq Hle He.
  assert (Hd : Zdigits2 q ≤ 54).
  { apply Zdigits2_lt; [done|lia|]. lia. }
  change 2 with (2 ^ 1) at 2. apply Z.pow_le_mono_r; [lia|].
  unfold target, fexp. lia.
Qed.

(** [1000 / d] for a divisor of mantissa [p]: a datum of mantissa [m] and
    exponent [e] within a few units of [quotient_exp p] of the quotient. *)
Lemma div_1000 s p :
  ∃ q m e,
    SFdiv prec emax (raw 1000) (S754_finite s p 0) = pack s m e
    ∧ 0 ≤ q
    ∧ q * Zpos p ≤ 1000 * 2 ^ (- quotient_exp p) < (q + 1) * Zpos p
    ∧ 0 ≤ m ∧ quotient_exp p ≤ e
    ∧ q - 4 ≤ m * 2 ^ (e - quotient_exp p) ≤ q + 2
    ∧ q ≤ 1000 * 2 ^ 44.
Proof.
  destruct (div_core_1000 p) as (q & l & Hcore & Hq & Hqp & Hq54).
  pose proof (quotient_exp_bounds p) as [He _].
  destruct (binary_round_aux_bound s q (quotient_exp p) l Hq)
    as (m & e & Hround & Hm & Hee & Hbound & Hlow).
  exists q, m, e. cbn [raw SFdiv]. rewrite Hcore.
  change (xorb false s) with s. rewrite Hround.
  pose proof (target_shift_small q (quotient_exp p) Hq Hq54).
  repeat split; try done; lia.
Qed.

Lemma pow2_lt_exp a b : 0 ≤ a → 2 ^ a < 2 ^ b → a < b.
Proof.
  intros Ha Hlt. destruct (Z_lt_le_dec b 0) as [Hb|Hb].
  - rewrite (Z.pow_neg_r 2 b Hb) in Hlt.
    assert (0 < 2 ^ a) by (apply Z.pow_pos_nonneg; lia). lia.
  - apply (Z.pow_lt_mono_r_iff 2); [lia|done|done].
Qed.

(** The quotient is finite. *)
Lemma div_1000_exp p q m e :
  0 < m → quotient_exp p ≤ e →
  m * 2 ^ (e - quotient_exp p) ≤ q + 2 → q ≤ 1000 * 2 ^ 44 →
  e < 11.
Proof.
  intros Hm Hee Hb Hq. pose proof (quotient_exp_bounds p) as [He _].
  assert (Hp : 0 < 2 ^ (e - quotient_exp p)) by (apply Z.pow_pos_nonneg; lia).
  assert (Hle : 2 ^ (e - quotient_exp p) ≤ m * 2 ^ (e - quotient_exp p)) by nia.
  assert (Hlt : 2 ^ (e - quotient_exp p) < 2 ^ 55).
  { eapply Z.le_lt_trans; [exact Hle|]. eapply Z.le_lt_trans; [exact Hb|].
    eapply Z.le_lt_trans; [apply Z.add_le_mono_r, Hq|]. reflexivity. }
  apply pow2_lt_exp in Hlt; lia.
Qed.


Lemma of_int_30 : of_int 30 = S754_finite false 8444249301319680 (-48).
Proof. reflexivity. Qed.

(** [30 * f] for a finite [f]. *)
Lemma mul_30 s pm e :
  let M := 8444249301319680 * Zpos pm in
  let N := target M (e - 48) - (e - 48) in
  ∃ m5 e5,
    mul (of_int 30) (S754_finite s pm e) = pack s m5 e5
    ∧ 0 ≤ m5 ∧ e - 48 ≤ e5
    ∧ M - 2 * 2 ^ N ≤ m5 * 2 ^ (e5 - (e - 48)) ≤ M + 2 ^ N.
Proof.
  intros M N. rewrite of_int_30. unfold mul. cbn [SFmul xorb].
  destruct (binary_round_aux_bound s (Z.pos (8444249301319680 * pm)) (-48 + e)
              loc_Exact) as (m5 & e5 & Hr & Hm & He & Hb & Hl); [lia|].
  exists m5, e5. rewrite Hr.
  replace (-48 + e) with (e - 48) in * by lia.
  rewrite Pos2Z.inj_mul in Hb, Hl. done.
Qed.

Lemma to_int_pack s m e :
  0 ≤ m → (0 < m → e ≤ 971) → ∃ n, to_int (pack s m e) = Ok n.
Proof.
  intros Hm He. destruct m as [|p|p]; [by eexists| |lia].
  unfold pack. change (emax - prec) with 971.
  destruct (Z.leb_spec e 971); [by eexists|lia].
Qed.

Lemma to_int_pack_zero m e :
  0 ≤ m → (0 < m → e < 0 ∧ m < 2 ^ (- e)) → to_int (pack false m e) = Ok 0.
Proof.
  intros Hm He. destruct m as [|p|p]; [done| |lia].
  destruct He as [He Hlt]; [lia|].
  unfold pack. change (emax - prec) with 971.
  destruct (Z.leb_spec e 971); [|lia].
  unfold to_int. destruct (Z.leb_spec 0 e); [lia|].
  f_equal. apply Z.div_small. lia.
Qed.

(** The shift that rounding a product of mantissa [M] takes is one of three. *)
Lemma target_cases M E :
  let N := target M E - E in
  N = 0 ∨ (N = Zdigits2 M - 53 ∧ 0 < N) ∨ (N = -1074 - E ∧ 0 < N).
Proof. unfold target, fexp. lia. Qed.


Lemma pow2_pos a : 0 < 2 ^ a ↔ 0 ≤ a.
Proof.
  split.
  - intros H. destruct (Z_lt_le_dec a 0) as [Ha|]; [|done].
    rewrite Z.pow_neg_r in H; lia.
  - intros. apply Z.pow_pos_nonneg; lia.
Qed.

(** The quotient stage of [int(30 * (1000 / d))]. *)
Lemma int_truediv_1000 d s p :
  raw d = S754_finite s p 0 →
  ∃ q m e,
    int_truediv 1000 d = Ok (pack s m e)
    ∧ 0 ≤ q
    ∧ q * Zpos p ≤ 1000 * 2 ^ (- quotient_exp p) < (q + 1) * Zpos p
    ∧ 0 ≤ m ∧ quotient_exp p ≤ e ∧ e < 11
    ∧ q - 4 ≤ m * 2 ^ (e - quotient_exp p) ≤ q + 2
    ∧ q ≤ 1000 * 2 ^ 44.
Proof.
  intros Hraw.
  destruct (div_1000 s p) as (q & m & e & Hdiv & Hq & Hqp & Hm & Hee & Hmq & Hq54).
  unfold int_truediv. rewrite Hraw, Hdiv.
  assert (d ≠ 0) by (intros ->; discriminate).
  destruct (Z.eqb_spec d 0); [done|].
  destruct m as [|pm|pm]; [| |lia].
  - exists q, 0, (Z.min e 10). split; [done|].
    rewrite Z.mul_0_l in *. pose proof (quotient_exp_bounds p). lia.
  - assert (He11 : e < 11) by (eapply (div_1000_exp p q (Z.pos pm)); lia).
    exists q, (Z.pos pm), e. split; [|by repeat split; try lia].
    unfold pack. change (emax - prec) with 971.
    destruct (Z.leb_spec e 971); [done|lia].
Qed.

(** The product stage, for a quotient that is not zero. *)
Lemma product_stage s p q pm e :
  quotient_exp p ≤ e → e < 11 →
  Zpos pm * 2 ^ (e - quotient_exp p) ≤ q + 2 → q ≤ 1000 * 2 ^ 44 →
  let M := 8444249301319680 * Zpos pm in
  let N := target M (e - 48) - (e - 48) in
  ∃ m5 e5,
    mul (of_int 30) (S754_finite s pm e) = pack s m5 e5
    ∧ 0 ≤ m5 ∧ (0 < m5 → e5 ≤ 971) ∧ e - 48 ≤ e5
    ∧ M - 2 * 2 ^ N ≤ m5 * 2 ^ (e5 - (e - 48)) ≤ M + 2 ^ N.
Proof.
  intros Hee He11 Hmq Hq54 M N.
  destruct (mul_30 s pm e) as (m5 & e5 & Hmul & Hm5 & He5 & Hb).
  fold M N in Hb. exists m5, e5.
  split; [done|]. split; [done|]. split; [|done].
  intros Hpos.
  pose proof (quotient_exp_bounds p) as [He' _].
  assert (Hk : 0 < 2 ^ (e - quotient_exp p)) by (apply pow2_pos; lia).
  assert (Hpm : Zpos pm ≤ 1000 * 2 ^ 44 + 2) by nia.
  assert (HM : 0 < M < 2 ^ 108) by (unfold M; lia).
  assert (HdM : Zdigits2 M ≤ 108) by (apply Zdigits2_lt; lia).
  assert (HN : N ≤ 55).
  { destruct (target_cases M (e - 48)) as [HN|[[HN _]|[HN _]]]; fold N in HN; lia. }
  assert (HN0 : 0 ≤ N) by (unfold N, target; lia).
  assert (H2N : 2 ^ N ≤ 2 ^ 55) by (apply Z.pow_le_mono_r; lia).
  assert (Hj : 0 < 2 ^ (e5 - (e - 48))) by (apply pow2_pos; lia).
  assert (Hlt : 2 ^ (e5 - (e - 48)) < 2 ^ 109).
  { eapply Z.le_lt_trans; [|eapply Z.le_lt_trans; [apply Hb|]]; [nia|lia]. }
  apply pow2_lt_exp in Hlt; lia.
Qed.

(** A datum that lies between [Q0] and [Q0 + 1] converts to [Q0]. *)
Lemma to_int_between m5 e5 t Q0 :
  0 ≤ m5 → (0 < m5 → e5 ≤ 971) → 0 ≤ t → 0 ≤ e5 + t → 0 ≤ Q0 →
  Q0 * 2 ^ t ≤ m5 * 2 ^ (e5 + t) < (Q0 + 1) * 2 ^ t →
  to_int (pack false m5 e5) = Ok Q0.
Proof.
  intros Hm5 Hfin Ht Het HQ0 Hb.
  assert (HT : 0 < 2 ^ t) by (apply pow2_pos; lia).
  destruct m5 as [|p5|p5]; [| |lia].
  - simpl. f_equal. nia.
  - unfold pack. change (emax - prec) with 971.
    destruct (Z.leb_spec e5 971); [|lia].
    unfold to_int. f_equal. destruct (Z.leb_spec 0 e5).
    + rewrite Z.pow_add_r in Hb by lia.
      assert (0 < 2 ^ e5) by (apply pow2_pos; lia). nia.
    + assert (Hs : 2 ^ t = 2 ^ (- e5) * 2 ^ (e5 + t)).
      { rewrite <- Z.pow_add_r by lia. f_equal. lia. }
      assert (0 < 2 ^ (- e5)) by (apply pow2_pos; lia).
      assert (0 < 2 ^ (e5 + t)) by (apply pow2_pos; lia).
      rewrite Hs in Hb.
      symmetry. apply Z.div_unique with (Z.pos p5 - Q0 * 2 ^ (- e5)); nia.
Qed.


Lemma pack_finite s pm e : e < 11 → pack s (Z.pos pm) e = S754_finite s pm e.
Proof.
  intros He. unfold pack. change (emax - prec) with 971.
  destruct (Z.leb_spec e 971); [done|lia].
Qed.

Lemma theoretical_count_total d :
  d ≠ 0 → ∃ n, Analyzer.theoretical_count d = Ok n.
Proof.
  intros Hd.
  assert (Hraw : ∃ s p, raw d = S754_finite s p 0).
  { destruct d as [|p|p]; [done|by exists false, p|by exists true, p]. }
  destruct Hraw as (s & p & Hraw).
  destruct (int_truediv_1000 d s p Hraw)
    as (q & m & e & Hdiv & Hq & Hqp & Hm & Hee & He11 & Hmq & Hq54).
  unfold Analyzer.theoretical_count. rewrite Hdiv.
  change (Ok ?a ≫= ?f) with (f a).
  destruct m as [|pm|pm]; [by eexists| |lia].
  rewrite pack_finite by done.
  destruct (product_stage s p q pm e) as (m5 & e5 & -> & Hm5 & Hfin & _);
    [lia..|].
  by apply to_int_pack.
Qed.

Lemma Zdigits2_ge p k : 0 ≤ k → 2 ^ k ≤ Zpos p → k < Zdigits2 (Zpos p).
Proof.
  intros Hk Hle. pose proof (Zdigits2_pos p) as [_ Hhi].
  apply pow2_lt_exp; lia.
Qed.

(** Beyond 40000 the product stays below one. *)
Lemma theoretical_count_large d :
  40000 < d → Analyzer.theoretical_count d = Ok 0.
Proof.
  intros Hd. destruct d as [|p|p]; try lia.
  destruct (int_truediv_1000 (Z.pos p) false p eq_refl)
    as (q & m & e & Hdiv & Hq & Hqp & Hm & Hee & He11 & Hmq & Hq54).
  unfold Analyzer.theoretical_count. rewrite Hdiv.
  change (Ok ?a ≫= ?f) with (f a).
  destruct m as [|pm|pm]; [done| |lia].
  rewrite pack_finite by done.
  destruct (product_stage false p q pm e) as (m5 & e5 & -> & Hm5 & Hfin & He5 & Hb);
    [lia..|].
  cbv zeta in Hb.
  set (M := 8444249301319680 * Z.pos pm) in *.
  set (N := target M (e - 48) - (e - 48)) in *.
  pose proof (quotient_exp_bounds p) as [He' _].
  assert (Hd2 : 15 < Zdigits2 (Z.pos p)) by (apply Zdigits2_ge; lia).
  assert (He'' : quotient_exp p ≤ -59) by (unfold quotient_exp; lia).
  set (a := - quotient_exp p) in *.
  set (k := e - quotient_exp p) in *.
  assert (HA : 2 ^ 59 ≤ 2 ^ a) by (apply Z.pow_le_mono_r; lia).
  assert (HK : 0 < 2 ^ k) by (apply pow2_pos; lia).
  assert (Hq40 : 40 * q ≤ 2 ^ a) by nia.
  assert (HMK : M * 2 ^ k ≤ 8444249301319680 * (q + 2)) by (unfold M; nia).
  assert (HN0 : 0 ≤ N) by (unfold N, target; lia).
  assert (HNK : 2 ^ N * 2 ^ k ≤ 2 * (q + 2) + 2 ^ 48).
  { pose proof (target_cases M (e - 48)) as Hcases. cbv zeta in Hcases.
    fold N in Hcases. destruct Hcases as [HN|[[HN HNpos]|[HN HNpos]]].
    - rewrite HN. nia.
    - assert (HM : 0 < M) by (unfold M; lia).
      destruct M as [|pM|pM] eqn:HMeq; try lia.
      pose proof (Zdigits2_pos pM) as [Hlo _].
      assert (Hsplit : 2 ^ (Zdigits2 (Z.pos pM) - 1) = 2 ^ N * 2 ^ 52).
      { rewrite <- Z.pow_add_r by lia. f_equal. lia. }
      rewrite Hsplit in Hlo.
      assert (0 < 2 ^ N) by (apply pow2_pos; lia). nia.
    - rewrite <- Z.pow_add_r by lia.
      assert (2 ^ (N + k) ≤ 2 ^ 48); [|lia].
      apply Z.pow_le_mono_r; [lia|]. unfold k. lia. }
  apply (to_int_between m5 e5 (48 + a) 0); [done|done|lia|lia|lia|].
  split; [apply Z.mul_nonneg_nonneg; [lia|apply Z.pow_nonneg; lia]|].
  assert (Hjk : 2 ^ (e5 + (48 + a)) = 2 ^ (e5 - (e - 48)) * 2 ^ k).
  { rewrite <- Z.pow_add_r by lia. f_equal. unfold k, a. lia. }
  rewrite Hjk, Z.pow_add_r by lia.
  assert (HW : m5 * 2 ^ (e5 - (e - 48)) * 2 ^ k ≤ (M + 2 ^ N) * 2 ^ k).
  { apply Z.mul_le_mono_nonneg_r; lia. }
  lia.
Qed.




Lemma le_mul_l a b : 0 ≤ b → 1 ≤ a → b ≤ a * b.
Proof. nia. Qed.

(** Below 65536, a delay that does not divide 30000 leaves the product
    well inside the unit interval above the integer quotient. *)
Lemma theoretical_count_mid d :
  0 < d < 65536 → 30000 mod d ≠ 0 →
  Analyzer.theoretical_count d = Ok (30000 / d).
Proof.
  intros Hd Hmod. destruct d as [|p|p]; try lia.
  destruct (int_truediv_1000 (Z.pos p) false p eq_refl)
    as (q & m & e & Hdiv & Hq & Hqp & Hm & Hee & He11 & Hmq & Hq54).
  unfold Analyzer.theoretical_count. rewrite Hdiv.
  change (Ok ?a ≫= ?f) with (f a).
  pose proof (Zdigits2_pos p) as [Hlo Hhi].
  assert (Hd2 : 0 < Zdigits2 (Z.pos p) ≤ 16).
  { split; [simpl; lia|]. apply Zdigits2_lt; lia. }
  assert (He' : quotient_exp p = -43 - Zdigits2 (Z.pos p))
    by (unfold quotient_exp; lia).
  set (d2 := Zdigits2 (Z.pos p)) in *.
  set (a := - quotient_exp p) in *.
  set (k := e - quotient_exp p) in *.
  assert (HA : 2 ^ a = 2 ^ 44 * 2 ^ (d2 - 1)).
  { rewrite <- Z.pow_add_r by lia. f_equal. unfold a. lia. }
  assert (HD : 2 ^ d2 = 2 * 2 ^ (d2 - 1)).
  { rewrite <- Z.pow_succ_r by lia. f_equal. lia. }
  assert (HK : 0 < 2 ^ k) by (apply pow2_pos; unfold k; lia).
  assert (HD0 : 0 < 2 ^ (d2 - 1)) by (apply pow2_pos; lia).
  rewrite HA in Hqp. rewrite HD in Hhi.
  set (D := 2 ^ (d2 - 1)) in *.
  set (K := 2 ^ k) in *.
  assert (Hqbig : 2 ^ 44 ≤ q).
  { destruct Hqp as [_ Hqp].
    assert (H1 : (q + 1) * Z.pos p ≤ (q + 1) * (2 * D))
      by (apply Z.mul_le_mono_nonneg_l; lia).
    assert (H2 : (500 * 2 ^ 44) * (2 * D) < (q + 1) * (2 * D)) by lia.
    apply Z.mul_lt_mono_pos_r in H2; lia. }
  destruct m as [|pm|pm]; [lia| |lia].
  rewrite pack_finite by done.
  destruct (product_stage false p q pm e) as (m5 & e5 & -> & Hm5 & Hfin & He5 & Hb);
    [fold k; fold K; lia..|].
  cbv zeta in Hb.
  set (M := 8444249301319680 * Z.pos pm) in *.
  set (N := target M (e - 48) - (e - 48)) in *.
  assert (HMK : 8444249301319680 * (q - 4) ≤ M * K ≤ 8444249301319680 * (q + 2)).
  { unfold M. rewrite <- Z.mul_assoc.
    split; apply Z.mul_le_mono_nonneg_l; lia. }
  assert (HN0 : 0 ≤ N) by (unfold N, target; lia).
  assert (HNK : 2 ^ N * K ≤ 2 * (q + 2)).
  { pose proof (target_cases M (e - 48)) as Hcases. cbv zeta in Hcases.
    fold N in Hcases. destruct Hcases as [HN|[[HN HNpos]|[HN HNpos]]].
    - rewrite HN. change (2 ^ 0) with 1.
      assert (K ≤ Z.pos pm * K) by (apply le_mul_l; lia). lia.
    - assert (HM : 0 < M) by (unfold M; lia).
      destruct M as [|pM|pM] eqn:HMeq; try lia.
      pose proof (Zdigits2_pos pM) as [HloM _].
      assert (Hsplit : 2 ^ (Zdigits2 (Z.pos pM) - 1) = 2 ^ N * 2 ^ 52).
      { rewrite <- Z.pow_add_r by lia. f_equal. lia. }
      rewrite Hsplit in HloM.
      assert (H1 : 2 ^ N * 2 ^ 52 * K ≤ Z.pos pM * K)
        by (apply Z.mul_le_mono_nonneg_r; lia).
      replace (2 ^ N * 2 ^ 52 * K) with (2 ^ 52 * (2 ^ N * K)) in H1 by ring.
      lia.
    - unfold k in *. lia. }
  pose proof (Z.div_mod 30000 (Z.pos p)) as Hdm.
  pose proof (Z.mod_pos_bound 30000 (Z.pos p)) as Hr.
  set (Q0 := 30000 / Z.pos p) in *. set (r := 30000 mod Z.pos p) in *.
  assert (HQ0 : 0 ≤ Q0) by (apply Z.div_pos; lia).
  apply (to_int_between m5 e5 (48 + a) Q0); [done|done|unfold a; lia|unfold a; lia|done|].
  assert (Hjk : 2 ^ (e5 + (48 + a)) = 2 ^ (e5 - (e - 48)) * K).
  { unfold K. rewrite <- Z.pow_add_r by (unfold k; lia). f_equal. unfold k, a. lia. }
  rewrite Hjk, Z.pow_add_r by (unfold a; lia). rewrite HA. fold D.
  set (J := 2 ^ (e5 - (e - 48))) in *.
  set (W := m5 * (J * K)).
  assert (HWhi : W ≤ 8444249301319680 * (q + 2) + 2 * (q + 2)).
  { assert (H1 : m5 * J * K ≤ (M + 2 ^ N) * K)
      by (apply Z.mul_le_mono_nonneg_r; lia).
    replace ((M + 2 ^ N) * K) with (M * K + 2 ^ N * K) in H1 by ring.
    unfold W. rewrite Z.mul_assoc. lia. }
  assert (HWlo : 8444249301319680 * (q - 4) - 4 * (q + 2) ≤ W).
  { assert (H1 : (M - 2 * 2 ^ N) * K ≤ m5 * J * K)
      by (apply Z.mul_le_mono_nonneg_r; lia).
    replace ((M - 2 * 2 ^ N) * K) with (M * K - 2 * (2 ^ N * K)) in H1 by ring.
    unfold W. rewrite Z.mul_assoc. lia. }
  clearbody W. clear Hb Hjk HMK HNK Hdiv Hmq.
  set (X := q * Z.pos p) in *.
  assert (HWp_hi : W * Z.pos p
                   ≤ 8444249301319680 * X + 2 * 8444249301319680 * Z.pos p
                     + 2 * X + 4 * Z.pos p).
  { apply (Z.mul_le_mono_nonneg_r _ _ (Z.pos p)) in HWhi; [|lia].
    unfold X. etransitivity; [exact HWhi|]. apply Z.eq_le_incl. ring. }
  assert (HWp_lo : 8444249301319680 * X - 4 * 8444249301319680 * Z.pos p
                     - 4 * X - 8 * Z.pos p ≤ W * Z.pos p).
  { apply (Z.mul_le_mono_nonneg_r _ _ (Z.pos p)) in HWlo; [|lia].
    unfold X. etransitivity; [|exact HWlo]. apply Z.eq_le_incl. ring. }
  assert (Hr1 : 1 ≤ r ≤ Z.pos p - 1) by (unfold r in *; lia).
  set (S := 2 ^ 48 * (2 ^ 44 * D)) in *.
  assert (HS : S = 4951760157141521099596496896 * D) by (unfold S; lia).
  assert (HrS : S ≤ r * S) by (apply le_mul_l; lia).
  assert (HprS : S ≤ (Z.pos p - r) * S) by (apply le_mul_l; lia).
  assert (HQp : Q0 * Z.pos p = 30000 - r) by lia.
  assert (HXlo : 1000 * (2 ^ 44 * D) - Z.pos p < X) by (unfold X; lia).
  assert (HXhi : X ≤ 1000 * (2 ^ 44 * D)) by (unfold X; lia).
  clearbody X S.
  split.
  - apply (Z.mul_le_mono_pos_r _ _ (Z.pos p)); [lia|].
    replace (Q0 * S * Z.pos p) with ((Q0 * Z.pos p) * S) by ring.
    rewrite HQp.
    replace ((30000 - r) * S) with (30000 * S - r * S) by ring.
    lia.
  - apply (Z.mul_lt_mono_pos_r (Z.pos p)); [lia|].
    replace ((Q0 + 1) * S * Z.pos p) with ((Q0 * Z.pos p) * S + Z.pos p * S) by ring.
    rewrite HQp.
    replace ((30000 - r) * S + Z.pos p * S) with (30000 * S + (Z.pos p - r) * S) by ring.
    lia.
Qed.

(** The 50 divisors of 30000, each with its cofactor, by evaluation. *)
Lemma divisors_agree : forallb divisor_agrees (seqZ 1 173) = true.
Proof. vm_compute. reflexivity. Qed.

Lemma agrees_spec d :
  agrees d = true → Analyzer.theoretical_count d = Ok (30000 / d).
Proof.
  unfold agrees. destruct (Analyzer.theoretical_count d) as [n|]; [|done].
  intros Hn. apply Z.eqb_eq in Hn. by rewrite Hn.
Qed.

Lemma divisor_agrees_spec c :
  1 ≤ c ≤ 173 → 30000 mod c = 0 → agrees c = true ∧ agrees (30000 / c) = true.
Proof.
  intros Hc Hmod. pose proof divisors_agree as Hall.
  rewrite forallb_forall in Hall.
  assert (Hin : In c (seqZ 1 173)) by (apply list_elem_of_In, elem_of_seqZ; lia).
  specialize (Hall c Hin).
  unfold divisor_agrees in Hall. rewrite Hmod in Hall.
  change (0 =? 0) with true in Hall. cbv iota in Hall.
  by apply andb_true_iff.
Qed.

Lemma theoretical_count_divisor d :
  0 < d → 30000 mod d = 0 → Analyzer.theoretical_count d = Ok (30000 / d).
Proof.
  intros Hd Hmod. apply agrees_spec.
  destruct (Z_le_gt_dec d 173) as [Hle|Hgt].
  - apply divisor_agrees_spec; [lia|done].
  - pose proof (Z.div_mod 30000 d) as Hdm. rewrite Hmod in Hdm.
    set (c := 30000 / d) in *.
    assert (Hc : 1 ≤ c ≤ 173) by nia.
    assert (Hcmod : 30000 mod c = 0).
    { apply Z.mod_divide; [lia|]. exists d. lia. }
    assert (Hcd : 30000 / c = d).
    { symmetry. apply Z.div_unique_exact; lia. }
    rewrite <- Hcd. by apply divisor_agrees_spec.
Qed.

(** For every positive delay the conversion through binary64 gives the
    integer quotient of 30000 by the delay. *)
Lemma theoretical_count_floor d :
  0 < d → Analyzer.theoretical_count d = Ok (30000 / d).
Proof.
  intros Hd. destruct (Z.eq_dec (30000 mod d) 0) as [Hmod|Hmod].
  - by apply theoretical_count_divisor.
  - destruct (Z_lt_le_dec d 65536).
    + by apply theoretical_count_mid.
    + rewrite Z.div_small by lia. apply theoretical_count_large. lia.
Qed.

End B64Facts.

(** ** The analyzer: sorted keys, the scans and the gap samples *)

Module AnalyzerFacts.
Import Aux.

Lemma sorted_Permutation l : sorted l ≡ₚ l.
Proof. apply merge_sort_Permutation. Qed.

Lemma sorted_StronglySorted l : StronglySorted Z.le (sorted l).
Proof. apply (StronglySorted_merge_sort _). Qed.

Lemma keys_NoDup m : NoDup (Analyzer.keys m).
Proof. apply NoDup_fst_map_to_list. Qed.

Lemma sorted_keys_NoDup m : NoDup (sorted (Analyzer.keys m)).
Proof. rewrite sorted_Permutation. apply keys_NoDup. Qed.

Lemma elem_of_sorted_keys m k : k ∈ sorted (Analyzer.keys m) ↔ is_Some (m !! k).
Proof.
  rewrite sorted_Permutation. unfold Analyzer.keys.
  rewrite list_elem_of_fmap. split.
  - intros [[k' v] [-> Hin]]. apply elem_of_map_to_list in Hin. eauto.
  - intros [v Hv]. exists (k, v). split; [done|]. by apply elem_of_map_to_list.
Qed.

(* strictly increasing *)
Lemma StronglySorted_le_NoDup_lt (l : list Z) :
  StronglySorted Z.le l → NoDup l → StronglySorted Z.lt l.
Proof.
  induction 1 as [|x l Hs IH Hx]; intros Hnd; [constructor|].
  apply NoDup_cons in Hnd as [Hnotin Hnd].
  constructor; [by apply IH|].
  rewrite Forall_forall in Hx |- *. intros y Hy.
  specialize (Hx y Hy). assert (x ≠ y) by (intros ->; done). lia.
Qed.

Lemma sorted_keys_increasing m : StronglySorted Z.lt (sorted (Analyzer.keys m)).
Proof.
  apply StronglySorted_le_NoDup_lt;
    [apply sorted_StronglySorted | apply sorted_keys_NoDup].
Qed.

(** out of order *)
Lemma out_of_order_fold (l : list Z) (count : Z) (prev : option Z) :
  StronglySorted Z.le l →
  (∀ p, prev = Some p → Forall (Z.le p) l) →
  (foldl (λ '(count, prev_counter) counter,
                ((match prev_counter with
                  | Some p => if counter <? p then count + 1 else count
                  | None => count
                  end), Some counter))
             (count, prev) l).1 = count.
Proof.
  intros Hs. revert count prev.
  induction Hs as [|x l Hs IH Hx]; intros count prev Hprev; [done|].
  simpl. rewrite IH.
  - destruct prev as [p|]; [|done].
    specialize (Hprev p eq_refl). apply Forall_cons in Hprev as [Hpx _].
    destruct (Z.ltb_spec x p); [lia|done].
  - intros p [= <-]. done.
Qed.

Lemma out_of_order_count_sorted l :
  Analyzer.out_of_order_count (sorted l) = 0.
Proof.
  unfold Analyzer.out_of_order_count. apply out_of_order_fold.
  - apply sorted_StronglySorted.
  - intros p [=].
Qed.

Lemma duplicate_count_keys m :
  Analyzer.duplicate_count (sorted (Analyzer.keys m)) = 0.
Proof.
  unfold Analyzer.duplicate_count.
  rewrite size_list_to_set by apply sorted_keys_NoDup. lia.
Qed.

Lemma dict_getitem_Some (m : gmap Z Z) k :
  is_Some (m !! k) → dict_getitem m k = Ok (m !!! k).
Proof.
  intros [v Hv]. unfold dict_getitem. rewrite Hv.
  by rewrite (lookup_total_correct _ _ _ Hv).
Qed.

Lemma gap_step_eq (m : gmap Z Z) (l : list Z) (i : nat) (acc : list Z) cur prev :
  l !! i = Some cur → l !! (i - 1)%nat = Some prev →
  is_Some (m !! cur) → is_Some (m !! prev) →
  Analyzer.gap_step m l i acc
  = Ok (acc ++ if cur =? prev + 1 then [m !!! cur - m !!! prev] else []).
Proof.
  intros Hcur Hprev Hc Hp. unfold Analyzer.gap_step, getitem.
  rewrite Hcur, Hprev. simpl.
  destruct (cur =? prev + 1).
  - by rewrite !dict_getitem_Some.
  - by rewrite app_nil_r.
Qed.

Lemma gaps_loop_adjacent (m : gmap Z Z) (l : list Z) (n i : nat) (acc : list Z) :
  (∀ k, k ∈ l → is_Some (m !! k)) →
  (1 ≤ i)%nat → (i + n)%nat = length l →
  for_each (Analyzer.gap_step m l) (seq i n) acc
  = Ok (acc ++ adjacent_gaps m (drop (i - 1) l)).
Proof.
  intros Hdom. revert i acc. induction n as [|n IH]; intros i acc Hi Hlen.
  - simpl. destruct (drop (i - 1) l) as [|a [|b tl]] eqn:Hd.
    + by rewrite app_nil_r.
    + by rewrite app_nil_r.
    + apply (f_equal length) in Hd. rewrite length_drop in Hd. simpl in Hd. lia.
  - destruct (lookup_lt_is_Some_2 l i) as [cur Hcur]; [lia|].
    destruct (lookup_lt_is_Some_2 l (i - 1)) as [prev Hprev]; [lia|].
    change (seq i (S n)) with (i :: seq (S i) n).
    change (for_each ?f (?x :: ?t) ?s) with (f x s ≫= for_each f t).
    rewrite (gap_step_eq m l i acc cur prev Hcur Hprev).
    2:{ apply Hdom. by eapply list_elem_of_lookup_2. }
    2:{ apply Hdom. by eapply list_elem_of_lookup_2. }
    change (Ok ?a ≫= ?f) with (f a).
    rewrite IH by lia.
    rewrite (drop_S _ _ _ Hprev).
    replace (S (i - 1)) with i by lia.
    replace (S i - 1)%nat with i by lia.
    rewrite (drop_S _ _ _ Hcur). simpl.
    by rewrite <- app_assoc.
Qed.

Lemma gaps_of_adjacent (m : gmap Z Z) (l : list Z) :
  (∀ k, k ∈ l → is_Some (m !! k)) →
  Analyzer.gaps_of m l = Ok (adjacent_gaps m l).
Proof.
  intros Hdom. unfold Analyzer.gaps_of.
  destruct l as [|a l]; [done|].
  rewrite (gaps_loop_adjacent m (a :: l) _ 1 []); [done|done|lia|simpl; lia].
Qed.

Lemma adjacent_gaps_spec (m : gmap Z Z) (l : list Z) :
  StronglySorted Z.lt l →
  (∀ k, k ∈ l → is_Some (m !! k)) →
  (∀ k, is_Some (m !! k) → k ∈ l ∨ ∀ x, x ∈ l → k < x) →
  adjacent_gaps m l = omap (Spec.gap_after m) l.
Proof.
  induction 1 as [|a tl Hs IH Ha]; intros Hin Hcov; [done|].
  rewrite Forall_forall in Ha.
  assert (IH' : adjacent_gaps m tl = omap (Spec.gap_after m) tl).
  { apply IH.
    - intros k Hk. apply Hin. by right.
    - intros k Hk. destruct (Hcov k Hk) as [Hk'|Hk'].
      + apply elem_of_cons in Hk' as [->|Hk']; [|by left].
        right. intros x Hx. by apply Ha.
      + right. intros x Hx. apply Hk'. by right. }
  destruct (Hin a) as [ta Hta]; [by left|].
  simpl. unfold Spec.gap_after at 1. rewrite Hta. simpl.
  destruct tl as [|b tl'].
  - simpl. destruct (m !! (a + 1)) as [t1|] eqn:Ht1; [|done].
    destruct (Hcov (a + 1)) as [Hk|Hk]; [by eauto| |].
    + apply list_elem_of_singleton in Hk. lia.
    + assert (a + 1 < a) by (apply Hk; by left). lia.
  - rewrite IH'. destruct (Z.eqb_spec b (a + 1)) as [->|Hne].
    + destruct (Hin (a + 1)) as [t1 Ht1]; [by right; left|].
      rewrite Ht1. simpl.
      rewrite (lookup_total_correct _ _ _ Ht1), (lookup_total_correct _ _ _ Hta).
      done.
    + destruct (m !! (a + 1)) as [t1|] eqn:Ht1; [|done].
      exfalso. destruct (Hcov (a + 1)) as [Hk|Hk]; [by eauto| |].
      * apply elem_of_cons in Hk as [?|Hk]; [lia|].
        assert (a < b) by (apply Ha; by left).
        apply elem_of_cons in Hk as [?|Hk]; [lia|].
        apply StronglySorted_inv in Hs as [_ Hb].
        rewrite Forall_forall in Hb. specialize (Hb _ Hk). lia.
      * assert (a + 1 < a) by (apply Hk; by left). lia.
Qed.

Lemma length_sorted_keys (m : gmap Z Z) : length (sorted (Analyzer.keys m)) = size m.
Proof.
  rewrite sorted_Permutation. unfold Analyzer.keys.
  by rewrite length_fmap, length_map_to_list.
Qed.

Lemma sorted_keys_nil (m : gmap Z Z) : sorted (Analyzer.keys m) = [] ↔ m = ∅.
Proof.
  split.
  - intros H. apply map_size_empty_iff. by rewrite <- length_sorted_keys, H.
  - intros ->. reflexivity.
Qed.

(** The loop of [calculate_results] collects exactly the gaps of the
    specification. *)
Lemma gaps_of_sorted_keys (m : gmap Z Z) :
  Analyzer.gaps_of m (sorted (Analyzer.keys m)) = Ok (Spec.gap_samples m).
Proof.
  rewrite gaps_of_adjacent by (intros k; apply elem_of_sorted_keys).
  f_equal. apply adjacent_gaps_spec.
  - apply sorted_keys_increasing.
  - intros k. apply elem_of_sorted_keys.
  - intros k Hk. left. by apply elem_of_sorted_keys.
Qed.

(** *** The arithmetic of one publisher *)

Lemma bind_Ok {A B : Type} (f : A → res B) (a : A) : Ok a ≫= f = f a.
Proof. reflexivity. Qed.

Lemma inject_Z_nonzero (z : Z) : z ≠ 0 → ¬ (inject_Z z == 0)%Q.
Proof. unfold Qeq. simpl. lia. Qed.

Lemma truediv_Ok (a b : Q) : ¬ (b == 0)%Q → truediv a b = Ok (a / b)%Q.
Proof.
  intros Hb. unfold truediv. destruct (Qeq_bool b 0) eqn:Heq; [|done].
  apply Qeq_bool_eq in Heq. contradiction.
Qed.

Lemma message_loss_of_Ok (actual expected : Z) :
  Analyzer.message_loss_of actual expected
  = Ok (if 0 <? expected
        then (100 * (1 - inject_Z actual / inject_Z expected))%Q else 0%Q).
Proof.
  unfold Analyzer.message_loss_of. destruct (Z.ltb_spec 0 expected); [|done].
  rewrite truediv_Ok by (apply inject_Z_nonzero; lia). done.
Qed.

Lemma percentage_Ok (count actual : Z) :
  Analyzer.percentage count actual
  = Ok (if 0 <? actual
        then (inject_Z (100 * count) / inject_Z actual)%Q else 0%Q).
Proof.
  unfold Analyzer.percentage. destruct (Z.ltb_spec 0 actual); [|done].
  by rewrite truediv_Ok by (apply inject_Z_nonzero; lia).
Qed.

Lemma percentage_zero (actual : Z) :
  ∃ q, Analyzer.percentage 0 actual = Ok q ∧ (q == 0)%Q.
Proof.
  rewrite percentage_Ok. eexists. split; [done|].
  destruct (0 <? actual); [|done].
  change (inject_Z (100 * 0)) with 0%Q. unfold Qdiv. apply Qmult_0_l.
Qed.

Lemma foldl_max_spec (l : list Z) (x : Z) :
  foldl Z.max x l ∈ x :: l ∧ ∀ y, y ∈ x :: l → y ≤ foldl Z.max x l.
Proof.
  revert x. induction l as [|a l IH]; intros x; simpl.
  - split; [by left|]. intros y Hy. apply list_elem_of_singleton in Hy. lia.
  - destruct (IH (Z.max x a)) as [Hin Hle]. split.
    + apply elem_of_cons in Hin as [Heq|Hin].
      * rewrite Heq. destruct (Z.max_spec x a) as [[_ ->]|[_ ->]];
          [right; by left|by left].
      * right. by right.
    + intros y Hy.
      assert (Z.max x a ≤ foldl Z.max (Z.max x a) l) by (apply Hle; by left).
      apply elem_of_cons in Hy as [->|Hy]; [lia|].
      apply elem_of_cons in Hy as [->|Hy]; [lia|].
      apply Hle. by right.
Qed.

(** [max] of a list that is not empty is its greatest element. *)
Lemma max_spec (l : list Z) :
  l ≠ [] → ∃ M, Py.max l = Ok M ∧ M ∈ l ∧ ∀ y, y ∈ l → y ≤ M.
Proof.
  destruct l as [|x l]; [done|]. intros _.
  exists (foldl Z.max x l). split; [done|]. apply foldl_max_spec.
Qed.

Lemma expected_messages_total (delay : Z) (l : list Z) :
  l ≠ [] → ∃ e, Analyzer.expected_messages delay l = Ok e.
Proof.
  intros Hl. unfold Analyzer.expected_messages.
  destruct (Z.eqb_spec delay 0) as [->|Hd].
  - destruct (max_spec l Hl) as (M & -> & _). by eexists.
  - by apply B64Facts.theoretical_count_total.
Qed.

Lemma variance_Ok (data : list Q) :
  (2 ≤ length data)%nat →
  variance data
  = Ok (Qsum (map (λ x, (x - Spec.arithmetic_mean data)
                        * (x - Spec.arithmetic_mean data))%Q data)
        / (Qlen data - 1))%Q.
Proof.
  intros Hlen. unfold variance.
  destruct (Nat.ltb_spec (length data) 2); [lia|done].
Qed.

(** [gap_statistics] never raises. *)
Lemma gap_statistics_Ok (gaps : list Z) :
  ∃ mg sd,
    Analyzer.gap_statistics gaps = Ok (mg, sd)
    ∧ mg = match gaps with
           | [] => 0%Q
           | _ => Spec.arithmetic_mean (inject_Z <$> gaps)
           end
    ∧ ((length gaps < 2)%nat → sd = 0%R)
    ∧ ((2 ≤ length gaps)%nat →
       ∃ var, variance (inject_Z <$> gaps) = Ok var ∧ sd = sqrt (Q2R var)).
Proof.
  destruct gaps as [|g1 [|g2 gaps]].
  - exists 0%Q, 0%R. split; [done|]. split; [done|]. split; [done|].
    simpl. lia.
  - eexists _, 0%R. split; [reflexivity|]. split; [done|].
    split; [done|]. simpl. lia.
  - pose proof (variance_Ok (inject_Z <$> g1 :: g2 :: gaps)) as Hvar.
    rewrite length_fmap in Hvar. specialize (Hvar ltac:(simpl; lia)).
    unfold Analyzer.gap_statistics.
    change (mean (inject_Z <$> g1 :: g2 :: gaps))
      with (Ok (Spec.arithmetic_mean (inject_Z <$> g1 :: g2 :: gaps))).
    rewrite bind_Ok.
    replace (1 <? length (g1 :: g2 :: gaps))%nat with true
      by (symmetry; apply Nat.ltb_lt; simpl; lia).
    unfold stdev. rewrite Hvar, !bind_Ok.
    eexists _, _. split; [reflexivity|]. split; [done|].
    split; [simpl; lia|]. intros _. eexists. split; [exact Hvar|done].
Qed.

(** What [publisher_metrics] returns, given the expected count. *)
Lemma publisher_metrics_spec (delay : Z) (m : gmap Z Z) (e : Z) :
  Analyzer.expected_messages delay (sorted (Analyzer.keys m)) = Ok e →
  ∃ v,
    Analyzer.publisher_metrics delay m = Ok v
    ∧ Analyzer.message_loss_of (Analyzer.len m) e = Ok (Analyzer.v_message_loss v)
    ∧ (Analyzer.v_out_of_order v == 0)%Q
    ∧ (Analyzer.v_duplicates v == 0)%Q
    ∧ Analyzer.gap_statistics (Spec.gap_samples m)
      = Ok (Analyzer.v_mean_gap v, Analyzer.v_std_dev_gap v).
Proof.
  intros He. unfold Analyzer.publisher_metrics. cbv zeta.
  rewrite He, bind_Ok. rewrite message_loss_of_Ok, bind_Ok.
  rewrite out_of_order_count_sorted, duplicate_count_keys.
  destruct (percentage_zero (Analyzer.len m)) as (z & -> & Hz).
  rewrite !bind_Ok. rewrite gaps_of_sorted_keys, bind_Ok.
  destruct (gap_statistics_Ok (Spec.gap_samples m)) as (mg & sd & Hgs & _).
  rewrite Hgs, bind_Ok. eexists. split; [reflexivity|].
  by repeat split.
Qed.

Lemma publisher_metrics_total (delay : Z) (m : gmap Z Z) :
  m ≠ ∅ → ∃ v, Analyzer.publisher_metrics delay m = Ok v.
Proof.
  intros Hm.
  destruct (expected_messages_total delay (sorted (Analyzer.keys m))) as [e He].
  { by rewrite sorted_keys_nil. }
  destruct (publisher_metrics_spec delay m e He) as (v & Hv & _). eauto.
Qed.

Lemma publisher_metrics_inv (delay : Z) (m : gmap Z Z) (v : Analyzer.publisher_values) :
  Analyzer.publisher_metrics delay m = Ok v →
  ∃ e,
    Analyzer.expected_messages delay (sorted (Analyzer.keys m)) = Ok e
    ∧ Analyzer.message_loss_of (Analyzer.len m) e = Ok (Analyzer.v_message_loss v)
    ∧ (Analyzer.v_out_of_order v == 0)%Q
    ∧ (Analyzer.v_duplicates v == 0)%Q
    ∧ Analyzer.gap_statistics (Spec.gap_samples m)
      = Ok (Analyzer.v_mean_gap v, Analyzer.v_std_dev_gap v).
Proof.
  intros Hv.
  destruct (Analyzer.expected_messages delay (sorted (Analyzer.keys m)))
    as [e|err] eqn:He.
  - destruct (publisher_metrics_spec delay m e He) as (v' & Hv' & Hrest).
    rewrite Hv in Hv'. injection Hv' as <-. eauto.
  - unfold Analyzer.publisher_metrics in Hv. rewrite He in Hv. discriminate.
Qed.

(** *** The loop over the publishers and the averages *)

Lemma collect_fields ppm vals :
  Analyzer.message_loss (collect ppm vals)
    = Analyzer.message_loss ppm ++ (Analyzer.v_message_loss <$> vals)
  ∧ Analyzer.out_of_order (collect ppm vals)
    = Analyzer.out_of_order ppm ++ (Analyzer.v_out_of_order <$> vals)
  ∧ Analyzer.duplicates (collect ppm vals)
    = Analyzer.duplicates ppm ++ (Analyzer.v_duplicates <$> vals)
  ∧ Analyzer.mean_gap (collect ppm vals)
    = Analyzer.mean_gap ppm ++ (Analyzer.v_mean_gap <$> vals)
  ∧ Analyzer.std_dev_gap (collect ppm vals)
    = Analyzer.std_dev_gap ppm ++ (Analyzer.v_std_dev_gap <$> vals).
Proof.
  revert ppm. induction vals as [|v vals IH]; intros ppm.
  - simpl. by rewrite !app_nil_r.
  - simpl. destruct (IH (Analyzer.append_values v ppm)) as (-> & -> & -> & -> & ->).
    simpl. by rewrite <- !app_assoc.
Qed.

Lemma publisher_step_empty (delay id : Z) ppm :
  Analyzer.publisher_step delay (id, ∅) ppm = Ok ppm.
Proof. reflexivity. Qed.

Lemma publisher_step_nonempty (delay id : Z) (m : gmap Z Z) ppm :
  m ≠ ∅ →
  Analyzer.publisher_step delay (id, m) ppm
  = Analyzer.publisher_metrics delay m
    ≫= λ v, mret (Analyzer.append_values v ppm).
Proof.
  intros Hm. unfold Analyzer.publisher_step. cbn [snd].
  destruct (sorted (Analyzer.keys m)) eqn:Hs; [|done].
  by apply sorted_keys_nil in Hs.
Qed.

(** The loop never raises; it appends the values of the publishers that
    have at least one message, and skips the others. *)
Lemma for_each_publishers (delay : Z) (items : list (Z * gmap Z Z)) ppm :
  ∃ vals,
    Forall2 (λ m v, Analyzer.publisher_metrics delay m = Ok v)
            (filter (λ m, m ≠ ∅) items.*2) vals
    ∧ for_each (Analyzer.publisher_step delay) items ppm = Ok (collect ppm vals).
Proof.
  revert ppm. induction items as [|[id m] items IH]; intros ppm.
  - exists []. split; [constructor|done].
  - change (for_each ?f (?x :: ?t) ?s) with (f x s ≫= for_each f t).
    rewrite fmap_cons. cbn [snd]. rewrite filter_cons.
    destruct (decide (m ≠ ∅)) as [Hm|Hm].
    + destruct (publisher_metrics_total delay m Hm) as [v Hv].
      rewrite publisher_step_nonempty, Hv, !bind_Ok by done.
      destruct (IH (Analyzer.append_values v ppm)) as (vals & Hvals & Hloop).
      exists (v :: vals). split; [by constructor|]. by rewrite Hloop.
    + assert (m = ∅) as -> by (destruct (decide (m = ∅)); [done|contradiction]).
      rewrite publisher_step_empty, bind_Ok. apply IH.
Qed.

Lemma mean_or_zero_Ok (l : list Q) :
  Analyzer.mean_or_zero l
  = Ok (match l with [] => 0%Q | _ => Spec.arithmetic_mean l end).
Proof. by destruct l. Qed.

Lemma meanR_or_zero_Ok (l : list R) :
  Analyzer.meanR_or_zero l
  = Ok (match l with [] => 0%R | _ => Spec.arithmetic_meanR l end).
Proof. by destruct l. Qed.

Lemma Qltb_lt (a b : Q) : Qltb a b = true ↔ (a < b)%Q.
Proof.
  unfold Qltb. rewrite negb_true_iff. split.
  - intros H. apply Qnot_le_lt. intros Hle. apply Qle_bool_iff in Hle. congruence.
  - intros H. destruct (Qle_bool b a) eqn:Hb; [|done].
    apply Qle_bool_iff in Hb. exfalso. by apply (Qlt_not_le a b).
Qed.

Lemma total_messages_actual (mr : gmap Z (gmap Z Z)) :
  Analyzer.total_messages mr = Spec.total_actual mr.
Proof. reflexivity. Qed.

(** [compute_result] never raises, and what it returns. *)
Lemma compute_result_spec (self : Analyzer.t) :
  let delay := Analyzer.delay (Analyzer.current_test self) in
  let elapsed := (Analyzer.test_end_time self - Analyzer.test_start_time self)%Q in
  ∃ vals r,
    Forall2 (λ m v, Analyzer.publisher_metrics delay m = Ok v)
            (Spec.contributing (Analyzer.messages_received self)) vals
    ∧ Analyzer.compute_result self = Ok r
    ∧ Analyzer.message_rate r
      = (if Qltb 0 elapsed
         then (inject_Z (Spec.total_actual (Analyzer.messages_received self))
               / elapsed)%Q
         else 0%Q)
    ∧ Analyzer.mean_or_zero (Analyzer.v_message_loss <$> vals)
      = Ok (Analyzer.avg_message_loss r)
    ∧ Analyzer.mean_or_zero (Analyzer.v_out_of_order <$> vals)
      = Ok (Analyzer.avg_out_of_order r)
    ∧ Analyzer.mean_or_zero (Analyzer.v_duplicates <$> vals)
      = Ok (Analyzer.avg_duplicates r)
    ∧ Analyzer.mean_or_zero (Analyzer.v_mean_gap <$> vals)
      = Ok (Analyzer.avg_mean_gap r)
    ∧ Analyzer.meanR_or_zero (Analyzer.v_std_dev_gap <$> vals)
      = Ok (Analyzer.avg_std_dev_gap r).
Proof.
  intros delay elapsed.
  destruct (for_each_publishers delay
              (map_to_list (Analyzer.messages_received self)) Analyzer.no_metrics)
    as (vals & Hvals & Hloop).
  destruct (collect_fields Analyzer.no_metrics vals) as (H1 & H2 & H3 & H4 & H5).
  simpl in H1, H2, H3, H4, H5.
  unfold Analyzer.compute_result. cbv zeta. fold elapsed. fold delay.
  rewrite Hloop.
  assert (Hrate :
    (if Qltb 0 elapsed
     then truediv (inject_Z (Analyzer.total_messages (Analyzer.messages_received self)))
                  elapsed
     else mret 0%Q)
    = Ok (if Qltb 0 elapsed
          then (inject_Z (Spec.total_actual (Analyzer.messages_received self))
                / elapsed)%Q
          else 0%Q)).
  { destruct (Qltb 0 elapsed) eqn:Hpos; [|done].
    apply Qltb_lt in Hpos. rewrite truediv_Ok; [done|].
    intros Heq. rewrite Heq in Hpos. by apply (Qlt_irrefl 0). }
  rewrite Hrate, !bind_Ok. rewrite H1, H2, H3, H4, H5.
  rewrite !mean_or_zero_Ok, meanR_or_zero_Ok, !bind_Ok.
  exists vals. eexists. split; [exact Hvals|]. split; [reflexivity|].
  split; [reflexivity|]. do 4 (split; [apply mean_or_zero_Ok|]).
  apply meanR_or_zero_Ok.
Qed.

Lemma calculate_results_spec (self : Analyzer.t) :
  ∃ r, Analyzer.compute_result self = Ok r
       ∧ Analyzer.calculate_results self
         = Ok (Analyzer.set_results (Analyzer.results self ++ [r]) self).
Proof.
  destruct (compute_result_spec self) as (vals & r & _ & Hr & _).
  exists r. split; [done|]. unfold Analyzer.calculate_results. by rewrite Hr.
Qed.

End AnalyzerFacts.

(** ** The analyzer: [on_message] *)

Module OnMessageFacts.
Import AnalyzerFacts.

Section WithParsers.

Variable int_of_str : string → res Z.
Variable float_of_str : string → res spec_float.

Lemma set_messages_received_same (self : Analyzer.t) :
  Analyzer.set_messages_received (Analyzer.messages_received self) self = self.
Proof. by destruct self. Qed.

(** The [try] block stores what the message parses to, and touches
    nothing when a statement of it raises. *)
Lemma counter_body_parse (topic text : string) (mr : gmap Z (gmap Z Z)) :
  Analyzer.counter_body int_of_str topic text mr
  = match Spec.parse_data_message int_of_str topic text with
    | Ok (instance_id, counter, timestamp) =>
        (Analyzer.store instance_id counter timestamp mr, Ok ())
    | Raise e => (mr, Raise e)
    end.
Proof.
  unfold Analyzer.counter_body, Spec.parse_data_message.
  destruct (getitem (split "/" None topic) 1 ≫= int_of_str) as [id|e1]; [|done].
  rewrite bind_Ok.
  destruct (getitem (split ":" (Some 2%nat) text) 0 ≫= int_of_str) as [c|e2];
    [|done].
  rewrite bind_Ok.
  by destruct (getitem (split ":" (Some 2%nat) text) 1 ≫= int_of_str) as [t|e3].
Qed.

Lemma counter_not_sys (topic : string) :
  startswith topic "counter/" = true → startswith topic "$SYS/" = false.
Proof.
  unfold startswith. destruct topic as [|c topic]; [done|].
  cbn [String.prefix].
  destruct (ascii_dec "c" c) as [<-|]; [|discriminate].
  intros _. by destruct (ascii_dec "$" "c").
Qed.

(** A payload that is text and does not parse: the message is dropped. *)
Lemma on_message_malformed (self : Analyzer.t) (msg : message) (text : string) e :
  startswith (topic msg) "counter/" = true →
  decode (payload msg) = Ok text →
  Spec.parse_data_message int_of_str (topic msg) text = Raise e →
  Analyzer.on_message int_of_str float_of_str self msg = Ok self.
Proof.
  intros Htopic Hdec Hparse. unfold Analyzer.on_message.
  rewrite Hdec, bind_Ok, (counter_not_sys _ Htopic), Htopic.
  rewrite counter_body_parse, Hparse.
  by rewrite set_messages_received_same.
Qed.

(** A payload that parses is recorded. *)
Lemma on_message_well_formed (self : Analyzer.t) (msg : message) (text : string)
    (instance_id counter timestamp : Z) :
  startswith (topic msg) "counter/" = true →
  decode (payload msg) = Ok text →
  Spec.parse_data_message int_of_str (topic msg) text
  = Ok (instance_id, counter, timestamp) →
  Analyzer.on_message int_of_str float_of_str self msg
  = Ok (Analyzer.set_messages_received
          (Analyzer.store instance_id counter timestamp
             (Analyzer.messages_received self)) self).
Proof.
  intros Htopic Hdec Hparse. unfold Analyzer.on_message.
  rewrite Hdec, bind_Ok, (counter_not_sys _ Htopic), Htopic.
  by rewrite counter_body_parse, Hparse.
Qed.

(** A payload that is not text: [decode] raises before the [try]. *)
Lemma on_message_undecodable (self : Analyzer.t) (msg : message) e :
  decode (payload msg) = Raise e →
  Analyzer.on_message int_of_str float_of_str self msg = Raise e.
Proof. intros Hdec. unfold Analyzer.on_message. by rewrite Hdec. Qed.

End WithParsers.

End OnMessageFacts.

(** ** The publisher *)

Module PublisherFacts.
Import AnalyzerFacts.

Section WithParser.

Variable int_of_str : string → res Z.

(** The start signal: the agent starts its thread when its number is at
    most [instancecount], and clears [running] otherwise. *)
Lemma on_message_go (self : Publisher.t) (msg : message) (text : string) :
  topic msg = "request/go" →
  decode (payload msg) = Ok text →
  Publisher.on_message int_of_str self msg
  = Ok (if Publisher.instance_id self <=? Publisher.instancecount self
        then Publisher.start_publishing self
        else (Publisher.set_running false self, [])).
Proof.
  intros Htopic Hdec. unfold Publisher.on_message.
  rewrite Hdec, bind_Ok, Htopic. cbn [bool_decide].
  repeat (case_bool_decide; [discriminate|]).
  case_bool_decide; [|done].
  by destruct (Publisher.instance_id self <=? Publisher.instancecount self).
Qed.

(** What one message does to [instance_id] and [instancecount]. *)
Lemma on_message_instancecount (self self' : Publisher.t) (msg : message) started :
  Publisher.on_message int_of_str self msg = Ok (self', started) →
  Publisher.instance_id self' = Publisher.instance_id self
  ∧ Publisher.instancecount self'
    = Spec.latest_instancecount int_of_str (Publisher.instancecount self) [msg].
Proof.
  unfold Publisher.on_message, Spec.latest_instancecount. cbn [foldl].
  destruct (decode (payload msg)) as [text|e]; [|discriminate].
  rewrite !bind_Ok.
  destruct (decide (topic msg = "request/instancecount")) as [Heq|Hne].
  - rewrite Heq. rewrite (bool_decide_eq_true_2 _ eq_refl).
    repeat (case_bool_decide; [discriminate|]).
    destruct (int_of_str text) as [v|e]; [|discriminate].
    rewrite !bind_Ok. by intros [= <- <-].
  - rewrite (bool_decide_eq_false_2 _ Hne).
    repeat case_bool_decide;
      try (destruct (int_of_str text) as [v|e]; [|discriminate]; rewrite bind_Ok);
      try destruct (Publisher.instance_id self <=? Publisher.instancecount self);
      try done; by intros [= <- <-].
Qed.

Lemma latest_instancecount_cons initial (msg : message) (msgs : list message) :
  Spec.latest_instancecount int_of_str initial (msg :: msgs)
  = Spec.latest_instancecount int_of_str
      (Spec.latest_instancecount int_of_str initial [msg]) msgs.
Proof. reflexivity. Qed.

(** After a sequence of messages, [instancecount] is the latest value
    that was broadcast. *)
Lemma handle_instancecount (msgs : list message) :
  ∀ (self self' : Publisher.t) started,
    Publisher.handle int_of_str self msgs = Ok (self', started) →
    Publisher.instance_id self' = Publisher.instance_id self
    ∧ Publisher.instancecount self'
      = Spec.latest_instancecount int_of_str (Publisher.instancecount self) msgs.
Proof.
  induction msgs as [|msg msgs IH]; intros self self' started Hrun.
  - injection Hrun as <- <-. done.
  - cbn [Publisher.handle] in Hrun.
    destruct (Publisher.on_message int_of_str self msg) as [[self1 st1]|e] eqn:H1;
      [|discriminate].
    rewrite bind_Ok in Hrun.
    destruct (Publisher.handle int_of_str self1 msgs) as [[self2 st2]|e] eqn:H2;
      [|discriminate].
    rewrite bind_Ok in Hrun. injection Hrun as <- <-.
    destruct (on_message_instancecount _ _ _ _ H1) as [Hid Hcount].
    destruct (IH _ _ _ H2) as [Hid2 Hcount2].
    rewrite latest_instancecount_cons, <- Hcount. split; congruence.
Qed.

End WithParser.

(** A turn of the loop that reads [running = False] ends the thread. *)
Lemma publish_loop_stops topic end_time counter (o : Publisher.observation) env :
  Publisher.running (Publisher.agent o) = false →
  Publisher.publish_loop topic end_time counter (o :: env) = ([], counter).
Proof. intros Hr. cbn [Publisher.publish_loop]. by rewrite Hr, andb_false_r. Qed.

(** The messages of the loop, one by one. *)
Lemma publish_loop_spec topic end_time (env : list Publisher.observation) :
  ∀ counter pubs final,
    Publisher.publish_loop topic end_time counter env = (pubs, final) →
    final = counter + Z.of_nat (length pubs)
    ∧ ∀ (k : nat) p, pubs !! k = Some p →
        ∃ o, env !! k = Some o
             ∧ pub_topic p = topic
             ∧ pub_payload p
               = Publisher.data_message (counter + Z.of_nat k) (Publisher.stamp_ms o)
                   (str_mul "x" (Publisher.messagesize (Publisher.agent o)))
             ∧ pub_qos p = Publisher.qos (Publisher.agent o).
Proof.
  induction env as [|o env IH]; intros counter pubs final Hloop.
  - injection Hloop as <- <-. split; [simpl; lia|]. intros k p Hk. done.
  - cbn [Publisher.publish_loop] in Hloop.
    destruct (Qltb (Publisher.now o) end_time && Publisher.running (Publisher.agent o)).
    + destruct (Publisher.publish_loop topic end_time (counter + 1) env)
        as [rest fin] eqn:Hrest.
      injection Hloop as <- <-.
      destruct (IH _ _ _ Hrest) as [Hfin Hmsgs]. split.
      * rewrite Hfin. simpl length. lia.
      * intros [|k] p Hk.
        -- injection Hk as <-. exists o. cbn. rewrite Z.add_0_r. done.
        -- destruct (Hmsgs k p Hk) as (o' & Ho' & Ht & Hp & Hq).
           exists o'. split; [done|]. split; [done|]. split; [|done].
           rewrite Hp. f_equal. lia.
    + injection Hloop as <- <-. split; [simpl; lia|]. intros k p Hk. done.
Qed.

(** [x * n]: [n] times the filler character. *)
Lemma repeat_str_x (n : nat) :
  repeat_str "x" n = string_of_list_ascii (replicate n "x"%char).
Proof. induction n as [|n IH]; [done|]. simpl. by rewrite IH. Qed.

Lemma str_mul_x (n : Z) :
  str_mul "x" n = string_of_list_ascii (replicate (Z.to_nat n) "x"%char).
Proof. apply repeat_str_x. Qed.

Lemma length_str_mul_x (n : Z) :
  0 ≤ n → Z.of_nat (String.length (str_mul "x" n)) = n.
Proof.
  intros Hn. rewrite str_mul_x.
  assert (H : ∀ l, String.length (string_of_list_ascii l) = length l).
  { induction l as [|c l IH]; [done|]. simpl. by rewrite IH. }
  rewrite H, length_replicate. lia.
Qed.

End PublisherFacts.

(** * The claims *)

Module Claims.
Import Aux AnalyzerFacts OnMessageFacts PublisherFacts Examples.

Lemma feed_receipts_0112 float_of_str :
  feed int_ascii float_of_str fresh receipts_0112
  = Ok (with_messages {[1 := stream_012]}).
Proof. vm_compute. reflexivity. Qed.

(** The duplicate percentage of [calculate_results] is zero whatever was
    received: [sorted_counters] lists the keys of a dictionary. *)
Lemma duplicates_always_zero (delay : Z) (m : gmap Z Z) (v : Analyzer.publisher_values) :
  Analyzer.publisher_metrics delay m = Ok v → (Analyzer.v_duplicates v == 0)%Q.
Proof.
  intros Hv. by destruct (publisher_metrics_inv _ _ _ Hv) as (e & _ & _ & _ & Hd & _).
Qed.

(** C1 (the code departs from it). Publisher 1 is received as [0, 1, 1, 2]:
    four receipts, three distinct sequence numbers. The analyzer keeps the
    three entries and reports 0 per cent of duplicates, where the claim's
    formula [100 * (4 - 3) / 4] gives 25: the second receipt of sequence 1
    overwrites the first in the dictionary and nothing counts receipts. *)
Theorem duplicates_not_detected (float_of_str : string → res spec_float) :
  ∃ self v r,
    feed int_ascii float_of_str fresh receipts_0112 = Ok self
    ∧ Analyzer.messages_received self = {[1 := stream_012]}
    ∧ size stream_012 = 3%nat
    ∧ Analyzer.publisher_metrics 0 stream_012 = Ok v
    ∧ (Analyzer.v_duplicates v == 0)%Q
    ∧ Analyzer.compute_result self = Ok r
    ∧ (Analyzer.avg_duplicates r == 0)%Q
    ∧ (Spec.duplicates_percent 4 3 == 25)%Q.
Proof.
  destruct (publisher_metrics_total 0 stream_012) as [v Hv]; [done|].
  destruct (compute_result_spec (with_messages {[1 := stream_012]}))
    as (vals & r & Hvals & Hr & _ & _ & _ & Hdup & _).
  exists (with_messages {[1 := stream_012]}), v, r.
  split; [apply feed_receipts_0112|]. split; [done|]. split; [done|].
  split; [done|]. split; [by eapply duplicates_always_zero|].
  split; [done|]. split; [|done].
  change (Spec.contributing _) with [stream_012] in Hvals.
  apply Forall2_cons_inv_l in Hvals as (v' & vals' & Hv' & Hnil & ->).
  apply Forall2_nil_inv_l in Hnil as ->.
  rewrite mean_or_zero_Ok in Hdup. injection Hdup as <-.
  cbn. unfold Spec.arithmetic_mean, Qlen. cbn.
  rewrite (duplicates_always_zero _ _ _ Hv'). reflexivity.
Qed.

(** C2. With a positive delay, the expected count of every publisher is
    the integer quotient of 30 * 1000 by the delay: the code computes
    [int(30 * (1000 / delay))] in binary64, and the two roundings never
    carry the product across an integer. *)
Theorem expected_count_fixed_delay (delay : Z) (sorted_counters : list Z) :
  0 < delay →
  Analyzer.expected_messages delay sorted_counters = Ok (30 * 1000 / delay).
Proof.
  intros Hd. unfold Analyzer.expected_messages.
  destruct (Z.eqb_spec delay 0); [lia|].
  by apply B64Facts.theoretical_count_floor.
Qed.

(** The delay of the full sweep, 100 ms: 300 messages are expected. *)
Lemma expected_count_fixed_delay_witness :
  Analyzer.expected_messages 100 [0; 1; 2] = Ok 300.
Proof. exact (expected_count_fixed_delay 100 [0; 1; 2] eq_refl). Defined.

Lemma Qsum_zero (l : list Q) : Forall (λ q, q == 0)%Q l → (Qsum l == 0)%Q.
Proof.
  induction 1 as [|q l Hq _ IH]; [reflexivity|].
  simpl. rewrite Hq, IH. reflexivity.
Qed.

Lemma arithmetic_mean_zero (l : list Q) :
  Forall (λ q, q == 0)%Q l → (Spec.arithmetic_mean l == 0)%Q.
Proof.
  intros Hl. unfold Spec.arithmetic_mean, Qdiv.
  rewrite (Qsum_zero l Hl). apply Qmult_0_l.
Qed.

Lemma mean_or_zero_zero (l : list Q) (q : Q) :
  Forall (λ q, q == 0)%Q l → Analyzer.mean_or_zero l = Ok q → (q == 0)%Q.
Proof.
  intros Hl. rewrite mean_or_zero_Ok. intros [= <-].
  destruct l; [reflexivity|]. by apply arithmetic_mean_zero.
Qed.

(** C3. The scan for out-of-order messages finds none, whatever was
    received: it walks the sequence numbers in sorted order. Every
    publisher's percentage is zero and so is the average of the run. *)
Theorem out_of_order_always_zero (self : Analyzer.t) :
  (∀ counters, Analyzer.out_of_order_count (sorted counters) = 0)
  ∧ ∃ vals r,
      Forall2 (λ m v, Analyzer.publisher_metrics
                        (Analyzer.delay (Analyzer.current_test self)) m = Ok v)
              (Spec.contributing (Analyzer.messages_received self)) vals
      ∧ Forall (λ v, Analyzer.v_out_of_order v == 0)%Q vals
      ∧ Analyzer.compute_result self = Ok r
      ∧ (Analyzer.avg_out_of_order r == 0)%Q.
Proof.
  split; [apply out_of_order_count_sorted|].
  destruct (compute_result_spec self)
    as (vals & r & Hvals & Hr & _ & _ & Hooo & _).
  exists vals, r. split; [done|].
  assert (Hzero : Forall (λ v, Analyzer.v_out_of_order v == 0)%Q vals).
  { clear Hooo Hr. induction Hvals as [|m v ms vs Hv _ IH]; constructor; [|done].
    by destruct (publisher_metrics_inv _ _ _ Hv) as (e & _ & _ & Hz & _). }
  split; [done|]. split; [done|].
  eapply mean_or_zero_zero; [|exact Hooo]. by apply Forall_fmap.
Qed.


Lemma gap_samples_stream_gaps : Spec.gap_samples stream_gaps = [100; 150].
Proof. vm_compute. reflexivity. Qed.

Lemma gap_samples_stream_missing : Spec.gap_samples stream_missing = [].
Proof. vm_compute. reflexivity. Qed.

Lemma variance_100_150 (var : Q) :
  variance (inject_Z <$> [100; 150]) = Ok var → Q2R var = 1250%R.
Proof.
  rewrite variance_Ok by (simpl; lia). intros [= <-].
  transitivity (Q2R 1250).
  - apply Qeq_eqR. vm_compute. reflexivity.
  - unfold Q2R. simpl. lra.
Qed.

(** C4. The gap samples are the differences of the time stamps of the
    pairs of consecutive sequence numbers that are both recorded, and of
    no other pair. Receipts [{0:1000, 1:1100, 2:1250}] give the samples
    [100, 150], a mean of 125 and the sample standard deviation of the
    two (denominator n - 1); receipts [{0:1000, 2:1300}] give no sample
    and a mean of 0; with fewer than two samples the deviation is 0. *)
Theorem gap_computation :
  (∀ messages,
     Analyzer.gaps_of messages (sorted (Analyzer.keys messages))
     = Ok (Spec.gap_samples messages))
  ∧ (∀ delay messages v,
       Analyzer.publisher_metrics delay messages = Ok v →
       Analyzer.gap_statistics (Spec.gap_samples messages)
       = Ok (Analyzer.v_mean_gap v, Analyzer.v_std_dev_gap v))
  ∧ Spec.gap_samples stream_gaps = [100; 150]
  ∧ (∃ v, Analyzer.publisher_metrics 0 stream_gaps = Ok v
          ∧ (Analyzer.v_mean_gap v == 125)%Q
          ∧ Analyzer.v_std_dev_gap v
            = sqrt (((100 - 125) ^ 2 + (150 - 125) ^ 2) / (2 - 1))%R)
  ∧ Spec.gap_samples stream_missing = []
  ∧ (∃ v, Analyzer.publisher_metrics 0 stream_missing = Ok v
          ∧ Analyzer.v_mean_gap v = 0%Q
          ∧ Analyzer.v_std_dev_gap v = 0%R)
  ∧ Analyzer.gap_statistics [] = Ok (0%Q, 0%R)
  ∧ (∀ g, Analyzer.gap_statistics [g] = Ok (Spec.arithmetic_mean [inject_Z g], 0%R)).
Proof.
  split; [apply gaps_of_sorted_keys|].
  split.
  { intros delay messages v Hv.
    by destruct (publisher_metrics_inv _ _ _ Hv) as (e & _ & _ & _ & _ & Hg). }
  split; [apply gap_samples_stream_gaps|].
  split.
  { destruct (publisher_metrics_total 0 stream_gaps) as [v Hv]; [done|].
    exists v. split; [done|].
    destruct (publisher_metrics_inv _ _ _ Hv) as (e & _ & _ & _ & _ & Hg).
    rewrite gap_samples_stream_gaps in Hg.
    destruct (gap_statistics_Ok [100; 150]) as (mg & sd & Hgs & Hmg & _ & Hsd).
    rewrite Hgs in Hg. injection Hg as <- <-.
    split.
    - rewrite Hmg. vm_compute. reflexivity.
    - destruct Hsd as (var & Hvar & ->); [simpl; lia|].
      rewrite (variance_100_150 var Hvar). f_equal. lra. }
  split; [apply gap_samples_stream_missing|].
  split.
  { destruct (publisher_metrics_total 0 stream_missing) as [v Hv]; [done|].
    exists v. split; [done|].
    destruct (publisher_metrics_inv _ _ _ Hv) as (e & _ & _ & _ & _ & Hg).
    rewrite gap_samples_stream_missing in Hg. by injection Hg as <- <-. }
  split; [done|]. intros g. reflexivity.
Qed.

(** C5. With a delay of 0 and sequence numbers that are not negative, the
    expected count of a publisher is its greatest recorded sequence number
    plus one, and its loss is [100 * (1 - actual / expected)], with no
    clamp; when the recorded numbers are [0 .. max] the loss is 0, whatever
    was sent after [max]. *)
Theorem expected_count_zero_delay (messages : gmap Z Z) :
  messages ≠ ∅ →
  map_Forall (λ k _, 0 ≤ k) messages →
  ∃ max_counter v,
    is_Some (messages !! max_counter)
    ∧ (∀ k, is_Some (messages !! k) → k ≤ max_counter)
    ∧ Analyzer.expected_messages 0 (sorted (Analyzer.keys messages))
      = Ok (max_counter + 1)
    ∧ Analyzer.publisher_metrics 0 messages = Ok v
    ∧ Analyzer.v_message_loss v
      = (100 * (1 - inject_Z (Analyzer.len messages)
                    / inject_Z (max_counter + 1)))%Q
    ∧ (Analyzer.len messages = max_counter + 1
       → (Analyzer.v_message_loss v == 0)%Q).
Proof.
  intros Hne Hpos.
  destruct (max_spec (sorted (Analyzer.keys messages))) as (M & HM & Hin & Hle).
  { by rewrite sorted_keys_nil. }
  apply elem_of_sorted_keys in Hin.
  assert (He : Analyzer.expected_messages 0 (sorted (Analyzer.keys messages))
               = Ok (M + 1)).
  { unfold Analyzer.expected_messages. cbn. by rewrite HM. }
  destruct (publisher_metrics_spec 0 messages (M + 1) He) as (v & Hv & Hloss & _).
  assert (HM0 : 0 ≤ M).
  { destruct Hin as [t Ht]. by apply (Hpos M t). }
  rewrite message_loss_of_Ok in Hloss.
  destruct (Z.ltb_spec 0 (M + 1)); [|lia]. injection Hloss as Hloss.
  exists M, v. split; [done|]. split.
  { intros k Hk. apply Hle. by apply elem_of_sorted_keys. }
  split; [done|]. split; [done|]. split; [done|].
  intros Hlen. rewrite <- Hloss, Hlen.
  assert (Hnz : ¬ (inject_Z (M + 1) == 0)%Q) by (apply inject_Z_nonzero; lia).
  field. exact Hnz.
Qed.

(** The two runs of the specification: sequence numbers 0 to 9 give an
    expected count of 10 and no loss; without number 9 the expected count
    is 9 and the loss is still 0. *)
Lemma expected_count_zero_delay_witness :
  (∃ v, Analyzer.expected_messages 0 (sorted (Analyzer.keys stream_0_to_9)) = Ok 10
        ∧ Analyzer.publisher_metrics 0 stream_0_to_9 = Ok v
        ∧ (Analyzer.v_message_loss v == 0)%Q)
  ∧ (∃ v, Analyzer.expected_messages 0 (sorted (Analyzer.keys stream_0_to_8)) = Ok 9
          ∧ Analyzer.publisher_metrics 0 stream_0_to_8 = Ok v
          ∧ (Analyzer.v_message_loss v == 0)%Q).
Proof.
  split.
  - destruct (expected_count_zero_delay stream_0_to_9)
      as (M & v & _ & _ & He & Hv & _ & Hzero).
    + intros H. apply (f_equal size) in H. vm_compute in H. discriminate.
    + apply (bool_decide_unpack _). vm_compute. exact I.
    + assert (HM : M + 1 = 10).
      { assert (Hc : Analyzer.expected_messages 0
                       (sorted (Analyzer.keys stream_0_to_9)) = Ok 10)
          by (vm_compute; reflexivity).
        rewrite Hc in He. by injection He. }
      exists v. rewrite <- HM. split; [done|]. split; [done|].
      apply Hzero. rewrite HM. vm_compute. reflexivity.
  - destruct (expected_count_zero_delay stream_0_to_8)
      as (M & v & _ & _ & He & Hv & _ & Hzero).
    + intros H. apply (f_equal size) in H. vm_compute in H. discriminate.
    + apply (bool_decide_unpack _). vm_compute. exact I.
    + assert (HM : M + 1 = 9).
      { assert (Hc : Analyzer.expected_messages 0
                       (sorted (Analyzer.keys stream_0_to_8)) = Ok 9)
          by (vm_compute; reflexivity).
        rewrite Hc in He. by injection He. }
      exists v. rewrite <- HM. split; [done|]. split; [done|].
      apply Hzero. rewrite HM. vm_compute. reflexivity.
Defined.

(** C6. Each average of the run is the arithmetic mean, without weights,
    of the values of the publishers that have at least one recorded
    message (a publisher with none adds no value, and with no such
    publisher the average is 0); the message rate is the number of
    recorded messages of all publishers divided by the seconds elapsed. *)
Theorem aggregation (self : Analyzer.t) :
  let delay := Analyzer.delay (Analyzer.current_test self) in
  let elapsed := (Analyzer.test_end_time self - Analyzer.test_start_time self)%Q in
  (0 < elapsed)%Q →
  ∃ vals r,
    Forall2 (λ m v, Analyzer.publisher_metrics delay m = Ok v)
            (Spec.contributing (Analyzer.messages_received self)) vals
    ∧ Analyzer.compute_result self = Ok r
    ∧ Analyzer.message_rate r
      = (inject_Z (Spec.total_actual (Analyzer.messages_received self)) / elapsed)%Q
    ∧ (vals ≠ [] →
       Analyzer.avg_message_loss r
         = Spec.arithmetic_mean (Analyzer.v_message_loss <$> vals)
       ∧ Analyzer.avg_out_of_order r
         = Spec.arithmetic_mean (Analyzer.v_out_of_order <$> vals)
       ∧ Analyzer.avg_duplicates r
         = Spec.arithmetic_mean (Analyzer.v_duplicates <$> vals)
       ∧ Analyzer.avg_mean_gap r
         = Spec.arithmetic_mean (Analyzer.v_mean_gap <$> vals)
       ∧ Analyzer.avg_std_dev_gap r
         = Spec.arithmetic_meanR (Analyzer.v_std_dev_gap <$> vals))
    ∧ (vals = [] →
       Analyzer.avg_message_loss r = 0%Q ∧ Analyzer.avg_out_of_order r = 0%Q
       ∧ Analyzer.avg_duplicates r = 0%Q ∧ Analyzer.avg_mean_gap r = 0%Q
       ∧ Analyzer.avg_std_dev_gap r = 0%R).
Proof.
  intros delay elapsed Hpos.
  destruct (compute_result_spec self)
    as (vals & r & Hvals & Hr & Hrate & H1 & H2 & H3 & H4 & H5).
  fold delay in Hvals. fold elapsed in Hrate.
  apply Qltb_lt in Hpos. rewrite Hpos in Hrate.
  rewrite !mean_or_zero_Ok in *. rewrite meanR_or_zero_Ok in H5.
  injection H1 as H1. injection H2 as H2. injection H3 as H3.
  injection H4 as H4. injection H5 as H5.
  exists vals, r. split; [done|]. split; [done|]. split; [done|].
  split.
  - intros Hne. destruct vals as [|v vals]; [done|]. by rewrite <- H1, <- H2, <- H3, <- H4, <- H5.
  - intros ->. by rewrite <- H1, <- H2, <- H3, <- H4, <- H5.
Qed.

(** A window of 32 seconds, three publishers, one of them with no
    message: two values enter each mean and the rate is 5 / 32. *)
Lemma aggregation_witness :
  ∃ vals r,
    length vals = 2%nat
    ∧ Analyzer.compute_result three_publishers = Ok r
    ∧ (Analyzer.message_rate r == 5 # 32)%Q
    ∧ Analyzer.avg_mean_gap r
      = Spec.arithmetic_mean (Analyzer.v_mean_gap <$> vals).
Proof.
  destruct (aggregation three_publishers eq_refl)
    as (vals & r & Hvals & Hr & Hrate & Hmeans & _).
  apply Forall2_length in Hvals.
  exists vals, r. split; [by rewrite <- Hvals|]. split; [done|]. split.
  - rewrite Hrate. vm_compute. reflexivity.
  - apply Hmeans. intros ->. discriminate Hvals.
Defined.

(** C7 (the code departs from it). A data message whose payload is the
    single byte 255 is no UTF-8 text: [msg.payload.decode()] stands before
    the [try] block, so the handler raises [UnicodeDecodeError] instead of
    dropping the message. *)
Theorem undecodable_payload_raises (int_of_str : string → res Z)
    (float_of_str : string → res spec_float) (self : Analyzer.t) :
  startswith (topic not_text) "counter/" = true
  ∧ Analyzer.on_message int_of_str float_of_str self not_text
    = Raise UnicodeDecodeError.
Proof. split; [reflexivity|]. by apply on_message_undecodable. Qed.

(** A data message whose payload is text but does not parse, or whose
    topic carries no publisher number, is dropped without an exception and
    nothing of the analyzer changes: every statement of the [try] block
    that can raise stands before the two that store. *)
Theorem malformed_message_discarded (int_of_str : string → res Z)
    (float_of_str : string → res spec_float)
    (self : Analyzer.t) (msg : message) (text : string) (e : exn) :
  startswith (topic msg) "counter/" = true →
  decode (payload msg) = Ok text →
  Spec.parse_data_message int_of_str (topic msg) text = Raise e →
  Analyzer.on_message int_of_str float_of_str self msg = Ok self.
Proof. apply on_message_malformed. Qed.

Lemma malformed_message_discarded_witness :
  Analyzer.on_message int_ascii float_zero_only
    (with_messages {[1 := stream_012]}) no_number
  = Ok (with_messages {[1 := stream_012]}).
Proof.
  exact (malformed_message_discarded int_ascii float_zero_only
           (with_messages {[1 := stream_012]}) no_number "hello" ValueError
           eq_refl eq_refl eq_refl).
Defined.

(** C8. When the start signal arrives, the agent starts publishing if and
    only if its number is at most the latest [instancecount] that was
    broadcast (1 before any broadcast); otherwise its [running] flag is
    cleared, no thread is started, and a loop that reads the flag
    publishes nothing more. *)
Theorem activation (int_of_str : string → res Z)
    (self self1 : Publisher.t) (msgs : list message) started
    (go : message) (text : string) :
  Publisher.handle int_of_str self msgs = Ok (self1, started) →
  topic go = "request/go" →
  decode (payload go) = Ok text →
  let latest :=
    Spec.latest_instancecount int_of_str (Publisher.instancecount self) msgs in
  ∃ self2 threads,
    Publisher.on_message int_of_str self1 go = Ok (self2, threads)
    ∧ (threads = [Publisher.StartThread] ↔ Publisher.instance_id self ≤ latest)
    ∧ (Publisher.running self2 = true ↔ Publisher.instance_id self ≤ latest)
    ∧ (latest < Publisher.instance_id self →
       threads = []
       ∧ Publisher.running self2 = false
       ∧ ∀ topic end_time counter o env,
           Publisher.agent o = self2 →
           Publisher.publish_loop topic end_time counter (o :: env)
           = ([], counter)).
Proof.
  intros Hrun Htopic Hdec latest.
  destruct (handle_instancecount int_of_str msgs _ _ _ Hrun) as [Hid Hcount].
  fold latest in Hcount.
  rewrite (on_message_go int_of_str self1 go text Htopic Hdec).
  rewrite Hid, Hcount.
  destruct (Z.leb_spec (Publisher.instance_id self) latest) as [Hle|Hgt].
  - eexists _, _. split; [reflexivity|]. split; [done|]. split; [done|]. lia.
  - eexists _, _. split; [reflexivity|].
    split; [split; [discriminate|lia]|].
    split; [split; [discriminate|lia]|].
    intros _. split; [done|]. split; [done|].
    intros topic end_time counter o env Ho. apply publish_loop_stops.
    by rewrite Ho.
Qed.

(** Five publishers are asked for: agent 3 starts, agent 7 does not. *)
Lemma activation_witness :
  (∃ self2, Publisher.on_message int_ascii
              (Publisher.set_instancecount 5
                 (Publisher.set_messagesize 4
                    (Publisher.set_delay 0
                       (Publisher.set_qos 1 (Publisher.init 3))))) go
            = Ok (self2, [Publisher.StartThread])
            ∧ Publisher.running self2 = true)
  ∧ (∃ self2, Publisher.on_message int_ascii
                (Publisher.set_instancecount 5
                   (Publisher.set_messagesize 4
                      (Publisher.set_delay 0
                         (Publisher.set_qos 1 (Publisher.init 7))))) go
              = Ok (self2, [])
              ∧ Publisher.running self2 = false).
Proof.
  split.
  - destruct (activation int_ascii (Publisher.init 3) _ five_publishers [] go "1"
                eq_refl eq_refl eq_refl)
      as (self2 & threads & Hgo & Hth & Hrun & _).
    exists self2. apply proj2 in Hth. apply proj2 in Hrun.
    rewrite <- Hth by (vm_compute; discriminate). split; [done|].
    apply Hrun. vm_compute. discriminate.
  - destruct (activation int_ascii (Publisher.init 7) _ five_publishers [] go "1"
                eq_refl eq_refl eq_refl)
      as (self2 & threads & Hgo & _ & _ & Hoff).
    destruct Hoff as (Hth & Hrun & _); [vm_compute; reflexivity|].
    exists self2. by rewrite <- Hth.
Defined.

Lemma ascii_text_app (s1 s2 : string) :
  Spec.ascii_text (s1 +:+ s2) ↔ Spec.ascii_text s1 ∧ Spec.ascii_text s2.
Proof.
  unfold Spec.ascii_text. induction s1 as [|c s1 IH]; simpl.
  - split; [by split; [constructor|]|by intros [_ ?]].
  - rewrite !Forall_cons, IH. tauto.
Qed.

Lemma pretty_N_char_ascii (x : N) : (N_of_ascii (pretty_N_char x) < 128)%N.
Proof. unfold pretty_N_char. repeat case_match; by vm_compute. Qed.

Lemma pretty_N_go_ascii (x : N) :
  ∀ s, Spec.ascii_text s → Spec.ascii_text (pretty_N_go x s).
Proof.
  induction x as [x IH] using (well_founded_induction N.lt_wf_0).
  intros s Hs. destruct (decide (0 < x)%N) as [Hx|Hx].
  - rewrite pretty_N_go_step by done. apply IH.
    + by apply N.div_lt.
    + constructor; [apply pretty_N_char_ascii|done].
  - assert (x = 0%N) as -> by lia. by rewrite pretty_N_go_0.
Qed.

Lemma pretty_N_ascii (x : N) : Spec.ascii_text (pretty x).
Proof.
  unfold pretty, pretty_N. destruct (decide (x = 0%N)).
  - by repeat constructor.
  - apply pretty_N_go_ascii. constructor.
Qed.

Lemma pretty_Z_ascii (x : Z) : Spec.ascii_text (pretty x).
Proof.
  destruct x as [|p|p]; unfold pretty, pretty_Z.
  - by repeat constructor.
  - apply pretty_N_ascii.
  - apply ascii_text_app. split; [by repeat constructor|apply pretty_N_ascii].
Qed.

Lemma str_mul_x_ascii (n : Z) : Spec.ascii_text (str_mul "x" n).
Proof.
  unfold str_mul. induction (Z.to_nat n) as [|k IH]; [constructor|].
  simpl. constructor; [by vm_compute|exact IH].
Qed.

Lemma data_message_ascii (counter timestamp n : Z) :
  Spec.ascii_text (Publisher.data_message counter timestamp (str_mul "x" n)).
Proof.
  unfold Publisher.data_message.
  repeat (apply ascii_text_app; split);
    auto using pretty_Z_ascii, str_mul_x_ascii; by repeat constructor.
Qed.

(** C9. While the parameters of the run stay as they were when the thread
    started, message number [k] of the run (from 0) is the ASCII text
    "k:stamp:filler", the filler being the character x repeated
    [messagesize] times, published on
    "counter/instance_id/qos/delay/messagesize" with the agent's qos; the
    sequence numbers are 0, 1, 2, ... and the counter ends at the number
    of messages. *)
Theorem wire_format (self : Publisher.t) (start : Q)
    (env : list Publisher.observation) (pubs : list publication) (final : Z) :
  Publisher.publish_messages self start env = (pubs, final) →
  Forall (λ o, Publisher.messagesize (Publisher.agent o) = Publisher.messagesize self
               ∧ Publisher.qos (Publisher.agent o) = Publisher.qos self) env →
  0 ≤ Publisher.messagesize self →
  final = Z.of_nat (length pubs)
  ∧ ∀ (k : nat) p, pubs !! k = Some p →
      ∃ (emitted_at : Z) (filler : string),
        pub_payload p
        = pretty (Z.of_nat k) +:+ ":" +:+ pretty emitted_at +:+ ":" +:+ filler
        ∧ filler
          = string_of_list_ascii
              (replicate (Z.to_nat (Publisher.messagesize self)) "x"%char)
        ∧ Z.of_nat (String.length filler) = Publisher.messagesize self
        ∧ Spec.ascii_text (pub_payload p)
        ∧ pub_topic p
          = "counter/" +:+ pretty (Publisher.instance_id self) +:+ "/"
            +:+ pretty (Publisher.qos self) +:+ "/"
            +:+ pretty (Publisher.delay self) +:+ "/"
            +:+ pretty (Publisher.messagesize self)
        ∧ pub_qos p = Publisher.qos self.
Proof.
  intros Hrun Henv Hsize. unfold Publisher.publish_messages in Hrun.
  destruct (publish_loop_spec _ _ _ _ _ _ Hrun) as [Hfinal Hmsgs].
  split; [lia|]. intros k p Hk.
  destruct (Hmsgs k p Hk) as (o & Ho & Htopic & Hpayload & Hqos).
  rewrite Forall_forall in Henv.
  destruct (Henv o) as [Hms Hq]; [by eapply list_elem_of_lookup_2|].
  rewrite Hms in Hpayload. rewrite Z.add_0_l in Hpayload.
  exists (Publisher.stamp_ms o), (str_mul "x" (Publisher.messagesize self)).
  split; [exact Hpayload|]. split; [apply str_mul_x|].
  split; [by apply length_str_mul_x|].
  split; [rewrite Hpayload; apply data_message_ascii|].
  split; [exact Htopic|]. congruence.
Qed.

(** Two turns of the loop of agent 3: messages 0 and 1, four bytes of
    filler each. *)
Lemma wire_format_witness :
  Publisher.publish_messages agent3 0%Q two_turns
  = ([ {| pub_topic := "counter/3/1/0/4"; pub_payload := "0:1000:xxxx"; pub_qos := 1 |};
       {| pub_topic := "counter/3/1/0/4"; pub_payload := "1:1007:xxxx"; pub_qos := 1 |} ],
     2)
  ∧ ∀ (k : nat) p,
      (Publisher.publish_messages agent3 0%Q two_turns).1 !! k = Some p →
      Spec.ascii_text (pub_payload p) ∧ pub_topic p = "counter/3/1/0/4".
Proof.
  split; [vm_compute; reflexivity|]. intros k p Hk.
  destruct (wire_format agent3 0%Q two_turns _ _ eq_refl) as [_ Hmsgs].
  - repeat constructor.
  - vm_compute. discriminate.
  - destruct (Hmsgs k p Hk) as (ts & filler & _ & _ & _ & Hascii & Htopic & _).
    split; [exact Hascii|]. rewrite Htopic. vm_compute. reflexivity.
Defined.

End Claims.

(** * Further properties of the two programs *)

Module TextFacts.
Import AnalyzerFacts.

(** ** Numbers as text: [str(n)] read back by [int] *)

Lemma digit_not_space (c : ascii) (d : Z) :
  digit_value c = Some d → is_space c = false.
Proof.
  unfold digit_value, is_space. intros H.
  destruct (48 <=? Z.of_N (N_of_ascii c)) eqn:H1; [|discriminate].
  destruct (Z.of_N (N_of_ascii c) <=? 57) eqn:H2; [|discriminate].
  apply Z.leb_le in H1, H2.
  destruct (N.leb_spec (N_of_ascii c) 13); [lia|].
  destruct (N.leb_spec (N_of_ascii c) 32); [lia|].
  by rewrite !andb_false_r.
Qed.

Lemma digit_value_range (c : ascii) (d : Z) :
  digit_value c = Some d → 0 ≤ d ≤ 9 ∧ Z.of_N (N_of_ascii c) = 48 + d.
Proof.
  unfold digit_value. intros H.
  destruct (48 <=? Z.of_N (N_of_ascii c)) eqn:H1; [|discriminate].
  destruct (Z.of_N (N_of_ascii c) <=? 57) eqn:H2; [|discriminate].
  apply Z.leb_le in H1, H2. injection H as <-. lia.
Qed.

Lemma digit_value_pretty (d : N) :
  (d < 10)%N → digit_value (pretty_N_char d) = Some (Z.of_N d).
Proof.
  intros Hd.
  do 10 (destruct d as [|d] using N.peano_ind; [reflexivity|]).
  lia.
Qed.

Lemma lstrip_id (c : ascii) (l : list ascii) :
  is_space c = false → lstrip (c :: l) = c :: l.
Proof. intros H. simpl. by rewrite H. Qed.

(** The characters that [pretty_N_go] puts in front of its accumulator:
    decimal digits, which [parse_digits] reads back to the number. *)
Lemma pretty_N_go_digits (x : N) :
  (0 < x)%N →
  ∃ l : list ascii,
    l ≠ []
    ∧ Forall (λ c, is_Some (digit_value c)) l
    ∧ (∀ s, list_ascii_of_string (pretty_N_go x s) = l ++ list_ascii_of_string s)
    ∧ ∀ acc b rest,
        parse_digits acc b (l ++ rest)
        = parse_digits (acc * 10 ^ Z.of_nat (length l) + Z.of_N x) true rest.
Proof.
  induction x as [x IH] using (well_founded_induction N.lt_wf_0). intros Hx.
  assert (Hc : digit_value (pretty_N_char (x `mod` 10)) = Some (Z.of_N (x `mod` 10)%N)).
  { apply digit_value_pretty. by apply N.mod_lt. }
  destruct (decide (0 < x `div` 10)%N) as [Hq|Hq].
  - destruct (IH (x `div` 10)%N) as (l & Hne & Hdig & Hstr & Hparse);
      [by apply N.div_lt|done|].
    exists (l ++ [pretty_N_char (x `mod` 10)]). split; [by destruct l|].
    split; [apply Forall_app; split; [done|]; constructor; [by rewrite Hc|constructor]|].
    split.
    + intros s. rewrite pretty_N_go_step by done. rewrite Hstr. simpl.
      by rewrite <- app_assoc.
    + intros acc b rest. rewrite <- app_assoc, Hparse. simpl. rewrite Hc.
      f_equal. rewrite length_app. simpl length.
      rewrite Nat2Z.inj_add, Z.pow_add_r by lia.
      pose proof (N.div_mod x 10 ltac:(done)) as Hdm.
      rewrite N2Z.inj_div, N2Z.inj_mod. change (Z.of_N 10) with 10.
      pose proof (Z.div_mod (Z.of_N x) 10 ltac:(done)). change (10 ^ Z.of_nat 1) with 10.
      lia.
  - assert (Hq0 : (x `div` 10 = 0)%N).
    { by destruct (N.eq_0_gt_0_cases (x `div` 10)). }
    exists [pretty_N_char (x `mod` 10)]. split; [done|].
    split; [constructor; [by rewrite Hc|constructor]|]. split.
    + intros s. rewrite pretty_N_go_step by done. by rewrite Hq0, pretty_N_go_0.
    + intros acc b rest. simpl. rewrite Hc. f_equal.
      rewrite N2Z.inj_mod. change (Z.of_N 10) with 10.
      pose proof (Z.div_mod (Z.of_N x) 10 ltac:(done)) as Hdm.
      assert (Z.of_N x `div` 10 = 0).
      { change 10 with (Z.of_N 10). by rewrite <- N2Z.inj_div, Hq0. }
      change (Z.pos (Pos.of_succ_nat 0)) with 1. lia.
Qed.

(** The text of a positive number: digits only, at least one. *)
Lemma pretty_positive_digits (p : positive) :
  ∃ l : list ascii,
    l ≠ []
    ∧ Forall (λ c, is_Some (digit_value c)) l
    ∧ list_ascii_of_string (pretty (Zpos p)) = l
    ∧ parse_digits 0 false l = Some (Zpos p).
Proof.
  destruct (pretty_N_go_digits (Npos p)) as (l & Hne & Hdig & Hstr & Hparse); [done|].
  exists l. split; [done|]. split; [done|]. split.
  - change (pretty (Zpos p)) with (pretty_N_go (Npos p) ""). rewrite Hstr. simpl.
    by rewrite app_nil_r.
  - rewrite <- (app_nil_r l) at 1. rewrite Hparse. done.
Qed.

Lemma lstrip_digits (l : list ascii) :
  l ≠ [] → Forall (λ c, is_Some (digit_value c)) l →
  reverse (lstrip (reverse (lstrip l))) = l.
Proof.
  intros Hne Hdig.
  assert (Hstrip : ∀ l', l' ≠ [] → Forall (λ c, is_Some (digit_value c)) l' →
                         lstrip l' = l').
  { intros [|c l'] Hne' Hd; [done|]. apply Forall_cons in Hd as [[d Hd] _].
    apply lstrip_id. by eapply digit_not_space. }
  rewrite (Hstrip l) by done.
  rewrite Hstrip.
  - apply reverse_involutive.
  - intros Hrev. apply Hne. by rewrite <- (reverse_involutive l), Hrev.
  - by apply Forall_reverse.
Qed.

(** [int(str(n)) == n] *)
Lemma int_ascii_pretty (z : Z) : int_ascii (pretty z) = Ok z.
Proof.
  destruct z as [|p|p].
  - reflexivity.
  - destruct (pretty_positive_digits p) as (l & Hne & Hdig & Hstr & Hparse).
    unfold int_ascii. rewrite Hstr, (lstrip_digits l) by done.
    destruct l as [|c l]; [done|].
    pose proof Hdig as Hdig'. apply Forall_cons in Hdig' as [[d Hd] _].
    rewrite bool_decide_eq_false_2 by (intros ->; discriminate).
    rewrite bool_decide_eq_false_2 by (intros ->; discriminate).
    cbn [fst snd]. by rewrite Hparse.
  - destruct (pretty_positive_digits p) as (l & Hne & Hdig & Hstr & Hparse).
    unfold int_ascii.
    change (pretty (Zneg p)) with ("-" +:+ pretty (Zpos p)).
    change (list_ascii_of_string ("-" +:+ pretty (Zpos p)))
      with ("-"%char :: list_ascii_of_string (pretty (Zpos p))).
    rewrite Hstr.
    assert (Hbody : reverse (lstrip (reverse (lstrip ("-"%char :: l))))
                    = "-"%char :: l).
    { rewrite lstrip_id by reflexivity.
      destruct (exists_last Hne) as (l' & c & ->).
      apply Forall_app in Hdig as [_ Hc]. apply Forall_cons in Hc as [[d Hd] _].
      rewrite app_comm_cons, reverse_snoc.
      rewrite lstrip_id by (by eapply digit_not_space).
      by rewrite reverse_cons, reverse_involutive. }
    rewrite Hbody. rewrite bool_decide_eq_true_2 by done.
    cbn [fst snd]. by rewrite Hparse.
Qed.

(** The text of a number holds digits and at most a sign. *)
Lemma pretty_Z_chars (z : Z) :
  Forall (λ c, is_Some (digit_value c) ∨ c = "-"%char)
         (list_ascii_of_string (pretty z)).
Proof.
  destruct z as [|p|p].
  - constructor; [left; by eexists|constructor].
  - destruct (pretty_positive_digits p) as (l & _ & Hdig & -> & _).
    eapply Forall_impl; [exact Hdig|]. by left.
  - change (pretty (Zneg p)) with ("-" +:+ pretty (Zpos p)).
    change (list_ascii_of_string ("-" +:+ pretty (Zpos p)))
      with ("-"%char :: list_ascii_of_string (pretty (Zpos p))).
    constructor; [by right|].
    destruct (pretty_positive_digits p) as (l & _ & Hdig & -> & _).
    eapply Forall_impl; [exact Hdig|]. by left.
Qed.

Lemma pretty_Z_no_slash (z : Z) : "/"%char ∉ list_ascii_of_string (pretty z).
Proof.
  intros Hin. pose proof (pretty_Z_chars z) as H. rewrite Forall_forall in H.
  destruct (H _ Hin) as [[d Hd]|Hd]; discriminate.
Qed.

Lemma pretty_Z_no_colon (z : Z) : ":"%char ∉ list_ascii_of_string (pretty z).
Proof.
  intros Hin. pose proof (pretty_Z_chars z) as H. rewrite Forall_forall in H.
  destruct (H _ Hin) as [[d Hd]|Hd]; discriminate.
Qed.

(** ** [str.split] on text built with its separator *)

Lemma split_limit_0 (sep : ascii) (s : string) : split sep (Some 0%nat) s = [s].
Proof.
  induction s as [|c s IH]; [done|]. cbn [split andb]. by rewrite IH.
Qed.

Lemma split_no_sep (sep : ascii) (limit : option nat) (s : string) :
  sep ∉ list_ascii_of_string s → split sep limit s = [s].
Proof.
  induction s as [|c s IH]; [done|]. simpl list_ascii_of_string.
  rewrite not_elem_of_cons. intros [Hc Hs]. cbn [split].
  rewrite (bool_decide_eq_false_2 (c = sep)) by congruence.
  rewrite andb_false_r. by rewrite IH.
Qed.

Lemma split_app_sep (sep : ascii) (limit : option nat) (s1 s2 : string) :
  sep ∉ list_ascii_of_string s1 → limit ≠ Some 0%nat →
  split sep limit (s1 +:+ String sep s2)
  = s1 :: split sep (Nat.pred <$> limit) s2.
Proof.
  intros Hs1 Hlimit. induction s1 as [|c s1 IH].
  - change ("" +:+ String sep s2) with (String sep s2). cbn [split].
    rewrite bool_decide_eq_true_2 by done.
    by destruct limit as [[|n]|].
  - simpl list_ascii_of_string in Hs1. apply not_elem_of_cons in Hs1 as [Hc Hs1].
    change (String c s1 +:+ String sep s2) with (String c (s1 +:+ String sep s2)).
    cbn [split].
    rewrite (bool_decide_eq_false_2 (c = sep)) by congruence.
    rewrite andb_false_r. by rewrite IH.
Qed.

(** ** [bytes.decode] on ASCII text *)

Lemma decode_ascii (s : string) : Spec.ascii_text s → decode s = Ok s.
Proof.
  intros Hs. unfold decode.
  assert (H : utf8_valid (byte_values s) = true); [|by rewrite H].
  unfold Spec.ascii_text in Hs. unfold byte_values.
  induction Hs as [|c l Hc Hl IH]; [done|].
  cbn [fmap list_fmap utf8_valid].
  destruct (N.leb_spec (N_of_ascii c) 127); [exact IH|lia].
Qed.

End TextFacts.

Module Further.
Import Aux AnalyzerFacts OnMessageFacts PublisherFacts Examples Claims TextFacts.

(** ** What the publisher writes, the analyzer reads *)

Lemma startswith_app (p s : string) : startswith (p +:+ s) p = true.
Proof.
  unfold startswith. induction p as [|a p IH].
  - by destruct s.
  - change (String a p +:+ s) with (String a (p +:+ s)). cbn [String.prefix].
    by destruct (ascii_dec a a).
Qed.

Lemma data_topic_counter (instance_id qos delay messagesize : Z) :
  startswith (Publisher.data_topic instance_id qos delay messagesize) "counter/"
  = true.
Proof. apply startswith_app. Qed.

(** The levels of a data topic. *)
Lemma split_data_topic (instance_id qos delay messagesize : Z) :
  split "/" None (Publisher.data_topic instance_id qos delay messagesize)
  = ["counter"; pretty instance_id; pretty qos; pretty delay; pretty messagesize].
Proof.
  unfold Publisher.data_topic.
  change ("counter/" +:+ pretty instance_id +:+ "/" +:+ pretty qos +:+ "/"
          +:+ pretty delay +:+ "/" +:+ pretty messagesize)
    with ("counter" +:+ String "/" (pretty instance_id +:+ String "/"
            (pretty qos +:+ String "/" (pretty delay +:+ String "/"
               (pretty messagesize))))).
  rewrite split_app_sep; [|cbn [list_ascii_of_string];
    repeat (apply not_elem_of_cons; split; [discriminate|]); apply not_elem_of_nil|done].
  do 3 (rewrite split_app_sep; [|apply pretty_Z_no_slash|done]).
  by rewrite split_no_sep by apply pretty_Z_no_slash.
Qed.

(** The three parts of a data message, whatever the filler holds. *)
Lemma split_data_message (counter timestamp : Z) (x_string : string) :
  split ":" (Some 2%nat) (Publisher.data_message counter timestamp x_string)
  = [pretty counter; pretty timestamp; x_string].
Proof.
  unfold Publisher.data_message.
  change (pretty counter +:+ ":" +:+ pretty timestamp +:+ ":" +:+ x_string)
    with (pretty counter +:+ String ":" (pretty timestamp +:+ String ":" x_string)).
  do 2 (rewrite split_app_sep; [|apply pretty_Z_no_colon|done]).
  cbn [fmap option_fmap option_map Nat.pred]. by rewrite split_limit_0.
Qed.

Lemma parse_published (instance_id qos delay messagesize counter timestamp : Z)
    (x_string : string) :
  Spec.parse_data_message int_ascii
    (Publisher.data_topic instance_id qos delay messagesize)
    (Publisher.data_message counter timestamp x_string)
  = Ok (instance_id, counter, timestamp).
Proof.
  unfold Spec.parse_data_message.
  rewrite split_data_topic, split_data_message.
  cbn [getitem lookup list_lookup]. rewrite !bind_Ok.
  by rewrite !int_ascii_pretty, !bind_Ok.
Qed.

(** The two statements that store, as a fact about the dictionary. *)
Lemma store_insert (instance_id counter timestamp : Z) (mr : gmap Z (gmap Z Z)) :
  Analyzer.store instance_id counter timestamp mr
  = <[instance_id := <[counter := timestamp]> (default ∅ (mr !! instance_id))]> mr.
Proof.
  unfold Analyzer.store. case_bool_decide as Hin.
  - apply elem_of_dom in Hin as [m Hm].
    by rewrite lookup_total_alt, Hm.
  - apply not_elem_of_dom in Hin.
    rewrite lookup_total_insert_eq, insert_insert_eq, Hin. done.
Qed.

Lemma on_message_published (float_of_str : string → res spec_float)
    (self : Analyzer.t) (instance_id qos delay messagesize counter timestamp n : Z) :
  Analyzer.on_message int_ascii float_of_str self
    {| topic := Publisher.data_topic instance_id qos delay messagesize;
       payload := Publisher.data_message counter timestamp (str_mul "x" n) |}
  = Ok (Analyzer.set_messages_received
          (Analyzer.store instance_id counter timestamp
             (Analyzer.messages_received self)) self).
Proof.
  eapply on_message_well_formed.
  - apply data_topic_counter.
  - apply decode_ascii, data_message_ascii.
  - apply parse_published.
Qed.

(** A data message as [publish_messages] builds it, for any sequence
    number, time stamp and filler length (negative numbers included),
    received by [Analyzer.on_message]: the callback returns, the time stamp
    is recorded under the publisher and the sequence number that were
    sent, and nothing else of the analyzer changes. *)
Theorem published_message_recorded (float_of_str : string → res spec_float)
    (self : Analyzer.t)
    (instance_id qos delay messagesize counter timestamp n : Z) :
  ∃ self',
    Analyzer.on_message int_ascii float_of_str self
      {| topic := Publisher.data_topic instance_id qos delay messagesize;
         payload := Publisher.data_message counter timestamp (str_mul "x" n) |}
    = Ok self'
    ∧ Analyzer.messages_received self'
      = <[instance_id :=
            <[counter := timestamp]>
              (default ∅ (Analyzer.messages_received self !! instance_id))]>
          (Analyzer.messages_received self)
    ∧ Analyzer.sys_metrics self' = Analyzer.sys_metrics self
    ∧ Analyzer.results self' = Analyzer.results self
    ∧ Analyzer.current_test self' = Analyzer.current_test self
    ∧ Analyzer.test_start_time self' = Analyzer.test_start_time self
    ∧ Analyzer.test_end_time self' = Analyzer.test_end_time self.
Proof.
  eexists. split; [apply on_message_published|].
  split; [apply store_insert|]. by repeat split.
Qed.

(** *** A whole run, delivered in part, again and out of order *)

Lemma deliver_cons (int_of_str : string → res Z)
    (float_of_str : string → res spec_float)
    (self : Analyzer.t) (msg : message) (msgs : list message) :
  Analyzer.deliver int_of_str float_of_str self (msg :: msgs)
  = Analyzer.on_message int_of_str float_of_str self msg
    ≫= λ self', Analyzer.deliver int_of_str float_of_str self' msgs.
Proof. reflexivity. Qed.

Lemma deliver_app (int_of_str : string → res Z)
    (float_of_str : string → res spec_float) (msgs1 msgs2 : list message) :
  ∀ self : Analyzer.t,
    Analyzer.deliver int_of_str float_of_str self (msgs1 ++ msgs2)
    = Analyzer.deliver int_of_str float_of_str self msgs1
      ≫= λ self', Analyzer.deliver int_of_str float_of_str self' msgs2.
Proof.
  induction msgs1 as [|msg msgs1 IH]; intros self; [done|].
  rewrite <- app_comm_cons, !deliver_cons.
  destruct (Analyzer.on_message int_of_str float_of_str self msg) as [self1|e];
    [|done].
  rewrite !bind_Ok. apply IH.
Qed.

(** Data messages of one publisher, given by sequence number, time stamp
    and filler length. *)
Lemma deliver_data_messages (float_of_str : string → res spec_float)
    (instance_id qos delay messagesize : Z) (l : list (Z * Z * Z)) :
  ∀ self : Analyzer.t,
    Analyzer.deliver int_ascii float_of_str self
      ((λ x, {| topic := Publisher.data_topic instance_id qos delay messagesize;
                payload := Publisher.data_message x.1.1 x.1.2 (str_mul "x" x.2) |})
         <$> l)
    = Ok (Analyzer.set_messages_received
            (foldl (λ mr x, Analyzer.store instance_id x.1.1 x.1.2 mr)
                   (Analyzer.messages_received self) l) self).
Proof.
  induction l as [|x l IH]; intros self.
  - cbn. by rewrite set_messages_received_same.
  - rewrite fmap_cons, deliver_cons, on_message_published, bind_Ok, IH.
    by destruct self.
Qed.

Lemma foldl_store_lookup (instance_id : Z) (l : list (Z * Z * Z)) :
  ∀ mr : gmap Z (gmap Z Z),
    default ∅ (foldl (λ mr x, Analyzer.store instance_id x.1.1 x.1.2 mr) mr l
               !! instance_id)
    = foldl (λ (m : gmap Z Z) x, <[x.1.1 := x.1.2]> m)
            (default ∅ (mr !! instance_id)) l.
Proof.
  induction l as [|x l IH]; intros mr; [done|].
  cbn [foldl]. rewrite IH, store_insert, lookup_insert_eq. done.
Qed.

(** A dictionary filled from pairs in which a key always comes with the
    same value holds exactly these pairs. *)
Lemma foldl_insert_lookup (l : list (Z * Z * Z)) (k v : Z) :
  (∀ x y, x ∈ l → y ∈ l → x.1.1 = y.1.1 → x.1.2 = y.1.2) →
  foldl (λ (m : gmap Z Z) x, <[x.1.1 := x.1.2]> m) ∅ l !! k = Some v
  ↔ ∃ x, x ∈ l ∧ x.1.1 = k ∧ x.1.2 = v.
Proof.
  induction l as [|x l IH] using rev_ind; intros Hfun.
  - cbn. rewrite lookup_empty. split; [done|]. by intros (x & ?%elem_of_nil & _).
  - rewrite foldl_app. cbn [foldl]. rewrite lookup_insert_Some, IH.
    + split.
      * intros [[<- <-]|[Hne (y & Hy & Hk & Hv)]].
        -- exists x. split; [|done]. apply elem_of_app. right. by left.
        -- exists y. split; [|done]. apply elem_of_app. by left.
      * intros (y & Hy & Hk & Hv). apply elem_of_app in Hy as [Hy|Hy].
        -- destruct (decide (x.1.1 = k)) as [Heq|Hne].
           ++ left. split; [done|]. rewrite <- Hv. apply Hfun.
              ** apply elem_of_app. right. by left.
              ** apply elem_of_app. by left.
              ** congruence.
           ++ right. split; [done|]. by exists y.
        -- apply list_elem_of_singleton in Hy as ->. by left.
    + intros y z Hy Hz. apply Hfun; apply elem_of_app; by left.
Qed.

(** The messages that the loop published, chosen by position. *)
Lemma received_published (topic : string) (end_time : Q)
    (env : list Publisher.observation) (pubs : list publication) (final : Z)
    (ks : list nat) :
  Publisher.publish_loop topic end_time 0 env = (pubs, final) →
  Forall (λ i, i < length pubs)%nat ks →
  received <$> omap (pubs !!.) ks
  = (λ x, {| Mqtt.topic := topic;
             payload := Publisher.data_message x.1.1 x.1.2 (str_mul "x" x.2) |})
    <$> omap (λ i, o ← env !! i;
                   Some (Z.of_nat i, Publisher.stamp_ms o,
                         Publisher.messagesize (Publisher.agent o))) ks.
Proof.
  intros Hloop Hks.
  destruct (publish_loop_spec _ _ _ _ _ _ Hloop) as [_ Hmsgs].
  induction Hks as [|i ks Hi Hks IH]; [done|].
  destruct (lookup_lt_is_Some_2 pubs i Hi) as [p Hp].
  destruct (Hmsgs i p Hp) as (o & Ho & Htopic & Hpayload & _).
  cbn [omap list_omap]. rewrite Hp, Ho. cbn [mbind option_bind].
  rewrite !fmap_cons, IH. f_equal.
  unfold received. rewrite Htopic, Hpayload. cbn [fst snd]. by rewrite Z.add_0_l.
Qed.

(** Whatever part of the messages of one run of [publish_messages]
    reaches the analyzer, in whatever order and however often each
    ([ks] lists the positions of the messages delivered, with repetitions),
    the callback never raises, and the analyzer's record for the publisher
    holds exactly the sequence numbers delivered, each with the time stamp
    it was sent with: redelivery and reordering leave no trace. *)
Theorem delivered_messages_recorded (float_of_str : string → res spec_float)
    (p : Publisher.t) (start : Q) (env : list Publisher.observation)
    (pubs : list publication) (final : Z) (ks : list nat) (self : Analyzer.t) :
  Publisher.publish_messages p start env = (pubs, final) →
  Forall (λ i, i < length pubs)%nat ks →
  Analyzer.messages_received self !! Publisher.instance_id p = None →
  ∃ self',
    Analyzer.deliver int_ascii float_of_str self
      (received <$> omap (pubs !!.) ks) = Ok self'
    ∧ ∀ counter timestamp : Z,
        default ∅ (Analyzer.messages_received self' !! Publisher.instance_id p)
          !! counter = Some timestamp
        ↔ ∃ (i : nat) (o : Publisher.observation),
            i ∈ ks ∧ counter = Z.of_nat i ∧ env !! i = Some o
            ∧ timestamp = Publisher.stamp_ms o.
Proof.
  intros Hrun Hks Hnew. unfold Publisher.publish_messages in Hrun.
  rewrite (received_published _ _ _ _ _ _ Hrun Hks).
  rewrite deliver_data_messages. eexists. split; [reflexivity|].
  intros counter timestamp. cbn [Analyzer.messages_received Analyzer.set_messages_received].
  rewrite foldl_store_lookup, Hnew. cbn [default].
  rewrite foldl_insert_lookup.
  - split.
    + intros (x & Hx & <- & <-).
      apply list_elem_of_omap in Hx as (i & Hi & Hx).
      destruct (env !! i) as [o|] eqn:Ho; [|done].
      injection Hx as <-. by exists i, o.
    + intros (i & o & Hi & -> & Ho & ->).
      exists (Z.of_nat i, Publisher.stamp_ms o,
              Publisher.messagesize (Publisher.agent o)).
      split; [|done]. apply list_elem_of_omap. exists i. split; [done|].
      by rewrite Ho.
  - intros x y Hx Hy Hxy.
    apply list_elem_of_omap in Hx as (i & Hi & Hx).
    apply list_elem_of_omap in Hy as (j & Hj & Hy).
    destruct (env !! i) as [o|] eqn:Ho; [|done].
    destruct (env !! j) as [o'|] eqn:Ho'; [|done].
    injection Hx as <-. injection Hy as <-. cbn [fst snd] in *.
    apply Nat2Z.inj in Hxy as ->. congruence.
Qed.

(** Agent 3 publishes two messages; the second arrives first and twice. *)
Lemma delivered_messages_recorded_witness :
  ∃ self',
    Analyzer.deliver int_ascii float_zero_only fresh
      (received
         <$> omap ((Publisher.publish_messages agent3 0%Q two_turns).1 !!.)
               [1; 0; 1]%nat) = Ok self'
    ∧ ∀ counter timestamp : Z,
        default ∅ (Analyzer.messages_received self' !! 3) !! counter
        = Some timestamp
        ↔ ∃ (i : nat) (o : Publisher.observation),
            i ∈ [1; 0; 1]%nat ∧ counter = Z.of_nat i ∧ two_turns !! i = Some o
            ∧ timestamp = Publisher.stamp_ms o.
Proof.
  refine (delivered_messages_recorded float_zero_only agent3 0%Q two_turns
            _ _ [1; 0; 1]%nat fresh eq_refl _ eq_refl).
  repeat constructor.
Defined.

(** ** The analyzer's callback: what one message can change *)

Section Callback.

Variable int_of_str : string → res Z.
Variable float_of_str : string → res spec_float.

Lemma on_message_cases (self self' : Analyzer.t) (msg : message) :
  Analyzer.on_message int_of_str float_of_str self msg = Ok self' →
  (startswith (topic msg) "$SYS/" = true
   ∧ ∃ v, self' = Analyzer.set_sys_metrics
                    (<[topic msg := v]> (Analyzer.sys_metrics self)) self)
  ∨ (startswith (topic msg) "$SYS/" = false
     ∧ startswith (topic msg) "counter/" = true
     ∧ (self' = self
        ∨ ∃ instance_id counter timestamp,
            self' = Analyzer.set_messages_received
                      (<[instance_id :=
                           <[counter := timestamp]>
                             (default ∅ (Analyzer.messages_received self
                                         !! instance_id))]>
                         (Analyzer.messages_received self)) self))
  ∨ (startswith (topic msg) "$SYS/" = false
     ∧ startswith (topic msg) "counter/" = false
     ∧ self' = self).
Proof.
  unfold Analyzer.on_message.
  destruct (decode (payload msg)) as [text|e]; [|discriminate].
  rewrite bind_Ok.
  destruct (startswith (topic msg) "$SYS/").
  - intros H. left. split; [done|].
    destruct (float_of_str text) as [f|[]]; try discriminate;
      injection H as <-; by eexists.
  - destruct (startswith (topic msg) "counter/").
    + intros H. right. left. split; [done|]. split; [done|].
      rewrite counter_body_parse in H.
      destruct (Spec.parse_data_message int_of_str (topic msg) text)
        as [[[id c] ts]|e]; injection H as <-.
      * right. exists id, c, ts. by rewrite store_insert.
      * left. apply set_messages_received_same.
    + intros [= <-]. right. right. done.
Qed.

(** Whatever the message and the two parsers, a call of the callback that
    returns has changed at most one entry of the analyzer: on a [$SYS/]
    topic the value of [sys_metrics] under that topic; on a [counter/]
    topic one time stamp under one publisher of [messages_received], or
    nothing; on any other topic nothing. The parameters of the test, the
    two times and the results stored so far are never touched. *)
Theorem callback_changes_one_entry (self self' : Analyzer.t) (msg : message) :
  Analyzer.on_message int_of_str float_of_str self msg = Ok self' →
  Analyzer.current_test self' = Analyzer.current_test self
  ∧ Analyzer.messages_expected self' = Analyzer.messages_expected self
  ∧ Analyzer.test_start_time self' = Analyzer.test_start_time self
  ∧ Analyzer.test_end_time self' = Analyzer.test_end_time self
  ∧ Analyzer.results self' = Analyzer.results self
  ∧ ((startswith (topic msg) "$SYS/" = true
      ∧ Analyzer.messages_received self' = Analyzer.messages_received self
      ∧ ∃ v, Analyzer.sys_metrics self'
             = <[topic msg := v]> (Analyzer.sys_metrics self))
     ∨ (startswith (topic msg) "$SYS/" = false
        ∧ startswith (topic msg) "counter/" = true
        ∧ Analyzer.sys_metrics self' = Analyzer.sys_metrics self
        ∧ (Analyzer.messages_received self' = Analyzer.messages_received self
           ∨ ∃ instance_id counter timestamp,
               Analyzer.messages_received self'
               = <[instance_id :=
                     <[counter := timestamp]>
                       (default ∅ (Analyzer.messages_received self
                                   !! instance_id))]>
                   (Analyzer.messages_received self)))
     ∨ (startswith (topic msg) "$SYS/" = false
        ∧ startswith (topic msg) "counter/" = false
        ∧ self' = self)).
Proof.
  intros H.
  destruct (on_message_cases _ _ _ H)
    as [[Hsys [v ->]]|[(Hsys & Hc & [->|(id & c & ts & ->)])|(Hsys & Hc & ->)]].
  - do 5 (split; [done|]). left. split; [done|]. split; [done|]. by exists v.
  - do 5 (split; [done|]). right. left. do 3 (split; [done|]). by left.
  - do 5 (split; [done|]). right. left. do 3 (split; [done|]). right.
    by exists id, c, ts.
  - do 5 (split; [done|]). right. right. done.
Qed.

(** *** No publisher is recorded without a message *)

Lemma on_message_no_empty_record (self self' : Analyzer.t) (msg : message) :
  Analyzer.on_message int_of_str float_of_str self msg = Ok self' →
  map_Forall (λ _ (m : gmap Z Z), m ≠ ∅) (Analyzer.messages_received self) →
  map_Forall (λ _ (m : gmap Z Z), m ≠ ∅) (Analyzer.messages_received self').
Proof.
  intros H Hinv.
  destruct (on_message_cases _ _ _ H)
    as [[Hsys [v ->]]|[(Hsys & Hc & [->|(id & c & ts & ->)])|(Hsys & Hc & ->)]];
    try done.
  cbn [Analyzer.messages_received Analyzer.set_messages_received].
  apply map_Forall_insert_2; [|done]. apply insert_non_empty.
Qed.

Lemma deliver_no_empty_record (msgs : list message) :
  ∀ self self' : Analyzer.t,
    Analyzer.deliver int_of_str float_of_str self msgs = Ok self' →
    map_Forall (λ _ (m : gmap Z Z), m ≠ ∅) (Analyzer.messages_received self) →
    map_Forall (λ _ (m : gmap Z Z), m ≠ ∅) (Analyzer.messages_received self').
Proof.
  induction msgs as [|msg msgs IH]; intros self self' Hrun Hinv.
  - by injection Hrun as <-.
  - rewrite deliver_cons in Hrun.
    destruct (Analyzer.on_message int_of_str float_of_str self msg)
      as [self1|e] eqn:H1; [|discriminate].
    rewrite bind_Ok in Hrun. eapply IH; [exact Hrun|].
    by eapply on_message_no_empty_record.
Qed.

Lemma contributing_all (mr : gmap Z (gmap Z Z)) :
  map_Forall (λ _ (m : gmap Z Z), m ≠ ∅) mr →
  Spec.contributing mr = (map_to_list mr).*2.
Proof.
  intros Hinv. unfold Spec.contributing.
  assert (H : Forall (λ m : gmap Z Z, m ≠ ∅) (map_to_list mr).*2).
  { apply Forall_fmap, Forall_forall. intros [id m] Hin.
    apply elem_of_map_to_list in Hin. by apply (Hinv id m). }
  induction H as [|m l Hm Hl IH]; [done|].
  rewrite filter_cons_True by done. by rewrite IH.
Qed.

(** The callback never records a publisher without a message: when no
    recorded stream is empty (as after the reset of [run_test]), none is
    after any number of messages, so the [continue] of
    [calculate_results] is never taken and every recorded publisher
    contributes one value to each average. *)
Theorem no_publisher_without_message (self self' : Analyzer.t)
    (msgs : list message) :
  Analyzer.deliver int_of_str float_of_str self msgs = Ok self' →
  map_Forall (λ _ (m : gmap Z Z), m ≠ ∅) (Analyzer.messages_received self) →
  map_Forall (λ _ (m : gmap Z Z), m ≠ ∅) (Analyzer.messages_received self')
  ∧ Spec.contributing (Analyzer.messages_received self')
    = (map_to_list (Analyzer.messages_received self')).*2
  ∧ ∃ vals r,
      Analyzer.compute_result self' = Ok r
      ∧ Forall2 (λ m v,
                   Analyzer.publisher_metrics
                     (Analyzer.delay (Analyzer.current_test self')) m = Ok v)
                (map_to_list (Analyzer.messages_received self')).*2 vals
      ∧ Analyzer.mean_or_zero (Analyzer.v_message_loss <$> vals)
        = Ok (Analyzer.avg_message_loss r)
      ∧ length vals = size (Analyzer.messages_received self').
Proof.
  intros Hrun Hinv.
  pose proof (deliver_no_empty_record _ _ _ Hrun Hinv) as Hinv'.
  pose proof (contributing_all _ Hinv') as Hall.
  split; [done|]. split; [done|].
  destruct (compute_result_spec self') as (vals & r & Hvals & Hr & _ & Hloss & _).
  cbv zeta in Hvals. rewrite Hall in Hvals.
  exists vals, r. split; [done|]. split; [done|]. split; [done|].
  apply Forall2_length in Hvals. rewrite <- Hvals, length_fmap.
  by rewrite length_map_to_list.
Qed.

End Callback.

(** A first data message for publisher 1. *)
Lemma callback_changes_one_entry_witness :
  Analyzer.results (with_messages {[1 := {[0 := 1000]}]}) = Analyzer.results fresh
  ∧ Analyzer.current_test (with_messages {[1 := {[0 := 1000]}]})
    = Analyzer.current_test fresh.
Proof.
  destruct (callback_changes_one_entry int_ascii float_zero_only fresh
              (with_messages {[1 := {[0 := 1000]}]}) (data "0:1000:"))
    as (Hct & _ & _ & _ & Hres & _).
  - vm_compute. reflexivity.
  - split; [exact Hres|exact Hct].
Defined.

(** The four receipts of publisher 1, from an analyzer without records. *)
Lemma no_publisher_without_message_witness :
  Spec.contributing {[1 := stream_012]} = [stream_012].
Proof.
  destruct (no_publisher_without_message int_ascii float_zero_only fresh
              (with_messages {[1 := stream_012]}) receipts_0112)
    as (_ & Hall & _).
  - vm_compute. reflexivity.
  - apply map_Forall_empty.
  - cbn [Analyzer.messages_received with_messages Analyzer.set_messages_received]
      in Hall.
    rewrite Hall. by rewrite map_to_list_singleton.
Defined.

(** ** The loss of one publisher *)

(** Sequence numbers between 0 and [M]: at most [M + 1] of them. *)
Lemma len_le_max (messages : gmap Z Z) (M : Z) :
  0 ≤ M →
  (∀ k, is_Some (messages !! k) → 0 ≤ k ≤ M) →
  Analyzer.len messages ≤ M + 1.
Proof.
  intros HM Hk. unfold Analyzer.len.
  assert (Hsub : dom messages ⊆ (list_to_set (seqZ 0 (M + 1)) : gset Z)).
  { intros k Hin. apply elem_of_dom in Hin. apply elem_of_list_to_set.
    apply elem_of_seqZ. specialize (Hk k Hin). lia. }
  apply subseteq_size in Hsub.
  rewrite size_dom, size_list_to_set, length_seqZ in Hsub by apply NoDup_seqZ.
  lia.
Qed.

Lemma len_pos (messages : gmap Z Z) : messages ≠ ∅ → 0 < Analyzer.len messages.
Proof.
  intros Hne. unfold Analyzer.len.
  destruct (size messages) eqn:Hs; [|lia].
  by apply map_size_empty_iff in Hs.
Qed.

Lemma Qdiv_inject_le_1 (a e : Z) :
  0 < e → a ≤ e → (inject_Z a / inject_Z e <= 1)%Q.
Proof.
  intros He Hae. apply Qle_shift_div_r.
  - change 0%Q with (inject_Z 0). rewrite <- Zlt_Qlt. lia.
  - rewrite Qmult_1_l. by rewrite <- Zle_Qle.
Qed.

Lemma Qdiv_inject_pos (a e : Z) :
  0 < e → 0 < a → (0 < inject_Z a / inject_Z e)%Q.
Proof.
  intros He Ha. apply Qlt_shift_div_l.
  - change 0%Q with (inject_Z 0). rewrite <- Zlt_Qlt. lia.
  - rewrite Qmult_0_l. change 0%Q with (inject_Z 0). rewrite <- Zlt_Qlt. lia.
Qed.

Lemma Qdiv_inject_gt_1 (a e : Z) :
  0 < e → (1 < inject_Z a / inject_Z e)%Q ↔ e < a.
Proof.
  intros He.
  assert (Hpos : (0 < inject_Z e)%Q).
  { change 0%Q with (inject_Z 0). rewrite <- Zlt_Qlt. lia. }
  split.
  - intros H. destruct (Z_lt_le_dec e a) as [|Hle]; [done|].
    pose proof (Qdiv_inject_le_1 a e He Hle) as H1.
    exfalso. by apply (Qlt_not_le _ _ H).
  - intros Hlt. apply Qlt_shift_div_l; [done|].
    rewrite Qmult_1_l. by rewrite <- Zlt_Qlt.
Qed.

Lemma Qdiv_inject_lt_1 (a e : Z) :
  0 < e → (inject_Z a / inject_Z e < 1)%Q ↔ a < e.
Proof.
  intros He.
  assert (Hpos : (0 < inject_Z e)%Q).
  { change 0%Q with (inject_Z 0). rewrite <- Zlt_Qlt. lia. }
  split.
  - intros H. destruct (Z_lt_le_dec a e) as [|Hle]; [done|].
    exfalso. apply (Qlt_not_le _ _ H). apply Qle_shift_div_l; [done|].
    rewrite Qmult_1_l. by rewrite <- Zle_Qle.
  - intros Hlt. apply Qlt_shift_div_r; [done|].
    rewrite Qmult_1_l. by rewrite <- Zlt_Qlt.
Qed.



(** With a positive delay the expected count is [30000 // delay] whatever
    was received, so the loss reported for a publisher is below 100, is 0
    for every delay above 30000 ms (the guard [expected_messages > 0]),
    and is negative exactly when more messages were received than that
    count. *)
Theorem fixed_delay_loss_sign (delay : Z) (messages : gmap Z Z) :
  0 < delay →
  messages ≠ ∅ →
  ∃ v, Analyzer.publisher_metrics delay messages = Ok v
       ∧ (Analyzer.v_message_loss v < 100)%Q
       ∧ (30000 < delay → Analyzer.v_message_loss v = 0%Q)
       ∧ (delay ≤ 30000 →
          ((Analyzer.v_message_loss v < 0)%Q
           ↔ 30000 / delay < Analyzer.len messages)
          ∧ ((Analyzer.v_message_loss v == 0)%Q
             ↔ Analyzer.len messages = 30000 / delay)).
Proof.
  intros Hd Hne.
  assert (He : Analyzer.expected_messages delay (sorted (Analyzer.keys messages))
               = Ok (30000 / delay)).
  { unfold Analyzer.expected_messages.
    destruct (Z.eqb_spec delay 0); [lia|].
    by apply B64Facts.theoretical_count_floor. }
  destruct (publisher_metrics_spec delay messages _ He) as (v & Hv & Hloss & _).
  rewrite message_loss_of_Ok in Hloss. injection Hloss as Hloss.
  pose proof (len_pos messages Hne) as Hlen0.
  exists v. split; [done|]. rewrite <- Hloss.
  destruct (Z.ltb_spec 0 (30000 / delay)) as [Hpos|Hzero].
  - assert (Hle : delay ≤ 30000).
    { destruct (Z_lt_le_dec 30000 delay) as [Hgt|]; [|done].
      rewrite Z.div_small in Hpos by lia. lia. }
    pose proof (Qdiv_inject_pos (Analyzer.len messages) _ Hpos Hlen0) as H2.
    pose proof (Qdiv_inject_gt_1 (Analyzer.len messages) _ Hpos) as H3.
    pose proof (Qdiv_inject_lt_1 (Analyzer.len messages) _ Hpos) as H4.
    set (q := (inject_Z (Analyzer.len messages) / inject_Z (30000 / delay))%Q) in *.
    clearbody q. split; [Lqa.lra|]. split; [lia|]. intros _. split.
    + rewrite <- H3. split; intros; Lqa.lra.
    + split.
      * intros Heq.
        destruct (Z.lt_trichotomy (Analyzer.len messages) (30000 / delay))
          as [Hlt|[Heq'|Hgt]]; [|done|].
        -- apply H4 in Hlt. Lqa.lra.
        -- apply H3 in Hgt. Lqa.lra.
      * intros Heq.
        assert (¬ (q < 1)%Q) by (rewrite H4; lia).
        assert (¬ (1 < q)%Q) by (rewrite H3; lia).
        Lqa.lra.
  - split; [done|]. split; [done|]. intros Hle.
    assert (0 < 30000 / delay) by (apply Z.div_str_pos; lia). lia.
Qed.

(** A delay of 100 ms: 300 messages are expected, three were received. *)
Lemma fixed_delay_loss_sign_witness :
  ∃ v, Analyzer.publisher_metrics 100 stream_gaps = Ok v
       ∧ (Analyzer.v_message_loss v < 100)%Q.
Proof.
  destruct (fixed_delay_loss_sign 100 stream_gaps) as (v & Hv & Hlt & _).
  - done.
  - intros H. apply (f_equal size) in H. vm_compute in H. discriminate.
  - by exists v.
Defined.

(** ** The gaps of a stream without a hole *)

Lemma seqZ_sorted (n : nat) : ∀ a, StronglySorted Z.le (seqZ a (Z.of_nat n)).
Proof.
  induction n as [|n IH]; intros a; [constructor|].
  rewrite seqZ_cons by lia.
  replace (Z.pred (Z.of_nat (S n))) with (Z.of_nat n) by lia.
  constructor; [apply IH|].
  apply Forall_forall. intros k Hk. apply elem_of_seqZ in Hk. lia.
Qed.

(** The sequence numbers [first], ..., [first + n] and no other: the
    sorted keys are this interval. *)
Lemma sorted_keys_interval (messages : gmap Z Z) (first : Z) (n : nat) :
  (∀ k, is_Some (messages !! k) ↔ first ≤ k ≤ first + Z.of_nat n) →
  sorted (Analyzer.keys messages) = seqZ first (Z.of_nat (S n)).
Proof.
  intros Hdom.
  apply (StronglySorted_unique Z.le).
  - apply sorted_StronglySorted.
  - apply seqZ_sorted.
  - apply NoDup_Permutation.
    + apply sorted_keys_NoDup.
    + apply NoDup_seqZ.
    + intros k. rewrite elem_of_sorted_keys, Hdom, elem_of_seqZ. lia.
Qed.

Lemma omap_total {A B : Type} (f : A → option B) (g : A → B) (l : list A) :
  Forall (λ x, f x = Some (g x)) l → omap f l = g <$> l.
Proof.
  induction 1 as [|x l Hx Hl IH]; [done|].
  cbn [omap list_omap]. rewrite Hx. cbn. by rewrite <- IH.
Qed.

Lemma gap_samples_interval (messages : gmap Z Z) (first : Z) (n : nat) :
  (∀ k, is_Some (messages !! k) ↔ first ≤ k ≤ first + Z.of_nat n) →
  Spec.gap_samples messages
  = (λ k, messages !!! (k + 1) - messages !!! k) <$> seqZ first (Z.of_nat n).
Proof.
  intros Hdom. unfold Spec.gap_samples.
  rewrite (sorted_keys_interval messages first n Hdom), seqZ_S, omap_app.
  assert (Hlast : omap (Spec.gap_after messages) [first + Z.of_nat n] = []).
  { cbn [omap list_omap]. unfold Spec.gap_after.
    destruct (messages !! (first + Z.of_nat n + 1)) as [t1|] eqn:H1.
    - assert (is_Some (messages !! (first + Z.of_nat n + 1))) as Hin by eauto.
      apply Hdom in Hin. lia.
    - by destruct (messages !! (first + Z.of_nat n)). }
  rewrite Hlast, app_nil_r. apply omap_total.
  apply Forall_forall. intros k Hk. apply elem_of_seqZ in Hk.
  unfold Spec.gap_after.
  destruct (proj2 (Hdom k) ltac:(lia)) as [t0 Ht0].
  destruct (proj2 (Hdom (k + 1)) ltac:(lia)) as [t1 Ht1].
  rewrite Ht0, Ht1. cbn.
  by rewrite (lookup_total_correct _ _ _ Ht0), (lookup_total_correct _ _ _ Ht1).
Qed.

Lemma sum_app (l1 l2 : list Z) :
  foldr Z.add 0 (l1 ++ l2) = foldr Z.add 0 l1 + foldr Z.add 0 l2.
Proof. induction l1 as [|x l1 IH]; simpl; lia. Qed.

(** The differences of neighbours add up to the last value less the
    first. *)
Lemma sum_differences (f : Z → Z) (first : Z) (n : nat) :
  foldr Z.add 0 ((λ k, f (k + 1) - f k) <$> seqZ first (Z.of_nat n))
  = f (first + Z.of_nat n) - f first.
Proof.
  induction n as [|n IH].
  - change (Z.of_nat 0) with 0. replace (first + 0) with first by lia.
    rewrite seqZ_nil by lia. cbn. lia.
  - rewrite seqZ_S, fmap_app, sum_app, IH. cbn.
    replace (first + Z.of_nat n + 1) with (first + Z.of_nat (S n)) by lia. lia.
Qed.

Lemma Qsum_inject_Z (l : list Z) :
  (Qsum (inject_Z <$> l) == inject_Z (foldr Z.add 0%Z l))%Q.
Proof.
  induction l as [|x l IH]; [done|].
  cbn [fmap list_fmap Qsum foldr]. fold (Qsum (inject_Z <$> l)).
  rewrite inject_Z_plus. by rewrite IH.
Qed.

(** For a publisher whose recorded sequence numbers are an interval
    [first .. first + n] without a hole, the loop of [calculate_results]
    finds [n] gaps, they add up to the time stamp of the last message less
    that of the first, and the mean gap reported is that span divided by
    [n] (0 for a single message): the time stamps in between do not
    matter. *)
Theorem contiguous_stream_mean_gap (delay : Z) (messages : gmap Z Z)
    (first : Z) (n : nat) :
  (∀ k, is_Some (messages !! k) ↔ first ≤ k ≤ first + Z.of_nat n) →
  ∃ v gaps,
    Analyzer.publisher_metrics delay messages = Ok v
    ∧ Analyzer.gaps_of messages (sorted (Analyzer.keys messages)) = Ok gaps
    ∧ length gaps = n
    ∧ foldr Z.add 0 gaps
      = messages !!! (first + Z.of_nat n) - messages !!! first
    ∧ (n = 0%nat → Analyzer.v_mean_gap v = 0%Q)
    ∧ ((0 < n)%nat →
       (Analyzer.v_mean_gap v
        == inject_Z (messages !!! (first + Z.of_nat n)%Z - messages !!! first)%Z
           / inject_Z (Z.of_nat n))%Q).
Proof.
  intros Hdom.
  assert (Hne : messages ≠ ∅).
  { intros ->. destruct (proj2 (Hdom first) ltac:(lia)) as [t Ht].
    by rewrite lookup_empty in Ht. }
  destruct (publisher_metrics_total delay messages Hne) as [v Hv].
  destruct (publisher_metrics_inv delay messages v Hv) as (e & _ & _ & _ & _ & Hgs).
  pose proof (gap_samples_interval messages first n Hdom) as Hgaps.
  assert (Hlen : length (Spec.gap_samples messages) = n).
  { rewrite Hgaps, length_fmap, length_seqZ. lia. }
  assert (Hsum : foldr Z.add 0 (Spec.gap_samples messages)
                 = messages !!! (first + Z.of_nat n) - messages !!! first).
  { rewrite Hgaps. apply (sum_differences (λ k, messages !!! k)). }
  destruct (gap_statistics_Ok (Spec.gap_samples messages))
    as (mg & sd & Hgs' & Hmg & _).
  rewrite Hgs in Hgs'. injection Hgs' as Hmg' _.
  exists v, (Spec.gap_samples messages).
  split; [done|]. split; [apply gaps_of_sorted_keys|].
  split; [done|]. split; [done|]. rewrite Hmg', Hmg. split.
  - intros ->. by destruct (Spec.gap_samples messages).
  - intros Hn. destruct (Spec.gap_samples messages) as [|g gaps] eqn:Hg.
    { simpl in Hlen. lia. }
    unfold Spec.arithmetic_mean, Qlen.
    rewrite Qsum_inject_Z, Hsum, length_fmap, Hlen. reflexivity.
Qed.

(** The receipts [{0: 1000, 1: 1100, 2: 1250}]: two gaps, 250 ms in all. *)
Lemma contiguous_stream_mean_gap_witness :
  ∃ v gaps,
    Analyzer.publisher_metrics 0 stream_gaps = Ok v
    ∧ Analyzer.gaps_of stream_gaps (sorted (Analyzer.keys stream_gaps)) = Ok gaps
    ∧ length gaps = 2%nat
    ∧ foldr Z.add 0 gaps = 250
    ∧ (Analyzer.v_mean_gap v == 125)%Q.
Proof.
  destruct (contiguous_stream_mean_gap 0 stream_gaps 0 2)
    as (v & gaps & Hv & Hgaps & Hlen & Hsum & _ & Hmean).
  - intros k. rewrite <- elem_of_dom.
    replace (dom stream_gaps) with (list_to_set (seqZ 0 3) : gset Z)
      by (vm_compute; reflexivity).
    rewrite elem_of_list_to_set, elem_of_seqZ. lia.
  - exists v, gaps. split; [done|]. split; [done|]. split; [done|].
    split; [exact Hsum|]. rewrite Hmean by lia. reflexivity.
Defined.

(** ** The publisher's callback and its thread *)

Section Agent.

Variable int_of_str : string → res Z.

(** A message on any topic but [request/go] starts no thread and leaves
    [running] and [instance_id] as they are; of the four settings it can
    change only the one its topic names, to the number its payload
    carries; a topic that is none of the five changes nothing. So a
    parameter broadcast in the middle of a run does not stop the thread
    that is publishing. *)
Theorem parameter_message_keeps_thread (self self' : Publisher.t)
    (msg : message) (started : list Publisher.effect) :
  Publisher.on_message int_of_str self msg = Ok (self', started) →
  topic msg ≠ "request/go" →
  started = []
  ∧ Publisher.running self' = Publisher.running self
  ∧ Publisher.instance_id self' = Publisher.instance_id self
  ∧ (topic msg ≠ "request/qos" → Publisher.qos self' = Publisher.qos self)
  ∧ (topic msg ≠ "request/delay" → Publisher.delay self' = Publisher.delay self)
  ∧ (topic msg ≠ "request/messagesize" →
     Publisher.messagesize self' = Publisher.messagesize self)
  ∧ (topic msg ≠ "request/instancecount" →
     Publisher.instancecount self' = Publisher.instancecount self)
  ∧ (topic msg ∉ ["request/qos"; "request/delay"; "request/messagesize";
                  "request/instancecount"] → self' = self)
  ∧ ∀ text, decode (payload msg) = Ok text →
      (topic msg = "request/qos" → int_of_str text = Ok (Publisher.qos self'))
      ∧ (topic msg = "request/delay" →
         int_of_str text = Ok (Publisher.delay self'))
      ∧ (topic msg = "request/messagesize" →
         int_of_str text = Ok (Publisher.messagesize self'))
      ∧ (topic msg = "request/instancecount" →
         int_of_str text = Ok (Publisher.instancecount self')).
Proof.
  unfold Publisher.on_message. intros H Hgo.
  destruct (decode (payload msg)) as [text|e]; [|discriminate].
  rewrite bind_Ok in H.
  repeat case_bool_decide;
    try (destruct (int_of_str text) as [v|e] eqn:Hv; [|discriminate];
         rewrite bind_Ok in H);
    try done;
    injection H as <- <-;
    (do 7 (split; [first [done|congruence]|]));
    (split; [intros Hnot; first [done|exfalso; apply Hnot; set_solver]|]);
    intros text' [= <-]; repeat split; intros; cbn; first [done|congruence].
Qed.

(** Every start signal that reaches an agent whose number is at most
    [instancecount] starts one more thread, whether or not [running] is
    already set: [start_publishing] does not look at the flag. *)
Theorem start_signals_each_start_a_thread (self : Publisher.t)
    (msgs : list message) :
  Publisher.instance_id self ≤ Publisher.instancecount self →
  Forall (λ msg, topic msg = "request/go" ∧ ∃ text, decode (payload msg) = Ok text)
         msgs →
  ∃ self',
    Publisher.handle int_of_str self msgs
    = Ok (self', replicate (length msgs) Publisher.StartThread)
    ∧ self' = (if msgs is [] then self else Publisher.set_running true self).
Proof.
  intros Hle Hmsgs. revert self Hle.
  induction Hmsgs as [|msg msgs [Htopic [text Hdec]] Hmsgs IH]; intros self Hle.
  - by exists self.
  - cbn [Publisher.handle].
    rewrite (on_message_go int_of_str self msg text Htopic Hdec).
    destruct (Z.leb_spec (Publisher.instance_id self) (Publisher.instancecount self));
      [|lia].
    rewrite bind_Ok. unfold Publisher.start_publishing.
    destruct (IH (Publisher.set_running true self) Hle) as (self' & -> & Hself').
    rewrite bind_Ok. exists self'. split; [done|].
    rewrite Hself'. by destruct msgs.
Qed.

End Agent.

(** Agent 3 is publishing when [request/delay] arrives. *)
Lemma parameter_message_keeps_thread_witness :
  Publisher.running (Publisher.set_delay 100 agent3) = true
  ∧ Publisher.qos (Publisher.set_delay 100 agent3) = 1.
Proof.
  destruct (parameter_message_keeps_thread int_ascii agent3
              (Publisher.set_delay 100 agent3)
              {| topic := "request/delay"; payload := "100" |} [])
    as (_ & Hrun & _ & Hqos & _).
  - vm_compute. reflexivity.
  - discriminate.
  - split; [exact Hrun|]. apply Hqos. discriminate.
Defined.

(** Two start signals in a row for agent 3, which is publishing. *)
Lemma start_signals_each_start_a_thread_witness :
  ∃ self',
    Publisher.handle int_ascii agent3 [go; go]
    = Ok (self', [Publisher.StartThread; Publisher.StartThread])
    ∧ self' = Publisher.set_running true agent3.
Proof.
  apply (start_signals_each_start_a_thread int_ascii agent3 [go; go]).
  - vm_compute. discriminate.
  - repeat constructor; by exists "1".
Defined.

(** *** The loop, when the object changes under it *)

Lemma publish_loop_turns (topic : string) (end_time : Q)
    (env : list Publisher.observation) :
  ∀ counter pubs final,
    Publisher.publish_loop topic end_time counter env = (pubs, final) →
    (length pubs ≤ length env)%nat
    ∧ (∀ (k : nat) o, (k < length pubs)%nat → env !! k = Some o →
         (Publisher.now o < end_time)%Q
         ∧ Publisher.running (Publisher.agent o) = true)
    ∧ ∀ o, env !! length pubs = Some o →
        ¬ ((Publisher.now o < end_time)%Q
           ∧ Publisher.running (Publisher.agent o) = true).
Proof.
  induction env as [|o env IH]; intros counter pubs final Hloop.
  - injection Hloop as <- <-. split; [done|]. split; [simpl; lia|]. done.
  - cbn [Publisher.publish_loop] in Hloop.
    destruct (Qltb (Publisher.now o) end_time && Publisher.running (Publisher.agent o))
      eqn:Htest.
    + destruct (Publisher.publish_loop topic end_time (counter + 1) env)
        as [rest fin] eqn:Hrest.
      injection Hloop as <- <-.
      destruct (IH _ _ _ Hrest) as (Hlen & Hturns & Hstop).
      apply andb_true_iff in Htest as [Hnow Hrun]. apply Qltb_lt in Hnow.
      split; [simpl; lia|]. split.
      * intros [|k] o' Hk Ho'.
        -- by injection Ho' as <-.
        -- apply (Hturns k); [simpl in Hk; lia|done].
      * intros o' Ho'. by apply Hstop.
    + injection Hloop as <- <-. split; [simpl; lia|]. split; [simpl; lia|].
      intros o' [= <-] [Hnow Hrun]. apply Qltb_lt in Hnow.
      by rewrite Hnow, Hrun in Htest.
Qed.

(** The thread of [publish_messages] builds its topic once, from the
    settings it finds when it starts, and reads the object again at every
    turn: message [k] goes to that first topic, with the qos and the
    filler length that the object holds at turn [k], and was sent on a
    turn that found the clock before the 30 seconds and [running] set. The
    loop ends at the first turn that finds otherwise, whatever later turns
    would have found. *)
Theorem thread_follows_the_object (self : Publisher.t) (start : Q)
    (env : list Publisher.observation) (pubs : list publication) (final : Z) :
  Publisher.publish_messages self start env = (pubs, final) →
  final = Z.of_nat (length pubs)
  ∧ (length pubs ≤ length env)%nat
  ∧ (∀ (k : nat) p, pubs !! k = Some p →
       ∃ o, env !! k = Some o
            ∧ (Publisher.now o < start + 30)%Q
            ∧ Publisher.running (Publisher.agent o) = true
            ∧ pub_topic p
              = Publisher.data_topic (Publisher.instance_id self)
                  (Publisher.qos self) (Publisher.delay self)
                  (Publisher.messagesize self)
            ∧ pub_qos p = Publisher.qos (Publisher.agent o)
            ∧ pub_payload p
              = Publisher.data_message (Z.of_nat k) (Publisher.stamp_ms o)
                  (str_mul "x" (Publisher.messagesize (Publisher.agent o))))
  ∧ ∀ o, env !! length pubs = Some o →
      ¬ ((Publisher.now o < start + 30)%Q
         ∧ Publisher.running (Publisher.agent o) = true).
Proof.
  unfold Publisher.publish_messages. intros Hrun.
  destruct (publish_loop_spec _ _ _ _ _ _ Hrun) as [Hfinal Hmsgs].
  destruct (publish_loop_turns _ _ _ _ _ _ Hrun) as (Hlen & Hturns & Hstop).
  split; [lia|]. split; [done|]. split; [|done].
  intros k p Hk.
  destruct (Hmsgs k p Hk) as (o & Ho & Htopic & Hpayload & Hqos).
  destruct (Hturns k o) as [Hnow Hrunning]; [by eapply lookup_lt_Some|done|].
  exists o. rewrite Z.add_0_l in Hpayload. by repeat split.
Qed.

(** Agent 3 starts with 4 bytes of filler at qos 1; before its second turn
    a broadcast sets the size to 2 and the qos to 0; before its third the
    flag is cleared. *)
Lemma thread_follows_the_object_witness :
  Publisher.publish_messages agent3 0%Q
    [ {| Publisher.now := 1%Q; Publisher.agent := agent3;
         Publisher.stamp_ms := 1000 |};
      {| Publisher.now := 2%Q;
         Publisher.agent := Publisher.set_qos 0 (Publisher.set_messagesize 2 agent3);
         Publisher.stamp_ms := 2000 |};
      {| Publisher.now := 3%Q;
         Publisher.agent := Publisher.set_running false agent3;
         Publisher.stamp_ms := 3000 |} ]
  = ([ {| pub_topic := "counter/3/1/0/4"; pub_payload := "0:1000:xxxx";
          pub_qos := 1 |};
       {| pub_topic := "counter/3/1/0/4"; pub_payload := "1:2000:xx";
          pub_qos := 0 |} ], 2)
  ∧ 2 = Z.of_nat 2.
Proof.
  split; [vm_compute; reflexivity|].
  refine (proj1 (thread_follows_the_object agent3 0%Q
            [ {| Publisher.now := 1%Q; Publisher.agent := agent3;
                 Publisher.stamp_ms := 1000 |};
              {| Publisher.now := 2%Q;
                 Publisher.agent :=
                   Publisher.set_qos 0 (Publisher.set_messagesize 2 agent3);
                 Publisher.stamp_ms := 2000 |};
              {| Publisher.now := 3%Q;
                 Publisher.agent := Publisher.set_running false agent3;
                 Publisher.stamp_ms := 3000 |} ]
            [ {| pub_topic := "counter/3/1/0/4"; pub_payload := "0:1000:xxxx";
                 pub_qos := 1 |};
              {| pub_topic := "counter/3/1/0/4"; pub_payload := "1:2000:xx";
                 pub_qos := 0 |} ] 2 _)).
  vm_compute. reflexivity.
Defined.

(** ** [run_test] *)

Section Runs.

Variable int_of_str : string → res Z.
Variable float_of_str : string → res spec_float.

Local Abbreviation deliver := (Analyzer.deliver int_of_str float_of_str).
Local Abbreviation run_test := (Analyzer.run_test int_of_str float_of_str).

(** Whether the callback raises does not depend on the analyzer, and what
    it does to [messages_received] and to [sys_metrics] depends on that
    field alone. *)
Lemma on_message_uniform (msg : message) :
  (∃ e, ∀ self, Analyzer.on_message int_of_str float_of_str self msg = Raise e)
  ∨ ∃ f g, ∀ self,
      Analyzer.on_message int_of_str float_of_str self msg
      = Ok (Analyzer.set_sys_metrics (g (Analyzer.sys_metrics self))
              (Analyzer.set_messages_received
                 (f (Analyzer.messages_received self)) self)).
Proof.
  unfold Analyzer.on_message.
  destruct (decode (payload msg)) as [text|e]; [|left; by exists e].
  cbn [mbind res_bind].
  destruct (startswith (topic msg) "$SYS/").
  - destruct (float_of_str text) as [v|e].
    + right. exists (λ mr, mr), (λ sm, <[topic msg := Analyzer.SysNumber v]> sm).
      intros self. by destruct self.
    + destruct e;
        first [ right;
                exists (λ mr, mr), (λ sm, <[topic msg := Analyzer.SysText text]> sm);
                intros self; by destruct self
              | left; eexists; intros self; reflexivity ].
  - destruct (startswith (topic msg) "counter/").
    + right.
      destruct (Spec.parse_data_message int_of_str (topic msg) text)
        as [[[i c] ts]|e] eqn:Hparse.
      * exists (Analyzer.store i c ts), (λ sm, sm). intros self.
        rewrite counter_body_parse, Hparse. by destruct self.
      * exists (λ mr, mr), (λ sm, sm). intros self.
        rewrite counter_body_parse, Hparse. by destruct self.
    + right. exists (λ mr, mr), (λ sm, sm). intros self. by destruct self.
Qed.

Lemma deliver_uniform (msgs : list message) :
  (∃ e, ∀ self, deliver self msgs = Raise e)
  ∨ ∃ f g, ∀ self,
      deliver self msgs
      = Ok (Analyzer.set_sys_metrics (g (Analyzer.sys_metrics self))
              (Analyzer.set_messages_received
                 (f (Analyzer.messages_received self)) self)).
Proof.
  induction msgs as [|msg msgs IH].
  - right. exists (λ mr, mr), (λ sm, sm). intros self. by destruct self.
  - destruct (on_message_uniform msg) as [[e He]|(f1 & g1 & H1)].
    + left. exists e. intros self. by rewrite deliver_cons, He.
    + destruct IH as [[e He]|(f2 & g2 & H2)].
      * left. exists e. intros self. by rewrite deliver_cons, H1, bind_Ok, He.
      * right. exists (f2 ∘ f1), (g2 ∘ g1). intros self.
        rewrite deliver_cons, H1, bind_Ok, H2. by destruct self.
Qed.

Lemma decode_text (s : string) :
  utf8_valid (byte_values s) = true → decode s = Ok s.
Proof. intros H. unfold decode. by rewrite H. Qed.

(** Text never makes the callback raise. *)
Lemma deliver_returns (msgs : list message) :
  raises_value_error_only float_of_str →
  text_only msgs →
  ∀ self, ∃ self', deliver self msgs = Ok self'.
Proof.
  intros Hfloat Hmsgs. induction Hmsgs as [|msg msgs Hmsg Hmsgs IH]; intros self.
  - by exists self.
  - rewrite deliver_cons.
    assert (H : ∃ self1,
               Analyzer.on_message int_of_str float_of_str self msg = Ok self1).
    { unfold Analyzer.on_message. rewrite (decode_text _ Hmsg), bind_Ok.
      destruct (startswith (topic msg) "$SYS/").
      - destruct (float_of_str (payload msg)) as [v|e] eqn:Hf; [by eexists|].
        rewrite (Hfloat _ _ Hf). by eexists.
      - destruct (startswith (topic msg) "counter/"); [|by eexists].
        destruct (Analyzer.counter_body int_of_str (topic msg) (payload msg)
                    (Analyzer.messages_received self)). by eexists. }
    destruct H as [self1 ->]. rewrite bind_Ok. apply IH.
Qed.

(** The fields of the record that [compute_result] does not compute. *)
Lemma compute_result_fields (self : Analyzer.t) (r : Analyzer.result) :
  Analyzer.compute_result self = Ok r →
  params_of r = Analyzer.current_test self
  ∧ Analyzer.r_sys_metrics r = Analyzer.sys_metrics self.
Proof.
  unfold Analyzer.compute_result. cbv zeta. intros H.
  repeat match type of H with
         | (?m ≫= _) = Ok _ =>
             let x := fresh "x" in
             destruct m as [x|]; [rewrite bind_Ok in H|discriminate]
         end.
  injection H as <-. split; [|done]. unfold params_of. cbn.
  by destruct (Analyzer.current_test self).
Qed.

(** What [run_test] does when no callback raises. *)
Lemma run_test_unfold (self : Analyzer.t)
    (qos delay messagesize instancecount sub_qos : Z) (env : Analyzer.run_env)
    f0 g0 f1 g1 f2 g2 f3 g3 :
  (∀ s, deliver s (Analyzer.before_reset env)
        = Ok (Analyzer.set_sys_metrics (g0 (Analyzer.sys_metrics s))
                (Analyzer.set_messages_received
                   (f0 (Analyzer.messages_received s)) s))) →
  (∀ s, deliver s (Analyzer.during_reset env)
        = Ok (Analyzer.set_sys_metrics (g1 (Analyzer.sys_metrics s))
                (Analyzer.set_messages_received
                   (f1 (Analyzer.messages_received s)) s))) →
  (∀ s, deliver s (Analyzer.during_setup env)
        = Ok (Analyzer.set_sys_metrics (g2 (Analyzer.sys_metrics s))
                (Analyzer.set_messages_received
                   (f2 (Analyzer.messages_received s)) s))) →
  (∀ s, deliver s (Analyzer.during_test env)
        = Ok (Analyzer.set_sys_metrics (g3 (Analyzer.sys_metrics s))
                (Analyzer.set_messages_received
                   (f3 (Analyzer.messages_received s)) s))) →
  run_test self qos delay messagesize instancecount sub_qos env
  = (self1 ← Analyzer.calculate_results
       {| Analyzer.current_test :=
            {| Analyzer.qos := qos; Analyzer.delay := delay;
               Analyzer.messagesize := messagesize;
               Analyzer.instancecount := instancecount;
               Analyzer.sub_qos := sub_qos |};
          Analyzer.messages_received := f3 (f2 (f1 ∅));
          Analyzer.messages_expected := ∅;
          Analyzer.test_start_time := Analyzer.start_clock env;
          Analyzer.test_end_time := Analyzer.end_clock env;
          Analyzer.sys_metrics := g3 (g2 ∅);
          Analyzer.results := Analyzer.results self |};
     self2 ← deliver self1 (Analyzer.during_pause env);
     mret (self2,
           [ Unsubscribe "counter/#";
             Subscribe (Analyzer.counter_filter
                          {| Analyzer.qos := qos; Analyzer.delay := delay;
                             Analyzer.messagesize := messagesize;
                             Analyzer.instancecount := instancecount;
                             Analyzer.sub_qos := sub_qos |}) sub_qos;
             Publish "request/qos" (PayloadInt qos) 0;
             Publish "request/delay" (PayloadInt delay) 0;
             Publish "request/messagesize" (PayloadInt messagesize) 0;
             Publish "request/instancecount" (PayloadInt instancecount) 0;
             Publish "request/go" (PayloadStr "1") 0 ])).
Proof.
  intros H0 H1 H2 H3. unfold Analyzer.run_test. cbv zeta.
  rewrite H0, bind_Ok, H1, bind_Ok, H2, bind_Ok, H3, bind_Ok.
  reflexivity.
Qed.

(** The outcome of a test does not depend on what the analyzer held
    before, the stored results apart: two analyzers with the same results,
    whatever their records, system metrics, times and parameters, and
    whatever reached them before [self.messages_received = {}], end the
    same test in the same state with the same calls, or raise the same
    exception. *)
Theorem run_test_forgets_previous_run (self1 self2 : Analyzer.t)
    (qos delay messagesize instancecount sub_qos : Z)
    (before1 before2 during_reset during_setup during_test during_pause
       : list message)
    (start_clock end_clock : Q) (a1 a2 : Analyzer.t) :
  Analyzer.results self1 = Analyzer.results self2 →
  deliver
    (Analyzer.set_current_test
       {| Analyzer.qos := qos; Analyzer.delay := delay;
          Analyzer.messagesize := messagesize;
          Analyzer.instancecount := instancecount;
          Analyzer.sub_qos := sub_qos |} self1) before1 = Ok a1 →
  deliver
    (Analyzer.set_current_test
       {| Analyzer.qos := qos; Analyzer.delay := delay;
          Analyzer.messagesize := messagesize;
          Analyzer.instancecount := instancecount;
          Analyzer.sub_qos := sub_qos |} self2) before2 = Ok a2 →
  run_test self1 qos delay messagesize instancecount sub_qos
    {| Analyzer.before_reset := before1;
       Analyzer.during_reset := during_reset;
       Analyzer.during_setup := during_setup;
       Analyzer.start_clock := start_clock;
       Analyzer.during_test := during_test;
       Analyzer.end_clock := end_clock;
       Analyzer.during_pause := during_pause |}
  = run_test self2 qos delay messagesize instancecount sub_qos
      {| Analyzer.before_reset := before2;
         Analyzer.during_reset := during_reset;
         Analyzer.during_setup := during_setup;
         Analyzer.start_clock := start_clock;
         Analyzer.during_test := during_test;
         Analyzer.end_clock := end_clock;
         Analyzer.during_pause := during_pause |}.
Proof.
  intros Hresults Hb1 Hb2.
  destruct (deliver_uniform before1) as [[e He]|(f0 & g0 & H0)];
    [by rewrite He in Hb1|].
  destruct (deliver_uniform before2) as [[e He]|(f0' & g0' & H0')];
    [by rewrite He in Hb2|].
  unfold Analyzer.run_test. cbv zeta.
  cbn [Analyzer.before_reset Analyzer.during_reset Analyzer.during_setup
       Analyzer.start_clock Analyzer.during_test Analyzer.end_clock
       Analyzer.during_pause].
  rewrite H0, H0', !bind_Ok.
  destruct (deliver_uniform during_reset) as [[e He]|(f1 & g1 & H1)];
    [by rewrite !He|].
  rewrite !H1, !bind_Ok.
  destruct (deliver_uniform during_setup) as [[e He]|(f2 & g2 & H2)];
    [by rewrite !He|].
  rewrite !H2, !bind_Ok.
  destruct (deliver_uniform during_test) as [[e He]|(f3 & g3 & H3)];
    [by rewrite !He|].
  rewrite !H3, !bind_Ok.
  destruct self1, self2. cbn in Hresults. subst. reflexivity.
Qed.


End Runs.

Lemma float_zero_only_raises : raises_value_error_only float_zero_only.
Proof.
  intros s e. unfold float_zero_only. case_bool_decide; [discriminate|].
  by intros [= <-].
Qed.

(** An analyzer that still holds the receipts of publisher 1 and one
    without records run the same test. *)
Lemma run_test_forgets_previous_run_witness :
  Analyzer.run_test int_ascii float_zero_only
    (with_messages {[1 := stream_012]}) 1 100 0 5 0
    {| Analyzer.before_reset := [no_number];
       Analyzer.during_reset := [];
       Analyzer.during_setup := [];
       Analyzer.start_clock := 0%Q;
       Analyzer.during_test := receipts_0112;
       Analyzer.end_clock := 32%Q;
       Analyzer.during_pause := [] |}
  = Analyzer.run_test int_ascii float_zero_only fresh 1 100 0 5 0
      {| Analyzer.before_reset := [];
         Analyzer.during_reset := [];
         Analyzer.during_setup := [];
         Analyzer.start_clock := 0%Q;
         Analyzer.during_test := receipts_0112;
         Analyzer.end_clock := 32%Q;
         Analyzer.during_pause := [] |}.
Proof.
  eapply (run_test_forgets_previous_run int_ascii float_zero_only
            (with_messages {[1 := stream_012]}) fresh 1 100 0 5 0
            [no_number] []).
  - reflexivity.
  - vm_compute. reflexivity.
  - vm_compute. reflexivity.
Defined.


(** ** The analyzer drives the publishers *)

Section Outcome.

Variable int_of_str : string → res Z.
Variable float_of_str : string → res spec_float.

(** What is known of a call of [run_test] that returned. *)
Lemma run_test_Ok_inv (self self' : Analyzer.t)
    (qos delay messagesize instancecount sub_qos : Z) (env : Analyzer.run_env)
    (made : list call) :
  Analyzer.run_test int_of_str float_of_str self qos delay messagesize
    instancecount sub_qos env = Ok (self', made) →
  made = [ Unsubscribe "counter/#";
           Subscribe (Analyzer.counter_filter
                        {| Analyzer.qos := qos; Analyzer.delay := delay;
                           Analyzer.messagesize := messagesize;
                           Analyzer.instancecount := instancecount;
                           Analyzer.sub_qos := sub_qos |}) sub_qos;
           Publish "request/qos" (PayloadInt qos) 0;
           Publish "request/delay" (PayloadInt delay) 0;
           Publish "request/messagesize" (PayloadInt messagesize) 0;
           Publish "request/instancecount" (PayloadInt instancecount) 0;
           Publish "request/go" (PayloadStr "1") 0 ]
  ∧ ∃ r, Analyzer.results self' = Analyzer.results self ++ [r]
         ∧ params_of r
           = {| Analyzer.qos := qos; Analyzer.delay := delay;
                Analyzer.messagesize := messagesize;
                Analyzer.instancecount := instancecount;
                Analyzer.sub_qos := sub_qos |}
         ∧ Analyzer.current_test self' = params_of r.
Proof.
  intros Hrun.
  assert (Hcase : ∀ msgs,
            (∃ e, ∀ s, Analyzer.deliver int_of_str float_of_str s msgs = Raise e)
            ∨ ∃ f g, ∀ s, Analyzer.deliver int_of_str float_of_str s msgs
                = Ok (Analyzer.set_sys_metrics (g (Analyzer.sys_metrics s))
                        (Analyzer.set_messages_received
                           (f (Analyzer.messages_received s)) s)))
    by apply deliver_uniform.
  pose proof Hrun as Hrun0. unfold Analyzer.run_test in Hrun0. cbv zeta in Hrun0.
  destruct (Hcase (Analyzer.before_reset env)) as [[e He]|(f0 & g0 & H0)];
    [by rewrite He in Hrun0|].
  rewrite H0, bind_Ok in Hrun0.
  destruct (Hcase (Analyzer.during_reset env)) as [[e He]|(f1 & g1 & H1)];
    [by rewrite He in Hrun0|].
  rewrite H1, bind_Ok in Hrun0.
  destruct (Hcase (Analyzer.during_setup env)) as [[e He]|(f2 & g2 & H2)];
    [by rewrite He in Hrun0|].
  rewrite H2, bind_Ok in Hrun0.
  destruct (Hcase (Analyzer.during_test env)) as [[e He]|(f3 & g3 & H3)];
    [by rewrite He in Hrun0|].
  clear Hrun0.
  rewrite (run_test_unfold int_of_str float_of_str self qos delay messagesize
             instancecount sub_qos env f0 g0 f1 g1 f2 g2 f3 g3 H0 H1 H2 H3)
    in Hrun.
  match type of Hrun with
  | context [Analyzer.calculate_results ?s] => set (at_end := s) in Hrun
  end.
  destruct (calculate_results_spec at_end) as (r & Hr & Hcalc).
  rewrite Hcalc, bind_Ok in Hrun.
  destruct (compute_result_fields at_end r Hr) as [Hparams _].
  destruct (Hcase (Analyzer.during_pause env)) as [[e He]|(f4 & g4 & H4)];
    [by rewrite He in Hrun|].
  rewrite H4, bind_Ok in Hrun. injection Hrun as <- <-.
  split; [reflexivity|]. exists r. split; [reflexivity|].
  split; [exact Hparams|]. by rewrite Hparams.
Qed.

End Outcome.

(** A setting broadcast by [run_test], read by a publisher. *)
Lemma on_message_setting (p : Publisher.t) (topic : string) (v : Z) :
  Publisher.on_message int_ascii p {| Mqtt.topic := topic; payload := pretty v |}
  = Ok (if bool_decide (topic = "request/qos") then (Publisher.set_qos v p, [])
        else if bool_decide (topic = "request/delay")
             then (Publisher.set_delay v p, [])
        else if bool_decide (topic = "request/messagesize")
             then (Publisher.set_messagesize v p, [])
        else if bool_decide (topic = "request/instancecount")
             then (Publisher.set_instancecount v p, [])
        else if bool_decide (topic = "request/go")
             then (if Publisher.instance_id p <=? Publisher.instancecount p
                   then Publisher.start_publishing p
                   else (Publisher.set_running false p, []))
        else (p, [])).
Proof.
  unfold Publisher.on_message. cbn [Mqtt.topic payload].
  rewrite decode_ascii by apply pretty_Z_ascii.
  rewrite bind_Ok, int_ascii_pretty, !bind_Ok.
  repeat case_bool_decide; try done.
  by destruct (Publisher.instance_id p <=? Publisher.instancecount p).
Qed.

(** The five messages of [run_test], handled by one publisher. *)
Lemma handle_broadcast (p : Publisher.t)
    (qos delay messagesize instancecount : Z) :
  Publisher.handle int_ascii p
    (inbound [ Publish "request/qos" (PayloadInt qos) 0;
               Publish "request/delay" (PayloadInt delay) 0;
               Publish "request/messagesize" (PayloadInt messagesize) 0;
               Publish "request/instancecount" (PayloadInt instancecount) 0;
               Publish "request/go" (PayloadStr "1") 0 ])
  = Ok ({| Publisher.instance_id := Publisher.instance_id p;
           Publisher.qos := qos; Publisher.delay := delay;
           Publisher.messagesize := messagesize;
           Publisher.instancecount := instancecount;
           Publisher.running :=
             bool_decide (Publisher.instance_id p ≤ instancecount) |},
        if bool_decide (Publisher.instance_id p ≤ instancecount)
        then [Publisher.StartThread] else []).
Proof.
  cbn [inbound omap list_omap wire Publisher.handle].
  do 4 (rewrite on_message_setting;
        repeat (rewrite bool_decide_eq_false_2 by discriminate);
        rewrite bool_decide_eq_true_2 by reflexivity;
        rewrite bind_Ok; cbv beta iota).
  rewrite (on_message_go int_ascii _ {| topic := "request/go"; payload := "1" |}
             "1" eq_refl eq_refl).
  cbn [Publisher.instance_id Publisher.instancecount Publisher.set_qos
       Publisher.set_delay Publisher.set_messagesize Publisher.set_instancecount].
  case_bool_decide as Hle.
  - apply Z.leb_le in Hle. rewrite Hle. reflexivity.
  - apply Z.leb_nle in Hle. rewrite Hle. reflexivity.
Qed.

Lemma split_counter_filter (p : Analyzer.test_params) :
  split "/" None (Analyzer.counter_filter p)
  = ["counter"; "+"; pretty (Analyzer.qos p); pretty (Analyzer.delay p);
     pretty (Analyzer.messagesize p)].
Proof.
  unfold Analyzer.counter_filter.
  change ("counter/+/" +:+ pretty (Analyzer.qos p) +:+ "/"
          +:+ pretty (Analyzer.delay p) +:+ "/" +:+ pretty (Analyzer.messagesize p))
    with ("counter" +:+ String "/" ("+" +:+ String "/"
            (pretty (Analyzer.qos p) +:+ String "/"
               (pretty (Analyzer.delay p) +:+ String "/"
                  (pretty (Analyzer.messagesize p)))))).
  do 2 (rewrite split_app_sep; [|cbn [list_ascii_of_string];
    repeat (apply not_elem_of_cons; split; [discriminate|]); apply not_elem_of_nil|done]).
  do 2 (rewrite split_app_sep; [|apply pretty_Z_no_slash|done]).
  by rewrite split_no_sep by apply pretty_Z_no_slash.
Qed.

(** What [run_test] publishes configures every publisher that handles it
    with the publisher's own [int], whatever the publisher's settings were
    before: its four settings become the arguments of the test, it starts
    one thread when its number is at most [instancecount] and clears
    [running] otherwise, and the topic that its thread will publish on has
    the levels of the filter that the analyzer has just subscribed to,
    with the publisher's number where the filter has [+]. *)
Theorem broadcast_configures_publisher (int_of_str : string → res Z)
    (float_of_str : string → res spec_float) (self self' : Analyzer.t)
    (qos delay messagesize instancecount sub_qos : Z) (env : Analyzer.run_env)
    (made : list call) (p : Publisher.t) :
  Analyzer.run_test int_of_str float_of_str self qos delay messagesize
    instancecount sub_qos env = Ok (self', made) →
  ∃ p' started filter,
    Publisher.handle int_ascii p (inbound made) = Ok (p', started)
    ∧ Publisher.instance_id p' = Publisher.instance_id p
    ∧ Publisher.qos p' = qos
    ∧ Publisher.delay p' = delay
    ∧ Publisher.messagesize p' = messagesize
    ∧ Publisher.instancecount p' = instancecount
    ∧ (Publisher.instance_id p ≤ instancecount →
       started = [Publisher.StartThread] ∧ Publisher.running p' = true)
    ∧ (instancecount < Publisher.instance_id p →
       started = [] ∧ Publisher.running p' = false)
    ∧ Subscribe filter sub_qos ∈ made
    ∧ split "/" None filter
      = ["counter"; "+"; pretty qos; pretty delay; pretty messagesize]
    ∧ split "/" None
        (Publisher.data_topic (Publisher.instance_id p') (Publisher.qos p')
           (Publisher.delay p') (Publisher.messagesize p'))
      = ["counter"; pretty (Publisher.instance_id p); pretty qos; pretty delay;
         pretty messagesize].
Proof.
  intros Hrun.
  destruct (run_test_Ok_inv _ _ _ _ _ _ _ _ _ _ _ Hrun) as [-> _].
  pose proof (handle_broadcast p qos delay messagesize instancecount) as Hb.
  cbn [inbound omap list_omap] in Hb |- *.
  eexists _, _, _. split; [exact Hb|].
  do 5 (split; [reflexivity|]). cbn [Publisher.running].
  split.
  { intros Hle. by rewrite !bool_decide_eq_true_2. }
  split.
  { intros Hgt. by rewrite !bool_decide_eq_false_2 by lia. }
  split; [right; left|].
  split; [apply split_counter_filter|]. apply split_data_topic.
Qed.

(** The test of the example: publisher 3 becomes [agent3]. *)
Lemma broadcast_configures_publisher_witness :
  ∃ self' made,
    Analyzer.run_test int_ascii float_zero_only fresh 1 0 4 5 0
      {| Analyzer.before_reset := [];
         Analyzer.during_reset := [];
         Analyzer.during_setup := [];
         Analyzer.start_clock := 0%Q;
         Analyzer.during_test := [];
         Analyzer.end_clock := 32%Q;
         Analyzer.during_pause := [] |} = Ok (self', made)
    ∧ Publisher.handle int_ascii (Publisher.init 3) (inbound made)
      = Ok (agent3, [Publisher.StartThread]).
Proof.
  destruct (Analyzer.run_test int_ascii float_zero_only fresh 1 0 4 5 0
              {| Analyzer.before_reset := [];
                 Analyzer.during_reset := [];
                 Analyzer.during_setup := [];
                 Analyzer.start_clock := 0%Q;
                 Analyzer.during_test := [];
                 Analyzer.end_clock := 32%Q;
                 Analyzer.during_pause := [] |}) as [[self' made]|e] eqn:Hrun.
  - destruct (broadcast_configures_publisher int_ascii float_zero_only fresh self'
                1 0 4 5 0 _ made (Publisher.init 3) Hrun)
      as (p' & started & filter & Hh & Hid & Hq & Hd & Hm & Hc & Hstart & _).
    destruct Hstart as [-> Hr]; [cbn; lia|].
    exists self', made. split; [done|]. rewrite Hh. f_equal. f_equal.
    destruct p'. cbn in *. by subst.
  - exfalso. vm_compute in Hrun. discriminate.
Defined.

Lemma filter_ext_in {A : Type} (P Q : A → Prop) `{!∀ x, Decision (P x)}
    `{!∀ x, Decision (Q x)} (l : list A) :
  Forall (λ x, P x ↔ Q x) l → filter P l = filter Q l.
Proof.
  induction 1 as [|x l Hx Hl IH]; [done|].
  destruct (decide (P x)) as [HP|HP].
  - rewrite !filter_cons_True by tauto. by rewrite IH.
  - rewrite !filter_cons_False by tauto. exact IH.
Qed.

(** Of the numbers 1 to 10, those that are at most [n]. *)
Lemma count_up_to (n : Z) :
  length (filter (λ i, i ≤ n) (seqZ 1 10)) = Z.to_nat (Z.min 10 (Z.max 0 n)).
Proof.
  set (m := Z.min 10 (Z.max 0 n)).
  rewrite (filter_ext_in (λ i, i ≤ n) (λ i, i ≤ m)).
  - assert (Hm : m = 0 ∨ m = 1 ∨ m = 2 ∨ m = 3 ∨ m = 4 ∨ m = 5 ∨ m = 6
                 ∨ m = 7 ∨ m = 8 ∨ m = 9 ∨ m = 10) by lia.
    clearbody m.
    repeat (destruct Hm as [->|Hm]; [by vm_compute|]). subst. by vm_compute.
  - apply Forall_forall. intros i Hi. apply elem_of_seqZ in Hi. lia.
Qed.

Lemma threads_started (n : Z) (ps : list Publisher.t) :
  length (concat ((λ p, if bool_decide (Publisher.instance_id p ≤ n)
                        then [Publisher.StartThread] else []) <$> ps))
  = length (filter (λ i, i ≤ n) (Publisher.instance_id <$> ps)).
Proof.
  induction ps as [|p ps IH]; [done|].
  rewrite !fmap_cons. cbn [concat]. rewrite length_app, IH.
  case_bool_decide.
  - by rewrite filter_cons_True.
  - by rewrite filter_cons_False.
Qed.

(** The ten publishers of the main program, in whatever state earlier
    tests left them, handle what [run_test] publishes: the callback of
    none of them raises, the ones that start a thread are those numbered
    up to [instancecount], and in all [instancecount] threads are started,
    none below 0 and ten above 10. *)
Theorem as_many_publishers_as_requested (int_of_str : string → res Z)
    (float_of_str : string → res spec_float) (self self' : Analyzer.t)
    (qos delay messagesize instancecount sub_qos : Z) (env : Analyzer.run_env)
    (made : list call) (ps : list Publisher.t) :
  Analyzer.run_test int_of_str float_of_str self qos delay messagesize
    instancecount sub_qos env = Ok (self', made) →
  Publisher.instance_id <$> ps
  = Publisher.instance_id <$> Publisher.publishers →
  ∃ outcomes : list (Publisher.t * list Publisher.effect),
    Forall2 (λ p outcome,
               Publisher.handle int_ascii p (inbound made) = Ok outcome
               ∧ (outcome.2 = [Publisher.StartThread]
                  ↔ Publisher.instance_id p ≤ instancecount)
               ∧ (outcome.2 = [] ↔ instancecount < Publisher.instance_id p))
            ps outcomes
    ∧ length (concat outcomes.*2)
      = Z.to_nat (Z.min 10 (Z.max 0 instancecount)).
Proof.
  intros Hrun Hids.
  destruct (run_test_Ok_inv _ _ _ _ _ _ _ _ _ _ _ Hrun) as [-> _].
  exists ((λ p, ({| Publisher.instance_id := Publisher.instance_id p;
                    Publisher.qos := qos; Publisher.delay := delay;
                    Publisher.messagesize := messagesize;
                    Publisher.instancecount := instancecount;
                    Publisher.running :=
                      bool_decide (Publisher.instance_id p ≤ instancecount) |},
                 if bool_decide (Publisher.instance_id p ≤ instancecount)
                 then [Publisher.StartThread] else [])) <$> ps).
  split.
  - apply Forall2_fmap_r, Forall_Forall2_diag, Forall_forall. intros p _.
    pose proof (handle_broadcast p qos delay messagesize instancecount) as Hb.
    cbn [inbound omap list_omap] in Hb |- *.
    split; [exact Hb|]. cbn [snd]. case_bool_decide; split; split; try done; lia.
  - rewrite <- list_fmap_compose.
    change (length (concat ((λ p, if bool_decide (Publisher.instance_id p
                                                  ≤ instancecount)
                                  then [Publisher.StartThread] else []) <$> ps))
            = Z.to_nat (Z.min 10 (Z.max 0 instancecount))).
    rewrite (threads_started instancecount ps), Hids.
    change (Publisher.instance_id <$> Publisher.publishers) with (seqZ 1 10).
    apply count_up_to.
Qed.

(** A test with five publishers. *)
Lemma as_many_publishers_as_requested_witness :
  ∃ outcomes : list (Publisher.t * list Publisher.effect),
    length outcomes = 10%nat ∧ length (concat outcomes.*2) = 5%nat.
Proof.
  destruct (Analyzer.run_test int_ascii float_zero_only fresh 1 0 4 5 0
              {| Analyzer.before_reset := [];
                 Analyzer.during_reset := [];
                 Analyzer.during_setup := [];
                 Analyzer.start_clock := 0%Q;
                 Analyzer.during_test := [];
                 Analyzer.end_clock := 32%Q;
                 Analyzer.during_pause := [] |}) as [[self' made]|e] eqn:Hrun.
  - destruct (as_many_publishers_as_requested int_ascii float_zero_only fresh
                self' 1 0 4 5 0 _ made Publisher.publishers Hrun eq_refl)
      as (outcomes & Hall & Hcount).
    exists outcomes. split; [|exact Hcount].
    apply Forall2_length in Hall. by rewrite <- Hall.
  - exfalso. vm_compute in Hrun. discriminate.
Defined.

(** ** The sweeps *)

Lemma for_each_app {A S : Type} (body : A → S → res S) (l1 l2 : list A) :
  ∀ s, for_each body (l1 ++ l2) s = for_each body l1 s ≫= for_each body l2.
Proof.
  induction l1 as [|x l1 IH]; intros s; [done|].
  cbn [app for_each]. destruct (body x s) as [s'|e]; [|done].
  rewrite !bind_Ok. apply IH.
Qed.

(** Nested loops are one loop over the combinations. *)
Lemma for_each_bind {A B S : Type} (body : B → S → res S)
    (outer : A → S → res S) (g : A → list B) (l : list A) :
  (∀ x s, outer x s = for_each body (g x) s) →
  ∀ s, for_each outer l s = for_each body (l ≫= g) s.
Proof.
  intros Houter. induction l as [|x l IH]; intros s; [done|].
  cbn [for_each mbind list_bind]. rewrite for_each_app, Houter.
  destruct (for_each body (g x) s) as [s'|e]; [|done].
  rewrite !bind_Ok. apply IH.
Qed.

Lemma bind_mret {A : Type} (m : res A) : m ≫= mret = m.
Proof. by destruct m. Qed.

Lemma save_results_files (self : Analyzer.t) (timestamp : string) :
  Analyzer.save_results self timestamp = files_of (Analyzer.results self) timestamp.
Proof. reflexivity. Qed.

Lemma filter_fmap_S (P : nat → Prop) `{!∀ j, Decision (P j)} (l : list nat) :
  filter P (S <$> l) = S <$> filter (λ j, P (S j)) l.
Proof.
  induction l as [|j l IH]; [done|]. rewrite fmap_cons.
  destruct (decide (P (S j))) as [HP|HP].
  - rewrite !filter_cons_True by done. by rewrite fmap_cons, IH.
  - rewrite !filter_cons_False by done. exact IH.
Qed.

Section Sweep.

Variable int_of_str : string → res Z.
Variable float_of_str : string → res spec_float.
Variable checkpoint : bool.
Variable timestamp : string.
Variable env : nat → Analyzer.run_env.

(** One run of the sweep, for one combination of parameters. *)
Local Abbreviation step :=
  (λ (p : Analyzer.test_params) (st : Analyzer.sweep_state),
     Analyzer.sweep_body int_of_str float_of_str checkpoint timestamp env
       (Analyzer.qos p) (Analyzer.delay p) (Analyzer.messagesize p)
       (Analyzer.instancecount p) (Analyzer.sub_qos p) st).

Lemma sweep_flat (delays qos_levels message_sizes instance_counts sub_qos_levels
                    : list Z) (st : Analyzer.sweep_state) :
  Analyzer.sweep int_of_str float_of_str checkpoint timestamp env
    delays qos_levels message_sizes instance_counts sub_qos_levels st
  = for_each step
      (combinations delays qos_levels message_sizes instance_counts
         sub_qos_levels) st.
Proof.
  unfold Analyzer.sweep, combinations. revert st.
  apply for_each_bind. intros sub_qos.
  apply for_each_bind. intros qos.
  apply for_each_bind. intros delay.
  apply for_each_bind. intros messagesize.
  apply for_each_bind. intros instancecount st.
  cbn [for_each Analyzer.qos Analyzer.delay Analyzer.messagesize
       Analyzer.instancecount Analyzer.sub_qos].
  by rewrite bind_mret.
Qed.

Lemma sweep_body_unfold (qos delay messagesize instancecount sub_qos : Z)
    (st : Analyzer.sweep_state) :
  Analyzer.sweep_body int_of_str float_of_str checkpoint timestamp env
    qos delay messagesize instancecount sub_qos st
  = match Analyzer.run_test int_of_str float_of_str (Analyzer.analyzer st)
            qos delay messagesize instancecount sub_qos
            (env (Z.to_nat (Analyzer.test_number st - 1))) with
    | Ok (self, made) =>
        Ok {| Analyzer.analyzer := self;
              Analyzer.test_number := Analyzer.test_number st + 1;
              Analyzer.calls := Analyzer.calls st ++ made;
              Analyzer.saves :=
                if checkpoint && ((Analyzer.test_number st + 1) mod 10 =? 0)
                then Analyzer.saves st ++ [Analyzer.save_results self timestamp]
                else Analyzer.saves st |}
    | Raise e => Raise e
    end.
Proof.
  unfold Analyzer.sweep_body.
  by destruct (Analyzer.run_test int_of_str float_of_str (Analyzer.analyzer st)
                 qos delay messagesize instancecount sub_qos
                 (env (Z.to_nat (Analyzer.test_number st - 1)))) as [[self made]|e].
Qed.

(** The state of the loops after the runs of [combos]. *)
Lemma sweep_steps (combos : list Analyzer.test_params) :
  ∀ st st' : Analyzer.sweep_state,
    for_each step combos st = Ok st' →
    Analyzer.test_number st'
    = Analyzer.test_number st + Z.of_nat (length combos)
    ∧ ∃ recs,
        Analyzer.results (Analyzer.analyzer st')
        = Analyzer.results (Analyzer.analyzer st) ++ recs
        ∧ params_of <$> recs = combos
        ∧ Analyzer.saves st'
          = Analyzer.saves st
            ++ ((λ j, files_of
                        (take (length (Analyzer.results (Analyzer.analyzer st)) + j)
                              (Analyzer.results (Analyzer.analyzer st')))
                        timestamp)
                <$> filter (λ j, checkpoint = true
                                 ∧ (Analyzer.test_number st + Z.of_nat j) mod 10 = 0)
                      (seq 1 (length combos))).
Proof.
  induction combos as [|p combos IH]; intros st st' Hrun.
  - cbn [for_each] in Hrun. injection Hrun as <-. split; [simpl; lia|]. exists [].
    split; [by rewrite app_nil_r|]. split; [done|]. by rewrite app_nil_r.
  - cbn [for_each] in Hrun. rewrite sweep_body_unfold in Hrun.
    destruct (Analyzer.run_test int_of_str float_of_str (Analyzer.analyzer st)
                (Analyzer.qos p) (Analyzer.delay p) (Analyzer.messagesize p)
                (Analyzer.instancecount p) (Analyzer.sub_qos p)
                (env (Z.to_nat (Analyzer.test_number st - 1))))
      as [[self1 made]|e] eqn:Htest; [|discriminate].
    rewrite !bind_Ok in Hrun.
    destruct (run_test_Ok_inv _ _ _ _ _ _ _ _ _ _ _ Htest)
      as (_ & r & Hres1 & Hparams & _).
    destruct (IH _ _ Hrun) as (Hnum & recs & Hres & Hrecs & Hsaves).
    cbn [Analyzer.analyzer Analyzer.test_number Analyzer.saves] in Hnum, Hres, Hsaves.
    split; [rewrite Hnum; simpl length; lia|].
    exists (r :: recs). split.
    { rewrite Hres, Hres1, <- app_assoc. done. }
    split.
    { rewrite fmap_cons, Hrecs, Hparams. by destruct p. }
    assert (Hsplit :
      filter (λ j, checkpoint = true
                   ∧ (Analyzer.test_number st + Z.of_nat j) mod 10 = 0)
             (seq 1 (S (length combos)))
      = (if decide (checkpoint = true
                    ∧ (Analyzer.test_number st + Z.of_nat 1) mod 10 = 0)
         then [1%nat] else [])
        ++ (S <$> filter (λ j, checkpoint = true
                               ∧ (Analyzer.test_number st + Z.of_nat (S j)) mod 10 = 0)
                    (seq 1 (length combos)))).
    { rewrite <- cons_seq, <- fmap_S_seq, filter_cons, filter_fmap_S.
      by destruct (decide (checkpoint = true
                           ∧ (Analyzer.test_number st + Z.of_nat 1) mod 10 = 0)). }
    rewrite Hsaves. simpl length. rewrite Hsplit, fmap_app, <- list_fmap_compose.
    set (R := Analyzer.results (Analyzer.analyzer st')) in *.
    set (n0 := length (Analyzer.results (Analyzer.analyzer st))) in *.
    assert (H1 : Analyzer.save_results self1 timestamp
                 = files_of (take (n0 + 1) R) timestamp).
    { rewrite save_results_files. f_equal. rewrite Hres, Hres1.
      subst n0. rewrite <- app_assoc. cbn [app].
      rewrite (take_app_add' _ (r :: recs) _ 1) by done. done. }
    assert (Htail :
      ((λ j, files_of (take (length (Analyzer.results self1) + j) R) timestamp)
       <$> filter (λ j, checkpoint = true
                        ∧ (Analyzer.test_number st + 1 + Z.of_nat j) mod 10 = 0)
             (seq 1 (length combos)))
      = ((λ j, files_of (take (n0 + j) R) timestamp) ∘ S
         <$> filter (λ j, checkpoint = true
                          ∧ (Analyzer.test_number st + Z.of_nat (S j)) mod 10 = 0)
               (seq 1 (length combos)))).
    { rewrite (list_filter_iff
                 (λ j, checkpoint = true
                       ∧ (Analyzer.test_number st + 1 + Z.of_nat j) mod 10 = 0)
                 (λ j, checkpoint = true
                       ∧ (Analyzer.test_number st + Z.of_nat (S j)) mod 10 = 0)).
      - apply list_fmap_ext. intros i j _. cbn. do 2 f_equal.
        rewrite Hres1, length_app. subst n0. simpl. lia.
      - intros j. by replace (Analyzer.test_number st + Z.of_nat (S j))
          with (Analyzer.test_number st + 1 + Z.of_nat j) by lia. }
    rewrite Htail.
    change (Z.of_nat 1) with 1.
    destruct checkpoint.
    + destruct (Z.eqb_spec ((Analyzer.test_number st + 1) mod 10) 0) as [Hdue|Hdue].
      * cbn [andb]. rewrite decide_True by (split; [done|exact Hdue]).
        rewrite <- app_assoc. cbn [app fmap list_fmap]. by rewrite H1.
      * cbn [andb]. rewrite decide_False by (intros [_ ?]; done). done.
    + cbn [andb]. rewrite decide_False by (intros [? _]; done). done.
Qed.

Hypothesis float_raises : raises_value_error_only float_of_str.
Hypothesis env_text : ∀ n, all_text (env n).

Lemma run_test_returns (self : Analyzer.t)
    (qos delay messagesize instancecount sub_qos : Z) (n : nat) :
  ∃ self' made,
    Analyzer.run_test int_of_str float_of_str self qos delay messagesize
      instancecount sub_qos (env n) = Ok (self', made).
Proof.
  destruct (env_text n) as (Hb & Hdr & Hds & Hdt & Hdp).
  unfold Analyzer.run_test. cbv zeta.
  destruct (deliver_returns int_of_str float_of_str _ float_raises Hb
              (Analyzer.set_current_test
                 {| Analyzer.qos := qos; Analyzer.delay := delay;
                    Analyzer.messagesize := messagesize;
                    Analyzer.instancecount := instancecount;
                    Analyzer.sub_qos := sub_qos |} self)) as [s0 ->].
  rewrite bind_Ok.
  destruct (deliver_returns int_of_str float_of_str _ float_raises Hdr
              (Analyzer.set_messages_expected ∅
                 (Analyzer.set_messages_received ∅ s0))) as [s1 ->].
  rewrite bind_Ok.
  destruct (deliver_returns int_of_str float_of_str _ float_raises Hds
              (Analyzer.set_sys_metrics ∅ s1)) as [s2 ->].
  rewrite bind_Ok.
  destruct (deliver_returns int_of_str float_of_str _ float_raises Hdt
              (Analyzer.set_test_start_time (Analyzer.start_clock (env n)) s2))
    as [s3 ->].
  rewrite bind_Ok.
  destruct (calculate_results_spec
              (Analyzer.set_test_end_time (Analyzer.end_clock (env n)) s3))
    as (r & _ & ->).
  rewrite bind_Ok.
  destruct (deliver_returns int_of_str float_of_str _ float_raises Hdp
              (Analyzer.set_results
                 (Analyzer.results
                    (Analyzer.set_test_end_time (Analyzer.end_clock (env n)) s3)
                  ++ [r])
                 (Analyzer.set_test_end_time (Analyzer.end_clock (env n)) s3)))
    as [s4 ->].
  rewrite bind_Ok. by eexists _, _.
Qed.

Lemma sweep_returns (combos : list Analyzer.test_params) :
  ∀ st, ∃ st', for_each step combos st = Ok st'.
Proof.
  induction combos as [|p combos IH]; intros st; [by exists st|].
  cbn [for_each]. rewrite sweep_body_unfold.
  destruct (run_test_returns (Analyzer.analyzer st)
              (Analyzer.qos p) (Analyzer.delay p) (Analyzer.messagesize p)
              (Analyzer.instancecount p) (Analyzer.sub_qos p)
              (Z.to_nat (Analyzer.test_number st - 1))) as (self1 & made & ->).
  rewrite bind_Ok. apply IH.
Qed.

(** A sweep returns, and what it leaves. *)
Lemma run_sweep_spec
    (delays qos_levels message_sizes instance_counts sub_qos_levels : list Z)
    (self : Analyzer.t) :
  ∃ self' made recs,
    Analyzer.run_sweep int_of_str float_of_str checkpoint timestamp env
      delays qos_levels message_sizes instance_counts sub_qos_levels self
    = Ok (self', made,
          ((λ j, files_of (take (length (Analyzer.results self) + j)
                                (Analyzer.results self')) timestamp)
           <$> filter (λ j, checkpoint = true ∧ (1 + Z.of_nat j) mod 10 = 0)
                 (seq 1 (length (combinations delays qos_levels message_sizes
                                   instance_counts sub_qos_levels))))
          ++ [files_of (Analyzer.results self') timestamp])
    ∧ Analyzer.results self' = Analyzer.results self ++ recs
    ∧ params_of <$> recs
      = combinations delays qos_levels message_sizes instance_counts
          sub_qos_levels.
Proof.
  unfold Analyzer.run_sweep. rewrite sweep_flat.
  destruct (sweep_returns
              (combinations delays qos_levels message_sizes instance_counts
                 sub_qos_levels)
              {| Analyzer.analyzer := self; Analyzer.test_number := 1;
                 Analyzer.calls := []; Analyzer.saves := [] |}) as [st' Hst'].
  rewrite Hst', bind_Ok.
  destruct (sweep_steps _ _ _ Hst') as (_ & recs & Hres & Hrecs & Hsaves).
  cbn [Analyzer.analyzer Analyzer.test_number Analyzer.saves app] in Hres, Hsaves.
  exists (Analyzer.analyzer st'), (Analyzer.calls st'), recs.
  split; [|by split]. by rewrite Hsaves, save_results_files.
Qed.

End Sweep.


Lemma receipts_run_text : all_text receipts_run.
Proof. repeat split; repeat constructor. Qed.




(** ** Topics *)

Lemma pretty_Z_eq (a b : Z) : pretty a = pretty b → a = b.
Proof. apply (inj pretty). Qed.

(** The topic that a thread publishes on tells the publisher and the three
    parameters of the run apart: two threads publish on the same topic only
    when the four numbers agree. The same holds of the filter that the
    analyzer subscribes to and the three parameters in it, and that filter
    matches level by level the topics of the publishers that were given
    the same parameters. *)
Theorem topics_tell_runs_apart (instance_id qos delay messagesize : Z)
    (instance_id' qos' delay' messagesize' : Z) (p p' : Analyzer.test_params) :
  (Publisher.data_topic instance_id qos delay messagesize
   = Publisher.data_topic instance_id' qos' delay' messagesize'
   ↔ instance_id = instance_id' ∧ qos = qos' ∧ delay = delay'
     ∧ messagesize = messagesize')
  ∧ (Analyzer.counter_filter p = Analyzer.counter_filter p'
     ↔ Analyzer.qos p = Analyzer.qos p' ∧ Analyzer.delay p = Analyzer.delay p'
       ∧ Analyzer.messagesize p = Analyzer.messagesize p')
  ∧ (<[1%nat := "+"]>
       (split "/" None (Publisher.data_topic instance_id qos delay messagesize))
     = split "/" None (Analyzer.counter_filter p)
     ↔ qos = Analyzer.qos p ∧ delay = Analyzer.delay p
       ∧ messagesize = Analyzer.messagesize p).
Proof.
  split; [|split].
  - split.
    + intros H. apply (f_equal (split "/" None)) in H.
      rewrite !split_data_topic in H.
      injection H as H1 H2 H3 H4.
      by rewrite (pretty_Z_eq _ _ H1), (pretty_Z_eq _ _ H2),
                 (pretty_Z_eq _ _ H3), (pretty_Z_eq _ _ H4).
    + by intros (-> & -> & -> & ->).
  - split.
    + intros H. apply (f_equal (split "/" None)) in H.
      rewrite !split_counter_filter in H.
      injection H as H1 H2 H3.
      by rewrite (pretty_Z_eq _ _ H1), (pretty_Z_eq _ _ H2), (pretty_Z_eq _ _ H3).
    + intros (H1 & H2 & H3). unfold Analyzer.counter_filter.
      by rewrite H1, H2, H3.
  - rewrite split_data_topic, split_counter_filter. cbn [insert list_insert].
    split.
    + intros H. injection H as H1 H2 H3.
      by rewrite (pretty_Z_eq _ _ H1), (pretty_Z_eq _ _ H2), (pretty_Z_eq _ _ H3).
    + by intros (-> & -> & ->).
Qed.

(** [subscribe_to_counter_topics] unsubscribes from the filter
    [counter/#] and from nothing else, and subscribes to the filter of the
    present test and to nothing else; [counter/#] is a filter that neither
    it nor [on_connect] ever subscribes to. So the filter of an earlier
    test, which differs from that of the present test as soon as a
    parameter does, is never named in an [unsubscribe] call. *)
Theorem unsubscribe_names_no_subscription (self self' : Analyzer.t) :
  (∀ filter, Unsubscribe filter ∈ Analyzer.subscribe_to_counter_topics self'
             ↔ filter = "counter/#")
  ∧ (∀ filter qos,
       Subscribe filter qos ∈ Analyzer.subscribe_to_counter_topics self
       ↔ filter = Analyzer.counter_filter (Analyzer.current_test self)
         ∧ qos = Analyzer.sub_qos (Analyzer.current_test self))
  ∧ (∀ qos, Subscribe "counter/#" qos ∉ Analyzer.subscribe_to_counter_topics self)
  ∧ (∀ qos, Subscribe "counter/#" qos ∉ Analyzer.on_connect).
Proof.
  unfold Analyzer.subscribe_to_counter_topics, Analyzer.on_connect.
  split; [|split; [|split]].
  - intros filter. rewrite !elem_of_cons, elem_of_nil. split.
    + intros [H|[H|[]]]; [congruence|discriminate].
    + intros ->. by left.
  - intros filter qos. rewrite !elem_of_cons, elem_of_nil. split.
    + intros [H|[H|[]]]; [discriminate|]. split; congruence.
    + intros [-> ->]. right. by left.
  - intros qos Hsub. rewrite !elem_of_cons, elem_of_nil in Hsub.
    destruct Hsub as [H|[H|[]]]; [discriminate|].
    assert (Hf : "counter/#" = Analyzer.counter_filter (Analyzer.current_test self))
      by congruence.
    apply (f_equal (split "/" None)) in Hf.
    rewrite split_counter_filter in Hf. discriminate.
  - intros qos Hsub. rewrite !elem_of_cons, elem_of_nil in Hsub.
    destruct Hsub as [H|[]]. discriminate.
Qed.

End Further.
